(** * Image upscaling service (backend/app.py): model and verified properties

    The development embeds [backend/app.py] shallowly:

    - Python [float] is IEEE-754 binary64, modelled by Rocq's primitive
      floats ([PrimFloat]) and their specification [Prim2SF];
    - exceptions are a [result] monad, the module-level state
      ([request_counts], the logger) is threaded through a state monad [M];
    - Pillow (PIL) is an external library: its operations are the fields of
      the class [PIL], and the parts of its contract a property relies on
      are explicit hypotheses. *)

From Stdlib Require Import ZArith NArith Floats Uint63 Lia Bool.
From Stdlib Require Import String Ascii List.
From Stdlib Require Import Reals Lra Psatz.
From stdpp Require Import base option list gmap strings pretty.

Open Scope string_scope.
Open Scope Z_scope.

(** ** Exceptions and results *)

(** The exceptions that the code can meet.  [LibraryError] stands for any
    [Exception] raised inside Pillow or by reading the upload. *)
Inductive exn :=
| ValueError (msg : string)
| OverflowError (msg : string)
| ZeroDivisionError (msg : string)
| TypeError (msg : string)
| IndexError (msg : string)
| UnicodeEncodeError (msg : string)
| LibraryError (msg : string)
| HTTPException (status_code : Z) (detail : string).

(** [str(e)] *)
Definition str (e : exn) : string :=
  match e with
  | ValueError m | OverflowError m | ZeroDivisionError m
  | TypeError m | IndexError m | UnicodeEncodeError m | LibraryError m => m
  | HTTPException _ d => d
  end.

Definition is_HTTPException (e : exn) : bool :=
  match e with HTTPException _ _ => true | _ => false end.

Inductive result (A : Type) :=
| Ok (a : A)
| Raise (e : exn).
Arguments Ok {A} a.
Arguments Raise {A} e.

#[export] Instance result_ret : MRet result := fun A a => Ok a.
#[export] Instance result_bind : MBind result := fun A B f m =>
  match m with Ok a => f a | Raise e => Raise e end.

(** ** Python floats *)

Module PyFloat.

(** [float(n)] for an [int] that fits in 63 bits (image dimensions are C
    [int]s in Pillow): the conversion rounds to nearest, as CPython's. *)
Definition of_int (n : Z) : float := PrimFloat.of_uint63 (Uint63.of_Z n).

(** [int(x)]: truncation toward zero; NaN and the infinities raise. *)
Definition to_int (x : float) : result Z :=
  match Prim2SF x with
  | S754_nan => Raise (ValueError "cannot convert float NaN to integer")
  | S754_infinity _ => Raise (OverflowError "cannot convert float infinity to integer")
  | S754_zero _ => Ok 0
  | S754_finite s m e => Ok (cond_Zopp s (Z.shiftl (Zpos m) e))
  end.

(** The mathematical floor of a finite float (no value for NaN and the
    infinities). *)
Definition floor (x : float) : option Z :=
  match Prim2SF x with
  | S754_zero _ => Some 0
  | S754_finite s m e => Some (Z.shiftl (cond_Zopp s (Zpos m)) e)
  | _ => None
  end.

(** [n * x] for an [int] n and a [float] x. *)
Definition int_mul (n : Z) (x : float) : float := (of_int n * x)%float.

(** [a / b] for two [int]s (true division): [ZeroDivisionError] when
    [b] is 0, else the quotient of the two converted operands (CPython's
    path for operands that fit in 53 bits). *)
Definition int_truediv (a b : Z) : result float :=
  if b =? 0 then Raise (ZeroDivisionError "division by zero")
  else Ok (of_int a / of_int b)%float.

(** [x > y] *)
Definition gtb (x y : float) : bool := (y <? x)%float.

(** [min(a, b, c)]: the first of the smallest items, found with [<]. *)
Definition min3 (a b c : float) : float :=
  let m := if (b <? a)%float then b else a in
  if (c <? m)%float then c else m.

End PyFloat.

(** ** Module-level state and the monad of the handlers *)

(** The [metadata] dict of [process_image]. *)
Record metadata := {
  original_size : Z * Z;
  processed_size : Z * Z;
  scale_factor : float;
  format : string;
  file_size_bytes : Z
}.

(** The records of [logger]; [LogInfoRepr msg m] is the record of
    [logger.info(f"{msg}{m}")] for a metadata dict [m]. *)
Inductive log_entry :=
| LogInfo (msg : string)
| LogInfoRepr (msg : string) (m : metadata)
| LogError (msg : string).

(** [request_counts = defaultdict(list)] and the records of [logger]. *)
Record world := World {
  request_counts : gmap string (list float);
  log : list log_entry
}.

Definition M (A : Type) : Type := world -> result A * world.

#[export] Instance M_ret : MRet M := fun A a w => (Ok a, w).
#[export] Instance M_bind : MBind M := fun A B f m w =>
  match m w with
  | (Ok a, w') => f a w'
  | (Raise e, w') => (Raise e, w')
  end.

Definition raise {A} (e : exn) : M A := fun w => (Raise e, w).
Definition lift {A} (r : result A) : M A := fun w => (r, w).

(** [try: body  except Exception as e: handler(e)] *)
Definition try_except {A} (body : M A) (handler : exn -> M A) : M A := fun w =>
  match body w with
  | (Ok a, w') => (Ok a, w')
  | (Raise e, w') => handler e w'
  end.

Definition logger_info (msg : string) : M unit := fun w =>
  (Ok tt, World (request_counts w) (log w ++ [LogInfo msg])).
Definition logger_info_repr (msg : string) (m : metadata) : M unit := fun w =>
  (Ok tt, World (request_counts w) (log w ++ [LogInfoRepr msg m])).
Definition logger_error (msg : string) : M unit := fun w =>
  (Ok tt, World (request_counts w) (log w ++ [LogError msg])).

(** ** Configuration constants *)

Definition RATE_LIMIT_REQUESTS : Z := 10.
Definition RATE_LIMIT_WINDOW : float := 60%float.
Definition MAX_FILE_SIZE : Z := 10 * 1024 * 1024.
Definition ALLOWED_EXTENSIONS : list string := [".jpg"; ".jpeg"; ".png"; ".webp"].
Definition ALLOWED_MIME_TYPES : list string := ["image/jpeg"; "image/png"; "image/webp"].
Definition MAX_DIMENSION : Z := 4000.
Definition DEFAULT_SCALE_FACTOR : float := 2%float.

(** ** The interpreter

    [ALLOWED_EXTENSIONS] is a [set] of [str]: the order in which it is
    iterated ([', '.join(ALLOWED_EXTENSIONS)], [list(ALLOWED_EXTENSIONS)])
    depends on the hash seed of the process.  The set is never modified, so
    the order is the same every time. *)
Class Interpreter := {
  iter_ALLOWED_EXTENSIONS : list string;
  iter_ALLOWED_EXTENSIONS_perm : Permutation iter_ALLOWED_EXTENSIONS ALLOWED_EXTENSIONS
}.

(** ** Pillow *)

Inductive color :=
| ColorRGB (r g b : Z)
| ColorName (name : string).

(** The Pillow operations that [app.py] calls.  Each may raise. *)
Class PIL := {
  image : Type;
  (** [Image.open(io.BytesIO(data))] *)
  Image_open : list Byte.byte -> result image;
  (** [img.mode], [img.size]: the two dimensions are C [int]s in Pillow,
      here machine integers *)
  mode : image -> string;
  size : image -> int * int;
  (** [Image.new(mode, size, color)] *)
  Image_new : string -> int * int -> color -> result image;
  (** [img.split()] *)
  split : image -> result (list image);
  (** [background.paste(img, mask=m)]: the background after the paste *)
  paste : image -> image -> image -> result image;
  (** [img.convert(mode)] *)
  convert : image -> string -> result image;
  (** [img.resize((w, h), Image.Resampling.BICUBIC)] *)
  resize : image -> Z * Z -> result image;
  (** [img.filter(ImageFilter.UnsharpMask(radius, percent, threshold))] *)
  unsharp_mask : image -> Z -> Z -> Z -> result image;
  (** [img.save(buffer, format='JPEG', quality=q, optimize=o)]: the bytes
      written to the buffer *)
  save_jpeg : image -> option Z -> bool -> result (list Byte.byte)
}.

(** ** Requests and responses *)

(** What [await file.read()] does: it returns the bytes of the upload, or
    raises an I/O error. *)
Inductive read_outcome :=
| ReadBytes (data : list Byte.byte)
| ReadError (msg : string).

Definition read_result (r : read_outcome) : result (list Byte.byte) :=
  match r with
  | ReadBytes data => Ok data
  | ReadError msg => Raise (LibraryError msg)
  end.

(** [UploadFile].  [file_size] distinguishes an object without the attribute
    [size] ([None]), [size = None] ([Some None]) and a known size.  A [str]
    is modelled by the bytes of its UTF-8 encoding. *)
Record UploadFile := {
  filename : option string;
  file_size : option (option Z);
  content_type : option string;
  (** [await file.read()] *)
  read : read_outcome
}.

Inductive header_value :=
| Text (s : string)
(** [str(metadata)] *)
| MetadataRepr (m : metadata).

Inductive body :=
| JSONBody (fields : list (string * string))
| StreamBody (data : list Byte.byte)
| PlainBody (text : string).

Record response := Response {
  status_code : Z;
  headers : gmap string header_value;
  content : body
}.

(** [JSONResponse(status_code=..., content=...)] *)
Definition JSONResponse (status : Z) (fields : list (string * string)) : response :=
  Response status {[ "content-type" := Text "application/json" ]} (JSONBody fields).

(** [response.headers[k] = v] *)
Definition set_header (k v : string) (r : response) : response :=
  Response (status_code r) (<[k := Text v]> (headers r)) (content r).

(** Where the framework's router sends a request: to one of the three
    handlers of [app.py], with the arguments it parsed, or to one of its own
    answers: no route for the path (404), a route for the path but not for
    the method (405, with the methods of the route in [Allow]), or the path
    of a route up to a final slash (307, with the other path as
    [Location]). *)
Inductive endpoint :=
| GetRoot
| GetHealth
| PostUpscale (file : UploadFile) (scale_factor : float)
| NoRoute
| MethodNotAllowed (allow : string)
| RedirectSlashes (location : string).

(** An incoming request, with the value [time.time()] returns when the
    middleware handles it.  The requests are those without an [Origin]
    header: the CORS middleware, which wraps the application, hands them on
    and passes their responses back unchanged.  The pages of the interactive
    documentation and the framework's answers to requests whose parameters
    it cannot parse are left out. *)
Record request := {
  client_host : string;
  time_now : float;
  target : endpoint
}.

(** ** File names *)

Definition lower_ascii (c : ascii) : ascii :=
  let n := nat_of_ascii c in
  if ((65 <=? n) && (n <=? 90))%nat then ascii_of_nat (n + 32) else c.

(** [s.lower()]: the ASCII letters are lowered and every other byte is
    kept.  Python lowers the letters outside ASCII as well, which yields an
    ASCII letter only for U+0130 and U+212A (an i and a k), and no allowed
    extension has one of these. *)
Definition lower (s : string) : string :=
  string_of_list_ascii (List.map lower_ascii (list_ascii_of_string s)).

(** [p.rfind(c) + 1] on the characters of [p]: the position after the last
    [c], 0 when there is none. *)
Fixpoint after_last (c : ascii) (p : list ascii) : nat :=
  match p with
  | [] => 0%nat
  | x :: q =>
      match after_last c q with
      | O => if Ascii.eqb x c then 1%nat else 0%nat
      | S k => S (S k)
      end
  end.

(** [os.path.splitext(p)[1]] (POSIX): the extension starts at the last dot
    of the last path component, unless only dots come before it. *)
Definition splitext_ext (p : string) : string :=
  let cs := list_ascii_of_string p in
  let component := skipn (after_last "/"%char cs) cs in
  match after_last "."%char component with
  | O => ""
  | S dotIndex =>
      if existsb (fun c => negb (Ascii.eqb c "."%char)) (firstn dotIndex component)
      then string_of_list_ascii (skipn dotIndex component)
      else ""
  end.

(** ** Header values

    The framework encodes the names and the values of the headers of a
    response as Latin-1 when the response is built
    ([(k.lower().encode("latin-1"), v.encode("latin-1"))] for each item, in
    order): a value with a code point above U+00FF raises
    [UnicodeEncodeError]. *)

(** The code points of a [str], from its UTF-8 bytes; a byte that starts
    no sequence, or a sequence cut short, is read as U+FFFD. *)
Fixpoint utf8_decode (bs : list ascii) : list N :=
  match bs with
  | [] => []
  | b0 :: r0 =>
      let n0 := N_of_ascii b0 in
      if (n0 <? 128)%N then n0 :: utf8_decode r0
      else if (n0 <? 192)%N then 65533%N :: utf8_decode r0
      else if (n0 <? 224)%N then
        match r0 with
        | b1 :: r1 =>
            ((n0 mod 32) * 64 + N_of_ascii b1 mod 64)%N :: utf8_decode r1
        | _ => [65533%N]
        end
      else if (n0 <? 240)%N then
        match r0 with
        | b1 :: b2 :: r2 =>
            ((n0 mod 16) * 4096 + (N_of_ascii b1 mod 64) * 64
             + N_of_ascii b2 mod 64)%N :: utf8_decode r2
        | _ => [65533%N]
        end
      else if (n0 <? 248)%N then
        match r0 with
        | b1 :: b2 :: b3 :: r3 =>
            ((n0 mod 8) * 262144 + (N_of_ascii b1 mod 64) * 4096
             + (N_of_ascii b2 mod 64) * 64 + N_of_ascii b3 mod 64)%N :: utf8_decode r3
        | _ => [65533%N]
        end
      else 65533%N :: utf8_decode r0
  end.

Definition unencodable (cp : N) : bool := (256 <=? cp)%N.

(** The length of the run of unencodable code points at the head. *)
Fixpoint run_length (cps : list N) : nat :=
  match cps with
  | cp :: rest => if unencodable cp then S (run_length rest) else O
  | [] => O
  end.

(** The position of the first unencodable code point, this code point and
    the length of the run that it starts. *)
Fixpoint find_unencodable (pos : nat) (cps : list N) : option (nat * N * nat) :=
  match cps with
  | [] => None
  | cp :: rest =>
      if unencodable cp then Some (pos, cp, S (run_length rest))
      else find_unencodable (S pos) rest
  end.

Definition hex_digit (n : N) : ascii :=
  match String.get (N.to_nat n) "0123456789abcdef" with
  | Some c => c
  | None => "0"%char
  end.

(** [n] in hexadecimal, on [width] digits. *)
Fixpoint hex_digits (width : nat) (n : N) : string :=
  match width with
  | O => ""
  | S k => hex_digits k (n / 16) ++ String (hex_digit (n mod 16)) ""
  end.

(** [str(e)] for the [UnicodeEncodeError] of the Latin-1 codec. *)
Definition latin1_error (start : nat) (badchar : N) (len : nat) : string :=
  match len with
  | 1%nat =>
      "'latin-1' codec can't encode character '"
      ++ (if (badchar <=? 65535)%N then "\u" ++ hex_digits 4 badchar
          else "\U" ++ hex_digits 8 badchar)
      ++ "' in position " ++ pretty (Z.of_nat start) ++ ": ordinal not in range(256)"
  | _ =>
      "'latin-1' codec can't encode characters in position "
      ++ pretty (Z.of_nat start) ++ "-" ++ pretty (Z.of_nat (start + len - 1))
      ++ ": ordinal not in range(256)"
  end.

(** [s.encode("latin-1")], for its success or failure. *)
Definition encode_latin1 (s : string) : result unit :=
  match find_unencodable 0 (utf8_decode (list_ascii_of_string s)) with
  | None => Ok tt
  | Some (start, badchar, len) => Raise (UnicodeEncodeError (latin1_error start badchar len))
  end.

Definition latin1_encodable (s : string) : bool :=
  match find_unencodable 0 (utf8_decode (list_ascii_of_string s)) with
  | None => true
  | Some _ => false
  end.

Fixpoint encode_headers (hs : list (string * header_value)) : result unit :=
  match hs with
  | [] => Ok tt
  | (k, v) :: rest =>
      _ ← encode_latin1 (lower k);
      _ ← match v with
          | Text t => encode_latin1 t
          | MetadataRepr _ => Ok tt
          end;
      encode_headers rest
  end.

(** [StreamingResponse(io.BytesIO(data), media_type=..., headers=...)] *)
Definition StreamingResponse (data : list Byte.byte) (media_type : string)
    (hs : list (string * header_value)) : result response :=
  _ ← encode_headers hs;
  Ok (Response 200 (<["content-type" := Text media_type]> (list_to_map hs)) (StreamBody data)).

(** ** ImageProcessor *)

Definition white : color := ColorRGB 255 255 255.

Section ImageProcessor.
Context `{PIL} `{Interpreter}.

(** [f"Unsupported file format. Allowed: {', '.join(ALLOWED_EXTENSIONS)}"] *)
Definition unsupported_format_message : string :=
  "Unsupported file format. Allowed: " ++ String.concat ", " iter_ALLOWED_EXTENSIONS.

(** The checks of [validate_image_file], inside its [try]. *)
Definition validate_checks (file : UploadFile) : result (bool * string) :=
  too_large ← match file_size file with
              | None => Ok false
              | Some None =>
                  Raise (TypeError "'>' not supported between instances of 'NoneType' and 'int'")
              | Some (Some n) => Ok (n >? MAX_FILE_SIZE)
              end;
  if too_large : bool then
    Ok (false, "File size exceeds maximum limit of 10MB")
  else if match filename file with
          | Some name =>
              negb (String.eqb name "") &&
              negb (bool_decide (splitext_ext (lower name) ∈ ALLOWED_EXTENSIONS))
          | None => false
          end then
    Ok (false, unsupported_format_message)
  else if negb (bool_decide (content_type file ∈ List.map Some ALLOWED_MIME_TYPES)) then
    Ok (false, "Invalid content type. Expected image file.")
  else Ok (true, "").

Definition validate_image_file (file : UploadFile) : M (bool * string) :=
  try_except (lift (validate_checks file))
    (fun e => _ ← logger_error ("Validation error: " ++ str e);
              mret (false, "File validation failed")).

(** [img.split()[-1]] *)
Definition last_band (img : image) : result image :=
  bands ← split img;
  match last bands with
  | Some b => Ok b
  | None => Raise (IndexError "tuple index out of range")
  end.

(** Lines 150-160: the conversion to RGB. *)
Definition normalize_mode (img : image) : result image :=
  if bool_decide (mode img ∈ ["RGBA"; "LA"]) then
    background ← Image_new "RGB" (size img) white;
    mask ← last_band img;
    paste background img mask
  else if negb (bool_decide (mode img ∈ ["RGB"; "L"])) then
    convert img "RGB"
  else Ok img.

(** Lines 165-176: the new dimensions and the scale factor that gives
    them. *)
Definition target_dimensions (original_width original_height : Z)
    (scale_factor : float) : result (float * Z * Z) :=
  new_width ← PyFloat.to_int (PyFloat.int_mul original_width scale_factor);
  new_height ← PyFloat.to_int (PyFloat.int_mul original_height scale_factor);
  if (new_width >? MAX_DIMENSION) || (new_height >? MAX_DIMENSION) then
    max_scale_w ← PyFloat.int_truediv MAX_DIMENSION original_width;
    max_scale_h ← PyFloat.int_truediv MAX_DIMENSION original_height;
    let scale_factor := PyFloat.min3 max_scale_w max_scale_h scale_factor in
    new_width ← PyFloat.to_int (PyFloat.int_mul original_width scale_factor);
    new_height ← PyFloat.to_int (PyFloat.int_mul original_height scale_factor);
    Ok (scale_factor, new_width, new_height)
  else Ok (scale_factor, new_width, new_height).

(** The body of the [try] of [process_image]. *)
Definition transform (image_data : list Byte.byte) (scale_factor : float)
    : M (list Byte.byte * metadata) :=
  img ← lift (Image_open image_data);
  img ← lift (normalize_mode img);
  let original_width := Uint63.to_Z (fst (size img)) in
  let original_height := Uint63.to_Z (snd (size img)) in
  '(scale_factor, new_width, new_height) ←
    lift (target_dimensions original_width original_height scale_factor);
  _ ← logger_info ("Upscaling image: " ++ pretty original_width ++ "x"
                   ++ pretty original_height ++ " -> " ++ pretty new_width
                   ++ "x" ++ pretty new_height);
  upscaled_img ← lift (resize img (new_width, new_height));
  upscaled_img ← lift (unsharp_mask upscaled_img 1 150 3);
  let img_format := "JPEG" in
  output ← lift (save_jpeg upscaled_img (Some 95) true);
  mret (output,
        {| original_size := (original_width, original_height);
           processed_size := (new_width, new_height);
           scale_factor := scale_factor;
           format := img_format;
           file_size_bytes := Z.of_nat (length output) |}).

Definition process_image (image_data : list Byte.byte) (scale_factor : float)
    : M (list Byte.byte * metadata) :=
  try_except (transform image_data scale_factor)
    (fun e => _ ← logger_error ("Image processing error: " ++ str e);
              raise (HTTPException 422 ("Image processing failed: " ++ str e))).

End ImageProcessor.

(** ** Endpoints *)

Section Endpoints.
Context `{PIL} `{Interpreter}.

(** Line 247: [scale_factor <= 0 or scale_factor > 4.0]. *)
Definition scale_factor_rejected (scale_factor : float) : bool :=
  (scale_factor <=? 0)%float || PyFloat.gtb scale_factor 4%float.

(** [GET /].  The values of the JSON object are given by their text; a
    list by its items, separated by commas. *)
Definition root : M response :=
  mret (JSONResponse 200
          [("message", "Image Upscaling API is running");
           ("version", "1.0.0");
           ("endpoints", "/upscale");
           ("max_file_size_mb", pretty (MAX_FILE_SIZE / (1024 * 1024)));
           ("supported_formats", String.concat ", " iter_ALLOWED_EXTENSIONS)]).

(** [f"{file.filename}"] *)
Definition format_filename (file : UploadFile) : string :=
  match filename file with Some name => name | None => "None" end.

(** [file.filename or "unknown"] *)
Definition filename_or_unknown (file : UploadFile) : string :=
  match filename file with
  | Some name => if String.eqb name "" then "unknown" else name
  | None => "unknown"
  end.

(** [POST /upscale] *)
Definition upscale_image (file : UploadFile) (scale_factor : float) : M response :=
  if scale_factor_rejected scale_factor then
    raise (HTTPException 400 "Scale factor must be between 0.1 and 4.0")
  else
    '(is_valid, error_message) ← validate_image_file file;
    if negb is_valid then raise (HTTPException 400 error_message)
    else
      try_except
        (file_content ← lift (read_result (read file));
         if Z.of_nat (length file_content) >? MAX_FILE_SIZE then
           raise (HTTPException 413 "File too large. Maximum size: 10MB")
         else
           _ ← logger_info ("Processing image: " ++ format_filename file ++ " ("
                            ++ pretty (Z.of_nat (length file_content)) ++ " bytes)");
           '(processed_image, metadata) ← process_image file_content scale_factor;
           let output_filename := "upscaled_" ++ format_filename file in
           response ← lift
             (StreamingResponse processed_image "image/jpeg"
                [("Content-Disposition", Text ("attachment; filename=" ++ output_filename));
                 ("X-Image-Metadata", MetadataRepr metadata);
                 ("X-Original-Filename", Text (filename_or_unknown file));
                 ("X-Processing-Status", Text "success")]);
           _ ← logger_info_repr "Successfully processed image: " metadata;
           mret response)
        (fun e =>
           if is_HTTPException e then raise e
           else
             _ ← logger_error ("Unexpected error processing image: " ++ str e);
             raise (HTTPException 500 "Internal server error during image processing")).

(** [GET /health] *)
Definition health_check : M response :=
  try_except
    (test_img ← lift (Image_new "RGB" (100%uint63, 100%uint63) (ColorName "red"));
     _ ← lift (save_jpeg test_img None false);
     mret (JSONResponse 200
             [("status", "healthy");
              ("service", "Image Upscaling API");
              ("processing_capability", "operational");
              ("max_file_size_mb", pretty (MAX_FILE_SIZE / (1024 * 1024)));
              ("supported_formats", String.concat ", " iter_ALLOWED_EXTENSIONS)]))
    (fun e =>
       _ ← logger_error ("Health check failed: " ++ str e);
       mret (JSONResponse 503 [("status", "unhealthy"); ("error", str e)])).

(** The handlers registered with [@app.exception_handler] for 413 and
    422, and the framework's handler for the other [HTTPException]s. *)
Definition file_too_large_handler : response :=
  JSONResponse 413
    [("detail", "File too large. Maximum size allowed: 10MB");
     ("error_code", "FILE_TOO_LARGE")].

Definition validation_error_handler : response :=
  JSONResponse 422
    [("detail", "Validation error occurred");
     ("error_code", "VALIDATION_ERROR")].

Definition http_exception_response (status : Z) (detail : string) : response :=
  if status =? 413 then file_too_large_handler
  else if status =? 422 then validation_error_handler
  else JSONResponse status [("detail", detail)].

(** The routes of the application: an [HTTPException] raised by an
    endpoint becomes its response; any other exception goes on to the
    caller.  The router's own answers are its 404, raised as an
    [HTTPException], its 405 with the header [Allow], and its
    redirection. *)
Definition call_endpoint (target : endpoint) : M response :=
  try_except
    match target with
    | GetRoot => root
    | GetHealth => health_check
    | PostUpscale file scale_factor => upscale_image file scale_factor
    | NoRoute => raise (HTTPException 404 "Not Found")
    | MethodNotAllowed allow =>
        mret (Response 405 (<["Allow" := Text allow]>
                              {[ "content-type" := Text "application/json" ]})
                (JSONBody [("detail", "Method Not Allowed")]))
    | RedirectSlashes location =>
        mret (Response 307 {[ "location" := Text location ]} (PlainBody ""))
    end
    (fun e =>
       match e with
       | HTTPException status detail => mret (http_exception_response status detail)
       | _ => raise e
       end).

(** The timestamps of [client_ip] that are still in the window (lines
    61-64). *)
Definition recent_requests (now : float) (timestamps : list float) : list float :=
  List.filter (fun req_time => (now - req_time <? RATE_LIMIT_WINDOW)%float) timestamps.

(** Lines 54-85: the middleware, with [call_next] the rest of the
    application. *)
Definition add_security_headers (req : request) (call_next : request -> M response)
    : M response := fun w =>
  let client_ip := client_host req in
  let now := time_now req in
  let kept := recent_requests now (request_counts w !!! client_ip) in
  let w := World (<[client_ip := kept]> (request_counts w)) (log w) in
  if Z.of_nat (length (request_counts w !!! client_ip)) >=? RATE_LIMIT_REQUESTS then
    (Ok (JSONResponse 429 [("detail", "Rate limit exceeded. Please try again later.")]), w)
  else
    let w := World (<[client_ip := (request_counts w !!! client_ip ++ [now])%list]> (request_counts w))
                   (log w) in
    (response ← call_next req;
     let response := set_header "X-Content-Type-Options" "nosniff" response in
     let response := set_header "X-Frame-Options" "DENY" response in
     let response := set_header "X-XSS-Protection" "1; mode=block" response in
     let response := set_header "Strict-Transport-Security"
                       "max-age=31536000; includeSubDomains" response in
     let response := set_header "Referrer-Policy" "strict-origin-when-cross-origin" response in
     mret response) w.

(** The whole application: an exception that no handler took becomes the
    server's plain 500 response. *)
Definition app (req : request) (w : world) : response * world :=
  match add_security_headers req (fun r => call_endpoint (target r)) w with
  | (Ok response, w') => (response, w')
  | (Raise _, w') =>
      (Response 500 {[ "content-type" := Text "text/plain; charset=utf-8" ]}
         (PlainBody "Internal Server Error"), w')
  end.

(** The requests of a trace, handled one after the other. *)
Fixpoint serve (reqs : list request) (w : world) : list response * world :=
  match reqs with
  | [] => ([], w)
  | req :: reqs' =>
      let '(r, w') := app req w in
      let '(rs, w'') := serve reqs' w' in
      (r :: rs, w'')
  end.

End Endpoints.

(** ** A small backend to run the model

    Images carry a mode and a size, without pixels.  A file is a header of
    five bytes: a mode tag, the width and the height on 16 bits each. *)
Module Raster.

Record raster := Raster { raster_mode : string; raster_size : int * int }.

Definition mode_of_tag (tag : Byte.byte) : option string :=
  match Byte.to_N tag with
  | 0%N => Some "L"
  | 1%N => Some "RGB"
  | 2%N => Some "RGBA"
  | 3%N => Some "LA"
  | 4%N => Some "P"
  | _ => None
  end.

Definition tag_of_mode (m : string) : Byte.byte :=
  if String.eqb m "L" then Byte.x00
  else if String.eqb m "RGB" then Byte.x01
  else if String.eqb m "RGBA" then Byte.x02
  else if String.eqb m "LA" then Byte.x03
  else Byte.x04.

Definition byte_of_N (n : N) : Byte.byte :=
  match Byte.of_N (n mod 256) with Some b => b | None => Byte.x00 end.

Definition decode (data : list Byte.byte) : result raster :=
  match data with
  | tag :: w1 :: w0 :: h1 :: h0 :: _ =>
      match mode_of_tag tag with
      | Some m =>
          Ok (Raster m (Uint63.of_Z (Z.of_N (256 * Byte.to_N w1 + Byte.to_N w0)),
                        Uint63.of_Z (Z.of_N (256 * Byte.to_N h1 + Byte.to_N h0))))
      | None => Raise (LibraryError "cannot identify image file")
      end
  | _ => Raise (LibraryError "cannot identify image file")
  end.

Definition bands (img : raster) : list raster :=
  List.map (fun _ => Raster "L" (raster_size img))
    (list_ascii_of_string (raster_mode img)).

Definition resample (img : raster) (sz : Z * Z) : result raster :=
  if (fst sz <? 1) || (snd sz <? 1) then
    Raise (ValueError "height and width must be > 0")
  else Ok (Raster (raster_mode img) (Uint63.of_Z (fst sz), Uint63.of_Z (snd sz))).

Definition encode (img : raster) : list Byte.byte :=
  let w := Z.to_N (Uint63.to_Z (fst (raster_size img))) in
  let h := Z.to_N (Uint63.to_Z (snd (raster_size img))) in
  [tag_of_mode (raster_mode img);
   byte_of_N (w / 256); byte_of_N w; byte_of_N (h / 256); byte_of_N h].

#[export] Instance backend : PIL := {|
  image := raster;
  Image_open := decode;
  mode := raster_mode;
  size := raster_size;
  Image_new := fun m sz _ => Ok (Raster m sz);
  split := fun img => Ok (bands img);
  paste := fun background _ _ => Ok background;
  convert := fun img m => Ok (Raster m (raster_size img));
  resize := resample;
  unsharp_mask := fun img _ _ _ => Ok img;
  save_jpeg := fun img _ _ => Ok (encode img)
|}.

(** A [w] x [h] file of the given mode tag. *)
Definition file_bytes (tag : Byte.byte) (w h : N) : list Byte.byte :=
  [tag; byte_of_N (w / 256); byte_of_N w; byte_of_N (h / 256); byte_of_N h].

Definition png (w h : N) : UploadFile :=
  {| filename := Some "photo.png";
     file_size := Some (Some 5);
     content_type := Some "image/png";
     read := ReadBytes (file_bytes Byte.x01 w h) |}.

Definition empty_world : world := World ∅ [].

(** A process in which the set of extensions is iterated in the order of
    its display. *)
#[export] Instance interpreter : Interpreter := {|
  iter_ALLOWED_EXTENSIONS := [".jpg"; ".jpeg"; ".png"; ".webp"];
  iter_ALLOWED_EXTENSIONS_perm := Permutation_refl ALLOWED_EXTENSIONS
|}.

End Raster.

(** * Properties *)

(** ** Computations that only write to the log *)

Definition logs_only {A} (m : M A) : Prop :=
  exists r entries, forall w, m w = (r, World (request_counts w) (log w ++ entries)).

Lemma logs_only_ret {A} (a : A) : logs_only (mret a).
Proof.
  exists (Ok a), []. intros [rc l]. unfold mret, M_ret. simpl. now rewrite app_nil_r.
Qed.

Lemma logs_only_raise {A} (e : exn) : logs_only (@raise A e).
Proof.
  exists (Raise e), []. intros [rc l]. unfold raise. simpl. now rewrite app_nil_r.
Qed.

Lemma logs_only_lift {A} (r : result A) : logs_only (lift r).
Proof.
  exists r, []. intros [rc l]. unfold lift. simpl. now rewrite app_nil_r.
Qed.

Lemma logs_only_logger_info msg : logs_only (logger_info msg).
Proof. exists (Ok tt), [LogInfo msg]. reflexivity. Qed.

Lemma logs_only_logger_info_repr msg m : logs_only (logger_info_repr msg m).
Proof. exists (Ok tt), [LogInfoRepr msg m]. reflexivity. Qed.

Lemma logs_only_logger_error msg : logs_only (logger_error msg).
Proof. exists (Ok tt), [LogError msg]. reflexivity. Qed.

Lemma logs_only_bind {A B} (m : M A) (f : A -> M B) :
  logs_only m -> (forall a, logs_only (f a)) -> logs_only (m ≫= f).
Proof.
  intros (r & l & Hm) Hf. destruct r as [a|e].
  - destruct (Hf a) as (r' & l' & Hfa). exists r', (l ++ l')%list. intros w.
    unfold mbind, M_bind. rewrite Hm, Hfa. simpl. now rewrite app_assoc.
  - exists (Raise e), l. intros w. unfold mbind, M_bind. now rewrite Hm.
Qed.

Lemma logs_only_try_except {A} (m : M A) (h : exn -> M A) :
  logs_only m -> (forall e, logs_only (h e)) -> logs_only (try_except m h).
Proof.
  intros (r & l & Hm) Hh. destruct r as [a|e].
  - exists (Ok a), l. intros w. unfold try_except. now rewrite Hm.
  - destruct (Hh e) as (r' & l' & Hhe). exists r', (l ++ l')%list. intros w.
    unfold try_except. rewrite Hm, Hhe. simpl. now rewrite app_assoc.
Qed.

Lemma logs_only_counts {A} (m : M A) w :
  logs_only m -> request_counts (snd (m w)) = request_counts w.
Proof. intros (r & l & Hm). now rewrite Hm. Qed.

Lemma logs_only_result {A} (m : M A) w1 w2 :
  logs_only m -> fst (m w1) = fst (m w2).
Proof. intros (r & l & Hm). now rewrite !Hm. Qed.

Ltac logs_only :=
  repeat first
    [ apply logs_only_ret | apply logs_only_raise | apply logs_only_lift
    | apply logs_only_logger_info | apply logs_only_logger_info_repr
    | apply logs_only_logger_error
    | apply logs_only_bind; [| intros ?]
    | apply logs_only_try_except; [| intros ?]
    | match goal with
      | |- logs_only (if ?b then _ else _) => destruct b
      | |- logs_only (match ?x with _ => _ end) => destruct x
      | |- logs_only (let '(_, _) := ?x in _) => destruct x
      end ].

Section Writers.
Context `{PIL} `{Interpreter}.

Lemma logs_only_validate file : logs_only (validate_image_file file).
Proof. unfold validate_image_file. logs_only. Qed.

Lemma logs_only_transform data s : logs_only (transform data s).
Proof. unfold transform. logs_only. Qed.

Lemma logs_only_process_image data s : logs_only (process_image data s).
Proof. unfold process_image. logs_only. Qed.

Lemma logs_only_upscale_image file s : logs_only (upscale_image file s).
Proof.
  unfold upscale_image. logs_only; try apply logs_only_validate; try apply logs_only_process_image.
Qed.

Lemma logs_only_call_endpoint target : logs_only (call_endpoint target).
Proof.
  unfold call_endpoint, root, health_check. logs_only; try apply logs_only_upscale_image.
Qed.

End Writers.

(** ** The middleware: rate limiting and security headers *)

Definition rate_limit_response : response :=
  JSONResponse 429 [("detail", "Rate limit exceeded. Please try again later.")].

Definition security_headers : list (string * string) :=
  [("X-Content-Type-Options", "nosniff");
   ("X-Frame-Options", "DENY");
   ("X-XSS-Protection", "1; mode=block");
   ("Strict-Transport-Security", "max-age=31536000; includeSubDomains");
   ("Referrer-Policy", "strict-origin-when-cross-origin")].

Definition has_security_headers (r : response) : Prop :=
  Forall (fun kv => headers r !! fst kv = Some (Text (snd kv))) security_headers.

(** The five assignments of lines 79-83. *)
Definition with_security_headers (r : response) : response :=
  set_header "Referrer-Policy" "strict-origin-when-cross-origin"
    (set_header "Strict-Transport-Security" "max-age=31536000; includeSubDomains"
       (set_header "X-XSS-Protection" "1; mode=block"
          (set_header "X-Frame-Options" "DENY"
             (set_header "X-Content-Type-Options" "nosniff" r)))).

(** The state of the limiter after a request of [client_ip] at [now]. *)
Definition counts_after (admitted : bool) (client_ip : string) (now : float)
    (counts : gmap string (list float)) : gmap string (list float) :=
  let kept := recent_requests now (counts !!! client_ip) in
  <[client_ip := if admitted then (kept ++ [now])%list else kept]> counts.

Lemma recent_requests_In now timestamps t :
  In t (recent_requests now timestamps) <->
  In t timestamps /\ (now - t <? RATE_LIMIT_WINDOW)%float = true.
Proof. unfold recent_requests. now rewrite filter_In. Qed.

Lemma recent_requests_all now timestamps :
  (forall t, In t timestamps -> (now - t <? RATE_LIMIT_WINDOW)%float = true) ->
  recent_requests now timestamps = timestamps.
Proof.
  unfold recent_requests. induction timestamps as [|t ts IH]; intros Hall; simpl.
  - reflexivity.
  - rewrite (Hall t) by now left. f_equal. apply IH. intros u Hu. apply Hall. now right.
Qed.

Lemma recent_requests_none now timestamps :
  (forall t, In t timestamps -> (now - t <? RATE_LIMIT_WINDOW)%float = false) ->
  recent_requests now timestamps = [].
Proof.
  unfold recent_requests. induction timestamps as [|t ts IH]; intros Hall; simpl.
  - reflexivity.
  - rewrite (Hall t) by now left. apply IH. intros u Hu. apply Hall. now right.
Qed.

Lemma with_security_headers_has r : has_security_headers (with_security_headers r).
Proof.
  unfold has_security_headers, security_headers, with_security_headers.
  repeat constructor; simpl;
    repeat (first [ apply lookup_insert_eq | rewrite lookup_insert_ne by discriminate ]).
Qed.

Lemma with_security_headers_status r :
  status_code (with_security_headers r) = status_code r.
Proof. reflexivity. Qed.

Lemma with_security_headers_content r :
  content (with_security_headers r) = content r.
Proof. reflexivity. Qed.

Section Middleware.
Context `{PIL} `{Interpreter}.

Lemma add_security_headers_reject req call_next w :
  RATE_LIMIT_REQUESTS <=
    Z.of_nat (length (recent_requests (time_now req) (request_counts w !!! client_host req))) ->
  add_security_headers req call_next w =
    (Ok rate_limit_response,
     World (counts_after false (client_host req) (time_now req) (request_counts w)) (log w)).
Proof.
  intros Hfull. unfold add_security_headers, counts_after. simpl.
  rewrite lookup_total_insert_eq.
  destruct (Z.geb_spec
    (Z.of_nat (length (recent_requests (time_now req) (request_counts w !!! client_host req))))
    RATE_LIMIT_REQUESTS) as [_|Hlt]; [reflexivity | lia].
Qed.

Lemma add_security_headers_admit req call_next w :
  Z.of_nat (length (recent_requests (time_now req) (request_counts w !!! client_host req)))
    < RATE_LIMIT_REQUESTS ->
  add_security_headers req call_next w =
    (response ← call_next req; mret (with_security_headers response))
      (World (counts_after true (client_host req) (time_now req) (request_counts w)) (log w)).
Proof.
  intros Hroom. unfold add_security_headers, counts_after. simpl.
  rewrite lookup_total_insert_eq, insert_insert_eq.
  destruct (Z.geb_spec
    (Z.of_nat (length (recent_requests (time_now req) (request_counts w !!! client_host req))))
    RATE_LIMIT_REQUESTS) as [Hge|_]; [lia | reflexivity].
Qed.

End Middleware.

(** ** What the endpoints can answer *)

Section Outcomes.
Context `{PIL} `{Interpreter}.

Lemma process_image_raises data s w e w' :
  process_image data s w = (Raise e, w') ->
  exists cause, e = HTTPException 422 ("Image processing failed: " ++ str cause).
Proof.
  unfold process_image, try_except. destruct (transform data s w) as [[a|cause] w0].
  - discriminate.
  - unfold mbind, M_bind, logger_error, raise. intros [= <- _]. now exists cause.
Qed.

Lemma validate_image_file_returns file w :
  exists v w', validate_image_file file w = (Ok v, w').
Proof.
  unfold validate_image_file, try_except, lift.
  destruct (validate_checks file); [eauto|].
  unfold mbind, M_bind, logger_error, mret, M_ret. eauto.
Qed.

Lemma encode_latin1_raises s e : encode_latin1 s = Raise e -> is_HTTPException e = false.
Proof.
  unfold encode_latin1. destruct (find_unencodable _ _) as [[[start badchar] len]|];
    [|discriminate]. now intros [= <-].
Qed.

Lemma encode_headers_raises hs e :
  encode_headers hs = Raise e -> is_HTTPException e = false.
Proof.
  induction hs as [|[k v] hs IH]; simpl; [discriminate|].
  unfold mbind, result_bind.
  destruct (encode_latin1 (lower k)) as [[]|e1] eqn:Hk.
  - destruct v as [t|m].
    + destruct (encode_latin1 t) as [[]|e2] eqn:Ht; [exact IH|].
      intros [= <-]. eapply encode_latin1_raises, Ht.
    + exact IH.
  - intros [= <-]. eapply encode_latin1_raises, Hk.
Qed.

Lemma StreamingResponse_inv data media_type hs :
  match StreamingResponse data media_type hs with
  | Ok r =>
      encode_headers hs = Ok tt /\
      r = Response 200 (<["content-type" := Text media_type]> (list_to_map hs))
            (StreamBody data)
  | Raise e => encode_headers hs = Raise e /\ is_HTTPException e = false
  end.
Proof.
  unfold StreamingResponse, mbind, result_bind.
  destruct (encode_headers hs) as [[]|e] eqn:Hh; [auto|].
  split; [reflexivity|]. eapply encode_headers_raises, Hh.
Qed.

Lemma upscale_image_outcome file s w :
  match fst (upscale_image file s w) with
  | Ok r => status_code r = 200
  | Raise (HTTPException status _) => In status [400; 413; 422; 500]
  | Raise _ => False
  end.
Proof.
  unfold upscale_image. destruct (scale_factor_rejected s); [simpl; tauto|].
  unfold mbind at 1, M_bind at 1.
  destruct (validate_image_file_returns file w) as ([is_valid msg] & w1 & ->).
  destruct is_valid; simpl; [|tauto].
  unfold try_except, mbind at 1, M_bind at 1, lift at 1.
  destruct (read file) as [data|msg']; simpl; [|tauto].
  destruct (Z.of_nat (length data) >? MAX_FILE_SIZE); simpl; [tauto|].
  unfold mbind at 1, M_bind at 1, logger_info at 1.
  unfold mbind at 1, M_bind at 1.
  destruct (process_image data s _) as [[[out meta]|e] w2] eqn:Hp.
  - unfold mbind at 1, M_bind at 1, lift at 1.
    match goal with |- context [StreamingResponse ?d ?m ?hs] =>
      pose proof (StreamingResponse_inv d m hs) as Hr;
      destruct (StreamingResponse d m hs) as [r|e]
    end.
    + destruct Hr as [_ ->]. reflexivity.
    + destruct Hr as [_ ->]. simpl. tauto.
  - apply process_image_raises in Hp as [cause ->]. simpl. tauto.
Qed.

Definition endpoint_status (status : Z) : Prop :=
  In status [200; 307; 400; 404; 405; 413; 422; 500; 503].

Lemma http_exception_response_status status detail :
  status_code (http_exception_response status detail) = status.
Proof.
  unfold http_exception_response.
  destruct (Z.eqb_spec status 413) as [->|_]; [reflexivity|].
  destruct (Z.eqb_spec status 422) as [->|_]; reflexivity.
Qed.

Lemma call_endpoint_returns target w :
  exists r w', call_endpoint target w = (Ok r, w') /\
               endpoint_status (status_code r) /\
               request_counts w' = request_counts w.
Proof.
  pose proof (logs_only_counts (call_endpoint target) w (logs_only_call_endpoint target)) as Hc.
  revert Hc. unfold call_endpoint, try_except, endpoint_status.
  destruct target as [| |file s| |allow|location].
  - simpl. intros Hc. eexists _, _. split; [reflexivity|]. simpl. tauto.
  - unfold health_check, try_except, mbind, M_bind, lift, mret, M_ret, logger_error.
    destruct (Image_new _ _ _) as [img|e]; [destruct (save_jpeg _ _ _) as [out|e]|];
      simpl; intros Hc; (eexists _, _; split; [reflexivity|]); simpl; tauto.
  - pose proof (upscale_image_outcome file s w) as Ho.
    destruct (upscale_image file s w) as [[r|e] w1]; simpl in *.
    + intros Hc. eexists _, _. split; [reflexivity|]. rewrite Ho. simpl. tauto.
    + destruct e; try contradiction. intros Hc. eexists _, _. split; [reflexivity|].
      rewrite http_exception_response_status. simpl in *. tauto.
  - simpl. intros Hc. eexists _, _. split; [reflexivity|]. simpl. tauto.
  - simpl. intros Hc. eexists _, _. split; [reflexivity|]. simpl. tauto.
  - simpl. intros Hc. eexists _, _. split; [reflexivity|]. simpl. tauto.
Qed.

End Outcomes.

(** ** The application on a trace of requests *)

(** Every timestamp of [times] is less than the window after each timestamp
    before it, those of [earlier] included. *)
Fixpoint in_one_window (earlier times : list float) : bool :=
  match times with
  | [] => true
  | t :: later =>
      forallb (fun u => (t - u <? RATE_LIMIT_WINDOW)%float) earlier
      && in_one_window (earlier ++ [t]) later
  end.

(** The window has elapsed at [now] for every timestamp of [times]. *)
Definition window_elapsed (now : float) (times : list float) : bool :=
  forallb (fun t => negb (now - t <? RATE_LIMIT_WINDOW)%float) times.

Section Traces.
Context `{PIL} `{Interpreter}.

Lemma app_reject req w :
  RATE_LIMIT_REQUESTS <=
    Z.of_nat (length (recent_requests (time_now req) (request_counts w !!! client_host req))) ->
  app req w =
    (rate_limit_response,
     World (counts_after false (client_host req) (time_now req) (request_counts w)) (log w)).
Proof. intros Hfull. unfold app. now rewrite add_security_headers_reject. Qed.

Lemma app_admit req w :
  Z.of_nat (length (recent_requests (time_now req) (request_counts w !!! client_host req)))
    < RATE_LIMIT_REQUESTS ->
  exists r w',
    app req w = (with_security_headers r, w') /\
    endpoint_status (status_code r) /\
    request_counts w' = counts_after true (client_host req) (time_now req) (request_counts w).
Proof.
  intros Hroom. unfold app. rewrite add_security_headers_admit by assumption.
  unfold mbind, M_bind.
  destruct (call_endpoint_returns (target req)
              (World (counts_after true (client_host req) (time_now req) (request_counts w))
                     (log w))) as (r & w' & -> & Hs & Hc).
  exists r, w'. auto.
Qed.

Lemma serve_app reqs1 reqs2 w :
  serve (reqs1 ++ reqs2) w =
    let '(rs1, w1) := serve reqs1 w in
    let '(rs2, w2) := serve reqs2 w1 in
    ((rs1 ++ rs2)%list, w2).
Proof.
  revert w. induction reqs1 as [|req reqs1 IH]; intros w; simpl.
  - now destruct (serve reqs2 w).
  - destruct (app req w) as [r w']. rewrite IH.
    destruct (serve reqs1 w') as [rs1 w1]. now destruct (serve reqs2 w1).
Qed.

(** While the client has made fewer than ten requests in the window, its
    requests are admitted and their timestamps recorded in order. *)
Lemma serve_admits client_ip reqs : forall w,
  Forall (fun req => client_host req = client_ip) reqs ->
  (length (request_counts w !!! client_ip) + length reqs <= 10)%nat ->
  in_one_window (request_counts w !!! client_ip) (List.map time_now reqs) = true ->
  exists rs w',
    serve reqs w = (rs, w') /\
    length rs = length reqs /\
    Forall (fun r => endpoint_status (status_code r) /\ has_security_headers r) rs /\
    request_counts w' !!! client_ip
      = (request_counts w !!! client_ip ++ List.map time_now reqs)%list.
Proof.
  induction reqs as [|req reqs IH]; intros w Hip Hlen Hwin.
  - exists [], w. simpl. rewrite app_nil_r. auto.
  - inversion Hip as [|? ? Hreq Hip']; subst. simpl in Hwin, Hlen.
    apply andb_true_iff in Hwin as [Hall Hwin].
    assert (Hkept : recent_requests (time_now req) (request_counts w !!! client_host req)
                    = request_counts w !!! client_host req).
    { apply recent_requests_all. intros t Ht.
      rewrite forallb_forall in Hall. now apply Hall. }
    destruct (app_admit req w) as (r & w1 & Happ & Hs & Hc).
    { rewrite Hkept. unfold RATE_LIMIT_REQUESTS. lia. }
    assert (Hw1 : request_counts w1 !!! client_host req
                  = (request_counts w !!! client_host req ++ [time_now req])%list).
    { rewrite Hc. unfold counts_after. now rewrite lookup_total_insert_eq, Hkept. }
    destruct (IH w1 Hip') as (rs & w' & Hserve & Hlen' & Hall' & Hcounts).
    { rewrite Hw1, length_app. simpl. lia. }
    { now rewrite Hw1. }
    exists (with_security_headers r :: rs), w'. simpl. rewrite Happ, Hserve.
    repeat split.
    + now rewrite Hlen'.
    + constructor; [|assumption]. split; [assumption|apply with_security_headers_has].
    + rewrite Hcounts, Hw1, <- app_assoc. reflexivity.
Qed.

End Traces.

(** ** Claims on the middleware *)

Section MiddlewareClaims.
Context `{PIL} `{Interpreter}.

(** C5.  On each request the middleware keeps, of the client's recorded
    timestamps, those less than 60 seconds old ([now - t < 60]); with ten or
    more of them left it answers 429 and records nothing, otherwise it
    records [now] and lets the request through.  So, of eleven requests of
    one client that starts with an empty record, the first ten being within
    60 seconds of each other: the first ten are admitted; the eleventh is
    answered 429 when it is within 60 seconds of all of them, and is admitted
    when the window has elapsed for all of them. *)
Theorem rate_limiter_sliding_window :
  (forall req call_next w,
     let client_ip := client_host req in
     let now := time_now req in
     let kept := recent_requests now (request_counts w !!! client_ip) in
     (forall t, In t kept <->
                In t (request_counts w !!! client_ip) /\
                (now - t <? RATE_LIMIT_WINDOW)%float = true) /\
     (RATE_LIMIT_REQUESTS <= Z.of_nat (length kept) ->
      add_security_headers req call_next w =
        (Ok rate_limit_response,
         World (<[client_ip := kept]> (request_counts w)) (log w))) /\
     (Z.of_nat (length kept) < RATE_LIMIT_REQUESTS ->
      add_security_headers req call_next w =
        (response ← call_next req; mret (with_security_headers response))
          (World (<[client_ip := (kept ++ [now])%list]> (request_counts w)) (log w))))
  /\
  (forall client_ip reqs req11 w,
     length reqs = 10%nat ->
     Forall (fun req => client_host req = client_ip) (reqs ++ [req11]) ->
     request_counts w !!! client_ip = [] ->
     in_one_window [] (List.map time_now reqs) = true ->
     let '(rs, w10) := serve reqs w in
     let '(r11, w11) := app req11 w10 in
     Forall (fun r => status_code r <> 429) rs /\
     (forallb (fun t => (time_now req11 - t <? RATE_LIMIT_WINDOW)%float)
              (List.map time_now reqs) = true ->
      status_code r11 = 429 /\
      request_counts w11 !!! client_ip = List.map time_now reqs) /\
     (window_elapsed (time_now req11) (List.map time_now reqs) = true ->
      status_code r11 <> 429 /\
      request_counts w11 !!! client_ip = [time_now req11])).
Proof.
  split.
  - intros req call_next w client_ip now kept. split; [|split].
    + intros t. apply recent_requests_In.
    + intros Hfull. now apply add_security_headers_reject.
    + intros Hroom. now apply add_security_headers_admit.
  - intros client_ip reqs req11 w Hlen Hip Hempty Hwin.
    apply Forall_app in Hip as [Hip Hip11].
    inversion Hip11 as [|? ? Hreq11 _]; subst.
    destruct (serve_admits (client_host req11) reqs w Hip) as (rs & w10 & -> & Hlen' & Hall & Hc).
    { rewrite Hempty, Hlen. simpl. lia. }
    { now rewrite Hempty. }
    rewrite Hempty in Hc. simpl in Hc.
    destruct (app req11 w10) as [r11 w11] eqn:Happ.
    split; [|split].
    + eapply Forall_impl; [exact Hall|]. intros r [Hs _] Heq. rewrite Heq in Hs.
      unfold endpoint_status in Hs. simpl in Hs. lia.
    + intros Hin.
      assert (Hkept : recent_requests (time_now req11) (request_counts w10 !!! client_host req11)
                      = List.map time_now reqs).
      { rewrite Hc. apply recent_requests_all. intros t Ht.
        rewrite forallb_forall in Hin. now apply Hin. }
      rewrite app_reject in Happ.
      2:{ rewrite Hkept, length_map, Hlen. unfold RATE_LIMIT_REQUESTS. lia. }
      injection Happ as <- <-. split; [reflexivity|].
      simpl. unfold counts_after. now rewrite lookup_total_insert_eq.
    + intros Hout.
      assert (Hkept : recent_requests (time_now req11) (request_counts w10 !!! client_host req11)
                      = []).
      { rewrite Hc. apply recent_requests_none. intros t Ht.
        unfold window_elapsed in Hout. rewrite forallb_forall in Hout.
        apply Hout in Ht. now apply negb_true_iff in Ht. }
      destruct (app_admit req11 w10) as (r & w' & Happ' & Hs & Hc').
      { rewrite Hkept. unfold RATE_LIMIT_REQUESTS. simpl. lia. }
      rewrite Happ' in Happ. injection Happ as <- <-. split.
      * rewrite with_security_headers_status. intros Heq.
        unfold endpoint_status in Hs. rewrite Heq in Hs. simpl in Hs. lia.
      * rewrite Hc'. unfold counts_after. now rewrite lookup_total_insert_eq, Hkept.
Qed.

(** C3, on the code: a request that the limiter rejects is answered 429 by
    the early [return] of line 68, and this response carries none of the five
    security headers. *)
Theorem rate_limited_response_lacks_security_headers req call_next w
    (Hfull : RATE_LIMIT_REQUESTS <=
       Z.of_nat (length (recent_requests (time_now req)
                           (request_counts w !!! client_host req)))) :
  exists r w',
    add_security_headers req call_next w = (Ok r, w') /\
    status_code r = 429 /\
    Forall (fun kv => headers r !! fst kv = None) security_headers.
Proof.
  rewrite add_security_headers_reject by assumption.
  eexists _, _. split; [reflexivity|]. split; [reflexivity|].
  unfold security_headers. repeat constructor.
Qed.

(** Every response that comes back through [call_next] carries the five
    security headers. *)
Lemma admitted_response_has_security_headers req call_next w r w' :
  Z.of_nat (length (recent_requests (time_now req) (request_counts w !!! client_host req)))
    < RATE_LIMIT_REQUESTS ->
  add_security_headers req call_next w = (Ok r, w') ->
  has_security_headers r.
Proof.
  intros Hroom. rewrite add_security_headers_admit by assumption.
  unfold mbind, M_bind. destruct (call_next req _) as [[r0|e] w0]; [|discriminate].
  intros [= <- _]. apply with_security_headers_has.
Qed.

End MiddlewareClaims.

Section MiddlewareExamples.
#[local] Existing Instance Raster.backend.
#[local] Existing Instance Raster.interpreter.

(** Eleven requests of one client in the same second, on the small backend:
    the eleventh is rejected. *)
Definition burst (n : nat) : list request :=
  repeat {| client_host := "203.0.113.7"; time_now := 1%float; target := GetRoot |} n.

Definition after_burst : world := snd (serve (burst 10) Raster.empty_world).

Definition eleventh : request :=
  {| client_host := "203.0.113.7"; time_now := 1%float; target := GetRoot |}.

Lemma rate_limiter_sliding_window_witness :
  status_code (fst (app eleventh (snd (serve (burst 10) Raster.empty_world)))) = 429.
Proof.
  assert (Hip : Forall (fun req => client_host req = "203.0.113.7") (burst 10 ++ [eleventh])).
  { repeat constructor. }
  pose proof (proj2 rate_limiter_sliding_window "203.0.113.7" (burst 10) eleventh
                Raster.empty_world eq_refl Hip eq_refl eq_refl) as Hc.
  destruct (serve (burst 10) Raster.empty_world) as [rs w10]. simpl.
  destruct (app eleventh w10) as [r11 w11]. simpl.
  now apply Hc.
Defined.

Lemma rate_limited_response_lacks_security_headers_witness :
  exists r w',
    add_security_headers eleventh
      (fun r => call_endpoint (target r)) after_burst = (Ok r, w') /\
    status_code r = 429 /\
    Forall (fun kv => headers r !! fst kv = None) security_headers.
Proof.
  apply rate_limited_response_lacks_security_headers.
  vm_compute. discriminate.
Defined.

End MiddlewareExamples.

(** ** Claims on the validator *)

Section ValidatorClaims.
Context `{PIL} `{Interpreter}.

(** The extension check of lines 120-123. *)
Definition extension_allowed (file : UploadFile) : bool :=
  match filename file with
  | Some name =>
      String.eqb name "" ||
      bool_decide (splitext_ext (lower name) ∈ ALLOWED_EXTENSIONS)
  | None => true
  end.

(** The MIME check of lines 126-127. *)
Definition mime_allowed (file : UploadFile) : bool :=
  bool_decide (content_type file ∈ List.map Some ALLOWED_MIME_TYPES).

(** The outcome of the extension and MIME checks, in this order. *)
Definition extension_then_mime (file : UploadFile) : bool * string :=
  if negb (extension_allowed file) then
    (false, unsupported_format_message)
  else if negb (mime_allowed file) then
    (false, "Invalid content type. Expected image file.")
  else (true, "").

Lemma validate_checks_order file :
  validate_checks file =
    match file_size file with
    | None => Ok (extension_then_mime file)
    | Some None =>
        Raise (TypeError "'>' not supported between instances of 'NoneType' and 'int'")
    | Some (Some n) =>
        if n >? MAX_FILE_SIZE then Ok (false, "File size exceeds maximum limit of 10MB")
        else Ok (extension_then_mime file)
    end.
Proof.
  unfold validate_checks, extension_then_mime, extension_allowed, mime_allowed.
  destruct (file_size file) as [[n|]|]; simpl; try reflexivity;
    try (destruct (n >? MAX_FILE_SIZE); [reflexivity|]);
    destruct (filename file) as [name|]; simpl;
    repeat match goal with
           | |- context [String.eqb ?a ?b] => destruct (String.eqb a b); simpl
           | |- context [bool_decide ?P] => destruct (bool_decide P); simpl
           end;
    reflexivity.
Qed.

(** The three checks run in the order size, extension, MIME type and stop at
    the first failure; a file without the attribute [size] goes on to the
    extension and MIME checks. *)
Lemma validate_image_file_order file w :
  (forall n, file_size file = Some (Some n) -> n > MAX_FILE_SIZE ->
     validate_image_file file w
       = (Ok (false, "File size exceeds maximum limit of 10MB"), w)) /\
  ((file_size file = None \/
    exists n, file_size file = Some (Some n) /\ n <= MAX_FILE_SIZE) ->
   validate_image_file file w = (Ok (extension_then_mime file), w)).
Proof.
  unfold validate_image_file, try_except, lift. rewrite validate_checks_order. split.
  - intros n -> Hn. destruct (Z.gtb_spec n MAX_FILE_SIZE); [reflexivity|lia].
  - intros [-> | (n & -> & Hn)]; [reflexivity|].
    destruct (Z.gtb_spec n MAX_FILE_SIZE); [lia|reflexivity].
Qed.

(** C4.  [validate_image_file] makes its three checks in the order size,
    extension, MIME type, and stops at the first that fails: a declared size
    above the limit is refused whatever the extension and the MIME type are;
    otherwise an extension that is not allowed is refused whatever the MIME
    type is; otherwise a MIME type that is not allowed is refused; otherwise
    the file is valid.  A file that declares no size (it has no attribute
    [size]) is not refused by the size check: it goes on to the two other
    checks and is valid when they pass.  In each case nothing is raised and
    nothing is logged. *)
Theorem validate_image_file_checks_in_order file w :
  (forall n, file_size file = Some (Some n) -> MAX_FILE_SIZE < n ->
     validate_image_file file w
       = (Ok (false, "File size exceeds maximum limit of 10MB"), w)) /\
  ((file_size file = None \/
    exists n, file_size file = Some (Some n) /\ n <= MAX_FILE_SIZE) ->
   (extension_allowed file = false ->
    validate_image_file file w = (Ok (false, unsupported_format_message), w)) /\
   (extension_allowed file = true -> mime_allowed file = false ->
    validate_image_file file w
      = (Ok (false, "Invalid content type. Expected image file."), w)) /\
   (extension_allowed file = true -> mime_allowed file = true ->
    validate_image_file file w = (Ok (true, ""), w))).
Proof.
  destruct (validate_image_file_order file w) as [Hlarge Hgo]. split.
  - intros n Hn Hgt. apply (Hlarge n Hn). lia.
  - intros Hsize. rewrite (Hgo Hsize). unfold extension_then_mime.
    repeat split.
    + now intros ->.
    + now intros -> ->.
    + now intros -> ->.
Qed.

(** A direct call with an object whose [size] is [None]:
    [file.size > MAX_FILE_SIZE] raises a [TypeError] and the [except] turns
    it into a rejection, whatever the extension and the MIME type are.  The
    files that the endpoint passes have an integer size or none. *)
Lemma validate_image_file_size_None file w
    (Hsize : file_size file = Some None) :
  fst (validate_image_file file w) = Ok (false, "File validation failed").
Proof.
  unfold validate_image_file, try_except, lift. rewrite validate_checks_order, Hsize.
  reflexivity.
Qed.

End ValidatorClaims.

Section ValidatorExamples.
#[local] Existing Instance Raster.backend.
#[local] Existing Instance Raster.interpreter.

(** [UploadFile(file, size=None, filename="photo.png")] with the MIME type
    [image/png]. *)
Definition png_of_unknown_size : UploadFile :=
  {| filename := Some "photo.png";
     file_size := Some None;
     content_type := Some "image/png";
     read := ReadBytes (Raster.file_bytes Byte.x01 100 100) |}.

Lemma png_of_unknown_size_refused :
  extension_then_mime png_of_unknown_size = (true, "") /\
  fst (validate_image_file png_of_unknown_size Raster.empty_world)
    = Ok (false, "File validation failed").
Proof.
  split; [reflexivity|].
  apply validate_image_file_size_None. reflexivity.
Defined.

(** An upload named [photo.png], of type [image/png], that declares no
    size. *)
Definition png_without_size : UploadFile :=
  {| filename := Some "photo.png";
     file_size := None;
     content_type := Some "image/png";
     read := ReadBytes (Raster.file_bytes Byte.x01 100 100) |}.

Lemma validate_image_file_checks_in_order_witness :
  validate_image_file png_without_size Raster.empty_world
  = (Ok (true, ""), Raster.empty_world).
Proof.
  apply (proj2 (validate_image_file_checks_in_order png_without_size Raster.empty_world)
           (or_introl eq_refl)); reflexivity.
Defined.

End ValidatorExamples.

(** ** Claims on the transform *)

Section TransformClaims.
Context `{PIL} `{Interpreter}.

Lemma process_image_of_transform data s w :
  process_image data s w =
    match transform data s w with
    | (Ok a, w') => (Ok a, w')
    | (Raise cause, w') =>
        (Raise (HTTPException 422 ("Image processing failed: " ++ str cause)),
         World (request_counts w') (log w' ++ [LogError ("Image processing error: " ++ str cause)]))
    end.
Proof.
  unfold process_image, try_except. now destruct (transform data s w) as [[a|cause] w'].
Qed.

(** A failure of each step of the transform is a failure of the transform. *)
Lemma transform_step_failures data s w e :
  (Image_open data = Raise e -> fst (transform data s w) = Raise e) /\
  (forall img, Image_open data = Ok img -> normalize_mode img = Raise e ->
     fst (transform data s w) = Raise e) /\
  (forall img rgb s' new_width new_height,
     Image_open data = Ok img -> normalize_mode img = Ok rgb ->
     target_dimensions (Uint63.to_Z (fst (size rgb))) (Uint63.to_Z (snd (size rgb))) s
       = Ok (s', new_width, new_height) ->
     (resize rgb (new_width, new_height) = Raise e ->
      fst (transform data s w) = Raise e) /\
     (forall resized, resize rgb (new_width, new_height) = Ok resized ->
        (unsharp_mask resized 1 150 3 = Raise e -> fst (transform data s w) = Raise e) /\
        (forall sharp, unsharp_mask resized 1 150 3 = Ok sharp ->
           save_jpeg sharp (Some 95) true = Raise e ->
           fst (transform data s w) = Raise e))).
Proof.
  unfold transform, mbind, M_bind, lift, logger_info. split; [|split].
  - now intros ->.
  - now intros img -> ->.
  - intros img rgb s' new_width new_height -> -> Ht. cbv zeta. rewrite Ht. split.
    + now intros ->.
    + intros resized ->. split.
      * now intros ->.
      * now intros sharp -> ->.
Qed.

(** What becomes of a failure of the transform in [process_image], in
    [upscale_image] and in the response. *)
Lemma failed_transform_response file s w data msg cause
    (Hscale : scale_factor_rejected s = false)
    (Hvalid : fst (validate_image_file file w) = Ok (true, msg))
    (Hread : read file = ReadBytes data)
    (Hsize : Z.of_nat (length data) <= MAX_FILE_SIZE)
    (Hfail : fst (transform data s w) = Raise cause) :
  (forall w0, fst (process_image data s w0)
              = Raise (HTTPException 422 ("Image processing failed: " ++ str cause))) /\
  fst (upscale_image file s w)
    = Raise (HTTPException 422 ("Image processing failed: " ++ str cause)) /\
  exists r, fst (call_endpoint (PostUpscale file s) w) = Ok r /\
            status_code r = 422 /\
            content r = JSONBody [("detail", "Validation error occurred");
                                  ("error_code", "VALIDATION_ERROR")].
Proof.
  assert (Hp : forall w0, fst (process_image data s w0)
                 = Raise (HTTPException 422 ("Image processing failed: " ++ str cause))).
  { intros w0. rewrite process_image_of_transform.
    pose proof (logs_only_result (transform data s) w0 w (logs_only_transform data s)) as He.
    rewrite Hfail in He. destruct (transform data s w0) as [[a|e] w']; simpl in He.
    - discriminate.
    - now injection He as ->. }
  assert (Hu : fst (upscale_image file s w)
               = Raise (HTTPException 422 ("Image processing failed: " ++ str cause))).
  { unfold upscale_image. rewrite Hscale.
    unfold mbind at 1, M_bind at 1.
    destruct (validate_image_file file w) as [[[is_valid msg']|e] w1]; simpl in Hvalid;
      [|discriminate].
    injection Hvalid as -> ->. simpl.
    unfold try_except, mbind at 1, M_bind at 1, lift at 1. rewrite Hread. simpl.
    destruct (Z.gtb_spec (Z.of_nat (length data)) MAX_FILE_SIZE) as [Hgt|_]; [lia|].
    unfold mbind at 1, M_bind at 1, logger_info at 1.
    unfold mbind at 1, M_bind at 1.
    specialize (Hp (World (request_counts w1)
                      (log w1 ++ [LogInfo ("Processing image: " ++ format_filename file ++ " ("
                         ++ pretty (Z.of_nat (length data)) ++ " bytes)")]))).
    destruct (process_image data s _) as [[a|e] w2]; simpl in Hp; [discriminate|].
    injection Hp as ->. reflexivity. }
  split; [exact Hp|]. split; [exact Hu|].
  unfold call_endpoint, try_except.
  destruct (upscale_image file s w) as [[r|e] w1]; simpl in Hu; [discriminate|].
  injection Hu as ->. simpl. eexists. split; [reflexivity|]. split; reflexivity.
Qed.

(** C6.  A request whose scale factor and file pass the checks of the
    endpoint, whose body is read and is not too large, and whose transform
    fails, at any step and with any exception: [process_image] raises the
    "processing failed" [HTTPException] with status 422 and the cause,
    [upscale_image] lets it through unchanged, and the response has status
    422 and a JSON body: it is not a 500 and carries no image. *)
Theorem transform_failure_is_422 file s w data msg cause
    (Hscale : scale_factor_rejected s = false)
    (Hvalid : fst (validate_image_file file w) = Ok (true, msg))
    (Hread : read file = ReadBytes data)
    (Hsize : Z.of_nat (length data) <= MAX_FILE_SIZE)
    (Hfail : fst (transform data s w) = Raise cause) :
  (forall w0, fst (process_image data s w0)
              = Raise (HTTPException 422 ("Image processing failed: " ++ str cause))) /\
  fst (upscale_image file s w)
    = Raise (HTTPException 422 ("Image processing failed: " ++ str cause)) /\
  exists r, fst (call_endpoint (PostUpscale file s) w) = Ok r /\
            status_code r = 422 /\
            content r = JSONBody [("detail", "Validation error occurred");
                                  ("error_code", "VALIDATION_ERROR")].
Proof.
  exact (failed_transform_response file s w data msg cause Hscale Hvalid Hread Hsize Hfail).
Qed.

(** C10.  The result of [process_image], bytes and metadata or exception,
    is a function of the payload and the scale factor: it is the same in
    any two states of the module (rate-limiter table and log), in particular
    in the state that a first invocation leaves.  The call reads no clock and
    draws no random number; it only appends to the log. *)
Theorem process_image_deterministic data s w1 w2 :
  fst (process_image data s w1) = fst (process_image data s w2) /\
  fst (process_image data s (snd (process_image data s w1)))
    = fst (process_image data s w1) /\
  request_counts (snd (process_image data s w1)) = request_counts w1.
Proof.
  pose proof (logs_only_process_image data s) as Hl. repeat split.
  - now apply logs_only_result.
  - now apply logs_only_result.
  - now apply logs_only_counts.
Qed.

End TransformClaims.

(** ** Colour normalization *)

Section ColourNormalization.
Context `{PIL} `{Interpreter}.

(** The part of Pillow's contract that the property relies on: [Image.new]
    gives an image of the mode and size asked for, [paste] changes the
    pixels of the background and neither its mode nor its size, and
    [convert] gives an image of the mode asked for, of the same size. *)
Hypothesis Image_new_spec : forall m sz c img,
  Image_new m sz c = Ok img -> mode img = m /\ size img = sz.
Hypothesis paste_spec : forall background img mask out,
  paste background img mask = Ok out ->
  mode out = mode background /\ size out = size background.
Hypothesis convert_spec : forall img m out,
  convert img m = Ok out -> mode out = m /\ size out = size img.

(** C7.  An image in mode RGBA or LA is pasted, with its last band (the
    alpha channel) as the mask, onto a new white RGB image of its size, and
    the result, an RGB image of this size, replaces it; an image in mode RGB
    or L is left as it is; an image in any other mode is converted to RGB. *)
Theorem normalize_mode_cases (img : image) :
  (mode img = "RGBA" \/ mode img = "LA" ->
   normalize_mode img
     = (background ← Image_new "RGB" (size img) white;
        mask ← last_band img;
        paste background img mask) /\
   forall out, normalize_mode img = Ok out ->
     (exists background bands alpha,
        Image_new "RGB" (size img) white = Ok background /\
        split img = Ok bands /\ last bands = Some alpha /\
        paste background img alpha = Ok out) /\
     mode out = "RGB" /\ size out = size img) /\
  (mode img = "RGB" \/ mode img = "L" -> normalize_mode img = Ok img) /\
  (~ In (mode img) ["RGBA"; "LA"; "RGB"; "L"] ->
   normalize_mode img = convert img "RGB" /\
   forall out, normalize_mode img = Ok out ->
     mode out = "RGB" /\ size out = size img).
Proof.
  unfold normalize_mode. split; [|split].
  - intros Hmode.
    assert (Ha : bool_decide (mode img ∈ ["RGBA"; "LA"]) = true).
    { apply bool_decide_eq_true. apply list_elem_of_In. simpl. destruct Hmode as [-> | ->]; tauto. }
    rewrite Ha. split; [reflexivity|].
    intros out. unfold mbind, result_bind, last_band.
    destruct (Image_new "RGB" (size img) white) as [background|] eqn:Hnew; [|discriminate].
    destruct (split img) as [bands|] eqn:Hsplit; [|discriminate].
    unfold mbind, result_bind.
    destruct (last bands) as [alpha|] eqn:Hlast; [|discriminate].
    intros Hpaste. split.
    + now exists background, bands, alpha.
    + apply paste_spec in Hpaste as [-> ->]. now apply Image_new_spec in Hnew.
  - intros Hmode.
    assert (Ha : bool_decide (mode img ∈ ["RGBA"; "LA"]) = false).
    { apply bool_decide_eq_false. rewrite list_elem_of_In. simpl.
      destruct Hmode as [-> | ->]; intros [?|[?|[]]]; discriminate. }
    assert (Hb : bool_decide (mode img ∈ ["RGB"; "L"]) = true).
    { apply bool_decide_eq_true. apply list_elem_of_In. simpl. destruct Hmode as [-> | ->]; tauto. }
    now rewrite Ha, Hb.
  - intros Hmode.
    assert (Ha : bool_decide (mode img ∈ ["RGBA"; "LA"]) = false).
    { apply bool_decide_eq_false. intros Hin. apply Hmode.
      apply list_elem_of_In in Hin. simpl in *. tauto. }
    assert (Hb : bool_decide (mode img ∈ ["RGB"; "L"]) = false).
    { apply bool_decide_eq_false. intros Hin. apply Hmode.
      apply list_elem_of_In in Hin. simpl in *. tauto. }
    rewrite Ha, Hb. split; [reflexivity|]. intros out. apply convert_spec.
Qed.

End ColourNormalization.

(** ** The check of the scale factor *)

Section ScaleFactorClaims.
Context `{PIL} `{Interpreter}.

Lemma to_int_mul_nan n :
  PyFloat.to_int (PyFloat.int_mul n nan)
    = Raise (ValueError "cannot convert float NaN to integer").
Proof.
  unfold PyFloat.to_int, PyFloat.int_mul. rewrite FloatAxioms.mul_spec.
  replace (Prim2SF nan) with S754_nan by reflexivity.
  unfold SF64mul, SFmul. now destruct (Prim2SF (PyFloat.of_int n)).
Qed.

Lemma transform_nan_fails data w :
  exists cause, fst (transform data nan w) = Raise cause.
Proof.
  unfold transform, mbind, M_bind, lift.
  destruct (Image_open data) as [img|e]; [|now exists e].
  destruct (normalize_mode img) as [rgb|e]; [|now exists e].
  cbv zeta. unfold target_dimensions. rewrite !to_int_mul_nan.
  unfold mbind, result_bind. simpl. eauto.
Qed.

(** A scale factor that the check of line 247 rejects is answered 400
    before the file is validated or read: nothing is logged. *)
Lemma rejected_scale_factor_is_400 file s w :
  scale_factor_rejected s = true ->
  upscale_image file s w
    = (Raise (HTTPException 400 "Scale factor must be between 0.1 and 4.0"), w).
Proof. unfold upscale_image. now intros ->. Qed.

(** C2, on the code: NaN is not rejected by [scale_factor <= 0 or
    scale_factor > 4.0], both comparisons being false.  The request goes on
    to the validation of the file and to the transform, where
    [int(original_width * scale_factor)] raises; the answer is 422, not
    400. *)
Theorem nan_scale_factor_is_not_rejected file w msg data
    (Hvalid : fst (validate_image_file file w) = Ok (true, msg))
    (Hread : read file = ReadBytes data)
    (Hsize : Z.of_nat (length data) <= MAX_FILE_SIZE) :
  scale_factor_rejected nan = false /\
  exists r, fst (call_endpoint (PostUpscale file nan) w) = Ok r /\
            status_code r = 422.
Proof.
  split; [reflexivity|].
  destruct (transform_nan_fails data w) as [cause Hfail].
  destruct (failed_transform_response file nan w data msg cause eq_refl
              Hvalid Hread Hsize Hfail) as (_ & _ & r & Hr & Hs & _).
  now exists r.
Qed.

End ScaleFactorClaims.

(** ** Runs on the small backend *)

Section Examples.
#[local] Existing Instance Raster.backend.
#[local] Existing Instance Raster.interpreter.

Lemma Raster_Image_new_spec m sz c (img : image) :
  Image_new m sz c = Ok img -> mode img = m /\ size img = sz.
Proof. now intros [= <-]. Qed.

Lemma Raster_paste_spec (background img mask out : image) :
  paste background img mask = Ok out ->
  mode out = mode background /\ size out = size background.
Proof. now intros [= <-]. Qed.

Lemma Raster_convert_spec (img : image) m (out : image) :
  convert img m = Ok out -> mode out = m /\ size out = size img.
Proof. now intros [= <-]. Qed.

Lemma normalize_mode_cases_witness :
  (exists out, normalize_mode (Raster.Raster "RGBA" (100%uint63, 100%uint63)) = Ok out /\
               mode out = "RGB" /\ size out = (100%uint63, 100%uint63)) /\
  normalize_mode (Raster.Raster "L" (100%uint63, 100%uint63))
    = Ok (Raster.Raster "L" (100%uint63, 100%uint63)) /\
  normalize_mode (Raster.Raster "P" (100%uint63, 100%uint63))
    = convert (Raster.Raster "P" (100%uint63, 100%uint63)) "RGB".
Proof.
  pose proof (normalize_mode_cases Raster_Image_new_spec Raster_paste_spec
                Raster_convert_spec) as Hc.
  split; [|split].
  - eexists. split; [reflexivity|].
    destruct (Hc (Raster.Raster "RGBA" (100%uint63, 100%uint63))) as [Hrgba _].
    destruct (Hrgba (or_introl eq_refl)) as [_ Hout].
    apply (Hout _ eq_refl).
  - apply (Hc (Raster.Raster "L" (100%uint63, 100%uint63))). now right.
  - apply (Hc (Raster.Raster "P" (100%uint63, 100%uint63))).
    simpl. intros [?|[?|[?|[?|[]]]]]; discriminate.
Defined.

(** A file with the name and MIME type of a PNG and bytes that are not an
    image. *)
Definition corrupt_png : UploadFile :=
  {| filename := Some "photo.png";
     file_size := Some (Some 3);
     content_type := Some "image/png";
     read := ReadBytes [Byte.xff; Byte.xd8; Byte.xff] |}.

Lemma transform_failure_is_422_witness :
  exists r,
    fst (call_endpoint (PostUpscale corrupt_png 2%float) Raster.empty_world) = Ok r /\
    status_code r = 422.
Proof.
  destruct (transform_failure_is_422 corrupt_png 2%float Raster.empty_world
              [Byte.xff; Byte.xd8; Byte.xff] ""
              (LibraryError "cannot identify image file")
              eq_refl eq_refl eq_refl) as (_ & _ & r & Hr & Hs & _).
  - vm_compute. discriminate.
  - reflexivity.
  - now exists r.
Defined.

Lemma nan_scale_factor_is_not_rejected_witness :
  scale_factor_rejected nan = false /\
  exists r,
    fst (call_endpoint (PostUpscale (Raster.png 100 100) nan) Raster.empty_world) = Ok r /\
    status_code r = 422.
Proof.
  apply (nan_scale_factor_is_not_rejected (Raster.png 100 100) Raster.empty_world ""
           (Raster.file_bytes Byte.x01 100 100)).
  - reflexivity.
  - reflexivity.
  - vm_compute. discriminate.
Defined.

End Examples.

(** * Binary64 arithmetic

    What the specification of the primitive floats ([SpecFloat]) gives for
    the operations of the transform: the value of a rounded product and
    quotient, and the order of floats. *)

(** ** Powers of two *)

Definition bpow (e : Z) : R := powerRZ 2 e.

Lemma bpow_gt_0 e : (0 < bpow e)%R.
Proof. apply powerRZ_lt. lra. Qed.

Lemma bpow_add a b : bpow (a + b) = (bpow a * bpow b)%R.
Proof. apply powerRZ_add. lra. Qed.

Lemma bpow_IZR k : 0 <= k -> bpow k = IZR (2 ^ k).
Proof.
  intros Hk. unfold bpow. rewrite <- (Z2Nat.id k) at 1 by assumption.
  rewrite <- pow_powerRZ, pow_IZR. now rewrite Z2Nat.id.
Qed.

Lemma bpow_ge_1 k : 0 <= k -> (1 <= bpow k)%R.
Proof.
  intros Hk. rewrite bpow_IZR by assumption. apply IZR_le.
  pose proof (Z.pow_pos_nonneg 2 k). lia.
Qed.

Lemma bpow_le a b : a <= b -> (bpow a <= bpow b)%R.
Proof.
  intros Hab. replace b with (a + (b - a)) by ring. rewrite bpow_add.
  pose proof (bpow_ge_1 (b - a) ltac:(lia)). pose proof (bpow_gt_0 a). nra.
Qed.

Lemma bpow_lt a b : a < b -> (bpow a < bpow b)%R.
Proof.
  intros Hab. replace b with (a + 1 + (b - a - 1)) by ring. rewrite !bpow_add.
  pose proof (bpow_ge_1 (b - a - 1) ltac:(lia)). pose proof (bpow_gt_0 a).
  replace (bpow 1) with 2%R by (unfold bpow; simpl; lra). nra.
Qed.

Lemma bpow_0 : bpow 0 = 1%R.
Proof. reflexivity. Qed.

Lemma bpow_opp e : bpow (- e) = (/ bpow e)%R.
Proof.
  pose proof (bpow_gt_0 e). apply Rmult_eq_reg_l with (bpow e); [|lra].
  rewrite <- bpow_add, Z.add_opp_diag_r, bpow_0. field. lra.
Qed.

(** ** Digits *)
Lemma digits2_pos_size m : digits2_pos m = Pos.size m.
Proof. induction m; simpl; congruence. Qed.

Lemma digits2_bounds m :
  2 ^ (Zpos (digits2_pos m) - 1) <= Zpos m < 2 ^ Zpos (digits2_pos m).
Proof.
  rewrite digits2_pos_size. split.
  - pose proof (Pos.size_le m) as Hle.
    assert (Hs : Zpos (2 ^ Pos.size m) <= Zpos m~0) by exact Hle.
    rewrite Pos2Z.inj_pow in Hs.
    replace (Zpos (Pos.size m)) with (Z.succ (Zpos (Pos.size m) - 1)) in Hs by lia.
    rewrite Z.pow_succ_r in Hs by lia. lia.
  - pose proof (Pos.size_gt m) as Hgt.
    assert (Hs : Zpos m < Zpos (2 ^ Pos.size m)) by exact Hgt.
    now rewrite Pos2Z.inj_pow in Hs.
Qed.

(** ** Shifting and rounding mantissas *)

(** [m / 2^k] rounded to nearest, ties to even. *)
Definition rne (m k : Z) : Z :=
  let q := m / 2 ^ k in
  match 2 * (m mod 2 ^ k) ?= 2 ^ k with
  | Lt => q
  | Gt => q + 1
  | Eq => if Z.even q then q else q + 1
  end.

Lemma iter_pos_nat {A} (f : A -> A) p x :
  SpecFloat.iter_pos f p x = Nat.iter (Pos.to_nat p) f x.
Proof.
  revert x. induction p as [p IH|p IH|]; intros x.
  - change (SpecFloat.iter_pos f p~1 x)
      with (SpecFloat.iter_pos f p (SpecFloat.iter_pos f p (f x))).
    rewrite !IH, Pos2Nat.inj_xI.
    replace (S (2 * Pos.to_nat p)) with (Pos.to_nat p + (Pos.to_nat p + 1))%nat by lia.
    now rewrite !Nat.iter_add.
  - change (SpecFloat.iter_pos f p~0 x)
      with (SpecFloat.iter_pos f p (SpecFloat.iter_pos f p x)).
    rewrite !IH, Pos2Nat.inj_xO.
    replace (2 * Pos.to_nat p)%nat with (Pos.to_nat p + Pos.to_nat p)%nat by lia.
    now rewrite Nat.iter_add.
  - reflexivity.
Qed.

Lemma shr_1_nonneg m r s :
  0 <= m -> shr_1 (Build_shr_record m r s) = Build_shr_record (Z.div2 m) (Z.odd m) (r || s).
Proof. intros Hm. destruct m as [|[p|p|]|p]; try reflexivity; lia. Qed.

(** The state after [k] shifts of an exact mantissa [m]. *)
Definition shifted (m : Z) (k : nat) (st : shr_record) : Prop :=
  0 <= shr_m st /\
  exists rem,
    m = shr_m st * 2 ^ Z.of_nat k + rem /\
    0 <= rem < 2 ^ Z.of_nat k /\
    loc_of_shr_record st
      = if rem =? 0 then loc_Exact else loc_Inexact (2 * rem ?= 2 ^ Z.of_nat k).

Lemma shifted_iter m k :
  0 <= m -> shifted m k (Nat.iter k shr_1 (Build_shr_record m false false)).
Proof.
  intros Hm. induction k as [|k IH].
  - split; [assumption|]. exists 0. simpl. repeat split; lia.
  - rewrite Nat.iter_succ. destruct (Nat.iter k shr_1 _) as [q r s].
    destruct IH as (Hq & rem & Hrem & Hlt & Hloc). simpl in Hq, Hrem, Hloc.
    rewrite shr_1_nonneg by assumption. rewrite Z.div2_div. unfold shifted. simpl.
    assert (Hpow : 2 ^ Z.of_nat (S k) = 2 * 2 ^ Z.of_nat k).
    { rewrite Nat2Z.inj_succ, Z.pow_succ_r by lia. reflexivity. }
    pose proof (Z.pow_pos_nonneg 2 (Z.of_nat k) ltac:(lia) ltac:(lia)) as Hpos.
    pose proof (Z.div_mod q 2 ltac:(lia)) as Hdm.
    pose proof (Z.mod_pos_bound q 2 ltac:(lia)) as Hmb.
    split; [apply Z.div_pos; lia|].
    exists ((q mod 2) * 2 ^ Z.of_nat k + rem). simpl. rewrite Hpow.
    assert (Hrs : (r || s = false <-> rem = 0)).
    { destruct (Z.eqb_spec rem 0) as [->|Hne]; destruct r, s; simpl in *;
        try discriminate; split; intros; try reflexivity; try discriminate; lia. }
    rewrite (Zmod_odd q) in *.
    destruct (Z.odd q); simpl.
    + repeat split; try nia.
      destruct (Z.eqb_spec rem 0) as [->|Hne].
      * assert (Hf : r || s = false) by now apply Hrs. rewrite Hf.
        destruct (Z.eqb_spec (1 * 2 ^ Z.of_nat k + 0) 0); [lia|].
        f_equal. symmetry. apply Z.compare_eq_iff. lia.
      * assert (Ht : r || s = true).
        { destruct (r || s) eqn:E; [reflexivity|]. exfalso. apply Hne. now apply Hrs. }
        rewrite Ht. destruct (Z.eqb_spec (1 * 2 ^ Z.of_nat k + rem) 0); [lia|].
        f_equal. symmetry. apply Z.compare_gt_iff. lia.
    + repeat split; try nia.
      replace (0 * 2 ^ Z.of_nat k + rem) with rem by ring.
      destruct (Z.eqb_spec rem 0) as [->|Hne].
      * assert (Hf : r || s = false) by now apply Hrs. now rewrite Hf.
      * assert (Ht : r || s = true).
        { destruct (r || s) eqn:E; [reflexivity|]. exfalso. apply Hne. now apply Hrs. }
        rewrite Ht. f_equal. symmetry. apply Z.compare_lt_iff. lia.
Qed.

Lemma shifted_rne m k st :
  shifted m k st ->
  shr_m st = m / 2 ^ Z.of_nat k /\
  round_nearest_even (shr_m st) (loc_of_shr_record st) = rne m (Z.of_nat k).
Proof.
  intros (Hq & rem & Hrem & Hlt & Hloc).
  pose proof (Z.pow_pos_nonneg 2 (Z.of_nat k) ltac:(lia) ltac:(lia)) as Hpos.
  assert (Hdiv : m / 2 ^ Z.of_nat k = shr_m st).
  { symmetry. apply Z.div_unique with rem; [lia|]. lia. }
  assert (Hmod : m mod 2 ^ Z.of_nat k = rem).
  { symmetry. apply Z.mod_unique with (shr_m st); [lia|]. lia. }
  split; [now symmetry|].
  unfold rne. rewrite Hdiv, Hmod, Hloc.
  destruct (Z.eqb_spec rem 0) as [->|Hne]; cbn [round_nearest_even].
  - replace (2 * 0) with 0 by ring.
    destruct (Z.compare_spec 0 (2 ^ Z.of_nat k)); try lia; reflexivity.
  - destruct (2 * rem ?= 2 ^ Z.of_nat k); reflexivity.
Qed.

Lemma rne_cases m k :
  0 <= k ->
  exists q r, m = 2 ^ k * q + r /\ 0 <= r < 2 ^ k /\ q = m / 2 ^ k /\
    ((2 * r < 2 ^ k /\ rne m k = q) \/
     (2 * r > 2 ^ k /\ rne m k = q + 1) \/
     (2 * r = 2 ^ k /\ rne m k = if Z.even q then q else q + 1)).
Proof.
  intros Hk. pose proof (Z.pow_pos_nonneg 2 k ltac:(lia) Hk) as Hpos.
  exists (m / 2 ^ k), (m mod 2 ^ k).
  split; [apply Z.div_mod; lia|]. split; [apply Z.mod_pos_bound; lia|].
  split; [reflexivity|]. unfold rne.
  destruct (Z.compare_spec (2 * (m mod 2 ^ k)) (2 ^ k)); [right; right|left|right; left];
    (split; [lia|reflexivity]).
Qed.

Lemma rne_bounds m k : 0 <= k -> m / 2 ^ k <= rne m k <= m / 2 ^ k + 1.
Proof.
  intros Hk. destruct (rne_cases m k Hk) as (q & r & _ & _ & <- & Hc).
  destruct Hc as [[_ ->]|[[_ ->]|[_ ->]]]; try lia. destruct (Z.even q); lia.
Qed.

Lemma rne_exact n k : 0 <= k -> rne (n * 2 ^ k) k = n.
Proof.
  intros Hk. pose proof (Z.pow_pos_nonneg 2 k ltac:(lia) Hk) as Hpos.
  unfold rne. rewrite Z.div_mul, Z.mod_mul by lia.
  replace (2 * 0) with 0 by ring.
  destruct (Z.compare_spec 0 (2 ^ k)); try lia; reflexivity.
Qed.

Lemma rne_mono m1 m2 k : 0 <= k -> m1 <= m2 -> rne m1 k <= rne m2 k.
Proof.
  intros Hk Hle. pose proof (Z.pow_pos_nonneg 2 k ltac:(lia) Hk) as Hpos.
  destruct (rne_cases m1 k Hk) as (q1 & r1 & H1 & Hr1 & Hq1 & Hc1).
  destruct (rne_cases m2 k Hk) as (q2 & r2 & H2 & Hr2 & Hq2 & Hc2).
  assert (Hq : q1 <= q2) by (subst q1 q2; apply Z.div_le_mono; lia).
  destruct (Z.eq_dec q1 q2) as [->|Hne].
  - assert (r1 <= r2) by lia.
    destruct Hc1 as [[? ->]|[[? ->]|[? ->]]], Hc2 as [[? ->]|[[? ->]|[? ->]]];
      try lia; destruct (Z.even q2); lia.
  - assert (q1 + 1 <= q2) by lia.
    pose proof (rne_bounds m1 k Hk). pose proof (rne_bounds m2 k Hk). lia.
Qed.

Lemma rne_scale m k j : 0 <= k -> 0 <= j -> rne (m * 2 ^ j) (k + j) = rne m k.
Proof.
  intros Hk Hj.
  pose proof (Z.pow_pos_nonneg 2 k ltac:(lia) Hk) as Hpk.
  pose proof (Z.pow_pos_nonneg 2 j ltac:(lia) Hj) as Hpj.
  unfold rne. rewrite Z.pow_add_r by assumption.
  rewrite Z.div_mul_cancel_r by lia. rewrite Z.mul_mod_distr_r by lia.
  replace (2 * (m mod 2 ^ k * 2 ^ j)) with (2 * (m mod 2 ^ k) * 2 ^ j) by ring.
  assert (Hc : (2 * (m mod 2 ^ k) * 2 ^ j ?= 2 ^ k * 2 ^ j) = (2 * (m mod 2 ^ k) ?= 2 ^ k)).
  { destruct (Z.compare_spec (2 * (m mod 2 ^ k)) (2 ^ k)) as [He|Hl|Hg].
    - rewrite He. apply Z.compare_refl.
    - apply Z.compare_lt_iff. nia.
    - apply Z.compare_gt_iff. nia. }
  now rewrite Hc.
Qed.

Lemma rne_small m k : 0 <= k -> 0 <= m -> 2 * m < 2 ^ k -> rne m k = 0.
Proof.
  intros Hk Hm Hlt. unfold rne.
  rewrite Z.div_small, Z.mod_small by lia.
  destruct (Z.compare_spec (2 * m) (2 ^ k)); try lia; reflexivity.
Qed.

Lemma rne_nonneg m k : 0 <= k -> 0 <= m -> 0 <= rne m k.
Proof.
  intros Hk Hm. pose proof (rne_bounds m k Hk).
  pose proof (Z.pow_pos_nonneg 2 k ltac:(lia) Hk).
  assert (0 <= m / 2 ^ k) by (apply Z.div_pos; lia). lia.
Qed.

(** The rounded mantissa is at most half a unit away. *)
Lemma rne_close m k :
  0 <= k -> 2 * m - 2 ^ k <= 2 * (rne m k * 2 ^ k) <= 2 * m + 2 ^ k.
Proof.
  intros Hk. destruct (rne_cases m k Hk) as (q & r & H1 & Hr & Hq & Hc).
  destruct Hc as [[? ->]|[[? ->]|[? ->]]]; try nia. destruct (Z.even q); nia.
Qed.

(** ** The rounding of binary64 *)

Lemma fexp_eq x : fexp prec emax x = Z.max (x - 53) (-1074).
Proof. reflexivity. Qed.

Lemma Zdigits2_small m n : 0 <= n -> 0 < m < 2 ^ n -> Zdigits2 m <= n.
Proof.
  intros Hn [Hm Hlt]. destruct m as [|p|p]; try lia. simpl.
  pose proof (digits2_bounds p) as [Hlo _].
  destruct (Z_le_gt_dec (Zpos (digits2_pos p)) n) as [|Hgt]; [assumption|].
  assert (2 ^ n <= 2 ^ (Zpos (digits2_pos p) - 1)) by (apply Z.pow_le_mono_r; lia).
  lia.
Qed.

Lemma iter_shr_m k : forall st,
  0 <= shr_m st -> shr_m (Nat.iter k shr_1 st) = shr_m st / 2 ^ Z.of_nat k.
Proof.
  induction k as [|k IH]; intros st Hst.
  - simpl. now rewrite Z.div_1_r.
  - rewrite Nat.iter_succ_r, IH.
    + destruct st as [m r s]. simpl in Hst. rewrite shr_1_nonneg by assumption.
      simpl shr_m. rewrite Z.div2_div, Z.div_div by lia.
      rewrite Nat2Z.inj_succ, Z.pow_succ_r by lia. reflexivity.
    + destruct st as [m r s]. simpl in Hst. rewrite shr_1_nonneg by assumption.
      simpl. rewrite Z.div2_div. apply Z.div_pos; lia.
Qed.

Lemma shr_m_record_of_loc m l : shr_m (shr_record_of_loc m l) = m.
Proof. destruct l as [|[]]; reflexivity. Qed.

Lemma round_nearest_even_bounds m l : m <= round_nearest_even m l <= m + 1.
Proof. destruct l as [|[]]; simpl; try lia. destruct (Z.even m); lia. Qed.

(** The first shift and the rounding: the mantissa [m / 2^p], or the next
    one; for an exact input, the nearest, ties to even. *)
Lemma shr_fexp_round (m : positive) e l :
  let p := Z.max 0 (fexp prec emax (Zpos (digits2_pos m) + e) - e) in
  let '(mrs, e') := shr_fexp prec emax (Zpos m) e l in
  let m1 := round_nearest_even (shr_m mrs) (loc_of_shr_record mrs) in
  e' = e + p /\
  Zpos m / 2 ^ p <= m1 <= Zpos m / 2 ^ p + 1 /\
  (l = loc_Exact -> m1 = rne (Zpos m) p).
Proof.
  unfold shr_fexp, shr. simpl Zdigits2.
  destruct (fexp prec emax (Zpos (digits2_pos m) + e) - e) as [|k|k] eqn:Hp.
  - simpl. rewrite shr_m_record_of_loc, Z.div_1_r. split; [lia|].
    split; [apply round_nearest_even_bounds|].
    intros ->. simpl. unfold rne. rewrite Z.div_1_r, Z.mod_1_r. reflexivity.
  - rewrite iter_pos_nat. rewrite Z.max_r by lia.
    split; [reflexivity|].
    pose proof (iter_shr_m (Pos.to_nat k) (shr_record_of_loc (Zpos m) l)) as Hm.
    rewrite shr_m_record_of_loc, positive_nat_Z in Hm. specialize (Hm ltac:(lia)).
    split.
    + rewrite <- Hm. apply round_nearest_even_bounds.
    + intros ->. simpl shr_record_of_loc.
      pose proof (shifted_rne (Zpos m) (Pos.to_nat k) _
                    (shifted_iter (Zpos m) (Pos.to_nat k) ltac:(lia))) as [_ Hr].
      now rewrite positive_nat_Z in Hr.
  - simpl. rewrite shr_m_record_of_loc, Z.div_1_r. split; [lia|].
    split; [apply round_nearest_even_bounds|].
    intros ->. simpl. unfold rne. rewrite Z.div_1_r, Z.mod_1_r. reflexivity.
Qed.

(** The end of [binary_round_aux]: the second shift and the overflow test. *)
Definition round_done (m1 e1 : Z) : spec_float :=
  let '(mrs, e2) := shr_fexp prec emax m1 e1 loc_Exact in
  match shr_m mrs with
  | Z0 => S754_zero false
  | Zpos m => if Z.leb e2 (emax - prec) then S754_finite false m e2 else S754_infinity false
  | Zneg _ => S754_nan
  end.

Lemma binary_round_aux_done m e l :
  binary_round_aux prec emax false m e l =
    let '(mrs, e') := shr_fexp prec emax m e l in
    round_done (round_nearest_even (shr_m mrs) (loc_of_shr_record mrs)) e'.
Proof.
  unfold binary_round_aux, round_done. now destruct (shr_fexp prec emax m e l).
Qed.

Lemma round_done_value m1 e1 :
  0 <= m1 <= 2 ^ 53 -> -1074 <= e1 ->
  match round_done m1 e1 with
  | S754_zero s => s = false /\ m1 = 0
  | S754_infinity s => s = false /\ 0 < m1 /\ 971 <= e1
  | S754_nan => False
  | S754_finite s m' e' =>
      s = false /\ e' <= 971 /\ (IZR (Zpos m') * bpow e' = IZR m1 * bpow e1)%R
  end.
Proof.
  intros [Hm0 Hm] He.
  destruct (Z.eq_dec m1 (2 ^ 53)) as [->|Hne].
  - assert (Hd : round_done (2 ^ 53) e1 =
                 if Z.leb (e1 + 1) 971 then S754_finite false 4503599627370496 (e1 + 1)
                 else S754_infinity false).
    { unfold round_done, shr_fexp, shr.
      replace (fexp prec emax (Zdigits2 (2 ^ 53) + e1) - e1) with 1
        by (rewrite fexp_eq; change (Zdigits2 (2 ^ 53)) with 54; lia).
      reflexivity. }
    rewrite Hd. destruct (Z.leb_spec (e1 + 1) 971); [|repeat split; lia].
    split; [reflexivity|]. split; [assumption|].
    rewrite bpow_add. replace (bpow 1) with 2%R by (unfold bpow; simpl; lra).
    change (IZR (Zpos 4503599627370496)) with (IZR (2 ^ 52)).
    change (IZR (2 ^ 53)) with (IZR (2 * 2 ^ 52)). rewrite mult_IZR. lra.
  - unfold round_done, shr_fexp, shr.
    assert (Hp : fexp prec emax (Zdigits2 m1 + e1) - e1 <= 0).
    { rewrite fexp_eq. destruct (Z.eq_dec m1 0) as [->|Hpos]; [simpl; lia|].
      pose proof (Zdigits2_small m1 53 ltac:(lia) ltac:(lia)). lia. }
    destruct (fexp prec emax (Zdigits2 m1 + e1) - e1) as [|k|k]; try lia;
      simpl; destruct m1 as [|m'|m']; try lia; try (split; [reflexivity|lia]);
      change (emax - prec) with 971;
      (destruct (Z.leb_spec e1 971); [|repeat split; lia]);
      (split; [reflexivity|]); (split; [assumption|reflexivity]).
Qed.

(** The value that [binary_round_aux] gives to a positive mantissa. *)
Lemma binary_round_aux_value (m : positive) e l :
  let p := Z.max 0 (fexp prec emax (Zpos (digits2_pos m) + e) - e) in
  exists m1,
    Zpos m / 2 ^ p <= m1 <= Zpos m / 2 ^ p + 1 /\
    (l = loc_Exact -> m1 = rne (Zpos m) p) /\
    match binary_round_aux prec emax false (Zpos m) e l with
    | S754_zero s => s = false /\ m1 = 0
    | S754_infinity s => s = false /\ 0 < m1 /\ 971 <= e + p
    | S754_nan => False
    | S754_finite s m' e' =>
        s = false /\ e' <= 971 /\ (IZR (Zpos m') * bpow e' = IZR m1 * bpow (e + p))%R
    end.
Proof.
  intros p. rewrite binary_round_aux_done.
  pose proof (shr_fexp_round m e l) as Hs. fold p in Hs.
  destruct (shr_fexp prec emax (Zpos m) e l) as [mrs e'].
  destruct Hs as (-> & Hm1 & Hex).
  exists (round_nearest_even (shr_m mrs) (loc_of_shr_record mrs)).
  split; [assumption|]. split; [assumption|].
  apply round_done_value.
  - pose proof (digits2_bounds m) as [Hlo Hhi].
    assert (Hq : 0 <= Zpos m / 2 ^ p < 2 ^ 53).
    { split; [apply Z.div_pos; [lia|apply Z.pow_pos_nonneg; lia]|].
      apply Z.div_lt_upper_bound; [apply Z.pow_pos_nonneg; lia|].
      rewrite <- Z.pow_add_r by lia.
      eapply Z.lt_le_trans; [exact Hhi|]. apply Z.pow_le_mono_r; [lia|].
      unfold p. rewrite fexp_eq. lia. }
    lia.
  - unfold p. rewrite fexp_eq. lia.
Qed.

(** ** Values of floats *)

(** The real value of a finite float; 0 for the other ones. *)
Definition SFval (f : spec_float) : R :=
  match f with
  | S754_finite s m e =>
      if s then (- (IZR (Zpos m) * bpow e))%R else (IZR (Zpos m) * bpow e)%R
  | _ => 0%R
  end.

(** Zero, or positive and finite. *)
Definition nonneg_finite (f : spec_float) : Prop :=
  match f with
  | S754_zero _ => True
  | S754_finite s _ _ => s = false
  | _ => False
  end.

Lemma bounded_spec m e :
  SpecFloat.bounded prec emax m e = true ->
  -1074 <= e <= 971 /\ Zpos m < 2 ^ 53 /\
  Zpos (digits2_pos m) <= 53 /\
  (-1074 < e -> Zpos (digits2_pos m) = 53 /\ 2 ^ 52 <= Zpos m).
Proof.
  unfold SpecFloat.bounded, canonical_mantissa. rewrite andb_true_iff, fexp_eq.
  intros [Hc He]. apply Z.eqb_eq in Hc. apply Z.leb_le in He.
  change (emax - prec) with 971 in He.
  pose proof (digits2_bounds m) as [Hlo Hhi].
  assert (Hd : Zpos (digits2_pos m) <= 53) by lia.
  split; [lia|]. split.
  - eapply Z.lt_le_trans; [exact Hhi|]. apply Z.pow_le_mono_r; lia.
  - split; [assumption|]. intros Hn.
    assert (Hd53 : Zpos (digits2_pos m) = 53) by lia.
    split; [assumption|]. now rewrite Hd53 in Hlo.
Qed.

Lemma nonneg_finite_val f : nonneg_finite f -> (0 <= SFval f)%R.
Proof.
  destruct f as [s|s| |s m e]; simpl; try lra; try tauto.
  intros ->. pose proof (bpow_gt_0 e). pose proof (IZR_lt 0 (Zpos m) ltac:(lia)). nra.
Qed.

(** The order of two positive finite floats is the order of their
    values. *)
Lemma SFcompare_finite m1 e1 m2 e2 :
  SpecFloat.bounded prec emax m1 e1 = true -> SpecFloat.bounded prec emax m2 e2 = true ->
  match SFcompare (S754_finite false m1 e1) (S754_finite false m2 e2) with
  | Some Lt => (IZR (Zpos m1) * bpow e1 < IZR (Zpos m2) * bpow e2)%R
  | Some Eq => (IZR (Zpos m1) * bpow e1 = IZR (Zpos m2) * bpow e2)%R
  | Some Gt => (IZR (Zpos m2) * bpow e2 < IZR (Zpos m1) * bpow e1)%R
  | None => False
  end.
Proof.
  intros H1 H2. apply bounded_spec in H1 as (He1 & Hm1 & _ & Hn1).
  apply bounded_spec in H2 as (He2 & Hm2 & _ & Hn2).
  assert (Hsep : forall ma ea mb eb, Zpos ma < 2 ^ 53 -> 2 ^ 52 <= Zpos mb -> ea < eb ->
            (IZR (Zpos ma) * bpow ea < IZR (Zpos mb) * bpow eb)%R).
  { intros ma ea mb eb Ha Hb Hlt.
    pose proof (bpow_gt_0 ea). pose proof (bpow_le (ea + 1) eb ltac:(lia)) as Hle.
    rewrite bpow_add in Hle. replace (bpow 1) with 2%R in Hle by (unfold bpow; simpl; lra).
    apply IZR_lt in Ha. apply IZR_le in Hb.
    change (IZR (2 ^ 53)) with (2 * IZR (2 ^ 52))%R in Ha.
    assert (0 < IZR (2 ^ 52))%R by (apply IZR_lt; reflexivity).
    nra. }
  simpl. destruct (Z.compare_spec e1 e2) as [->|Hlt|Hgt].
  - rewrite Pos.compare_cont_spec. simpl.
    pose proof (bpow_gt_0 e2).
    destruct (Pos.compare_spec m1 m2) as [->|Hl|Hg]; simpl.
    + reflexivity.
    + apply Pos2Z.pos_lt_pos, IZR_lt in Hl. nra.
    + apply Pos2Z.pos_lt_pos, IZR_lt in Hg. nra.
  - apply Hsep; [assumption| |assumption]. apply Hn2. lia.
  - apply Hsep; [assumption| |assumption]. apply Hn1. lia.
Qed.

Lemma SFltb_val x y :
  valid_binary x = true -> valid_binary y = true ->
  nonneg_finite x -> nonneg_finite y ->
  SFltb x y = true <-> (SFval x < SFval y)%R.
Proof.
  intros Hx Hy Nx Ny.
  destruct x as [sx|sx| |sx mx ex], y as [sy|sy| |sy my ey]; simpl in Nx, Ny; try tauto;
    subst; unfold SFltb.
  - simpl. split; [discriminate|lra].
  - simpl. pose proof (bpow_gt_0 ey). pose proof (IZR_lt 0 (Zpos my) ltac:(lia)).
    split; [intros _; nra|reflexivity].
  - simpl. pose proof (bpow_gt_0 ex). pose proof (IZR_lt 0 (Zpos mx) ltac:(lia)).
    split; [discriminate|intros; nra].
  - pose proof (SFcompare_finite mx ex my ey Hx Hy) as Hc.
    destruct (SFcompare _ _) as [[]|]; simpl in *; try tauto;
      split; try discriminate; try reflexivity; try lra; auto.
Qed.

(** [Z.shiftl m e] is the floor of [m * 2^e]. *)
Lemma shiftl_floor m e :
  0 <= m ->
  (IZR (Z.shiftl m e) <= IZR m * bpow e < IZR (Z.shiftl m e) + 1)%R.
Proof.
  intros Hm. destruct (Z_le_gt_dec 0 e) as [He|He].
  - rewrite Z.shiftl_mul_pow2, mult_IZR, bpow_IZR by assumption. lra.
  - rewrite Z.shiftl_div_pow2 by lia.
    replace e with (- (- e)) at 2 3 by ring. rewrite bpow_opp, bpow_IZR by lia.
    pose proof (Z.pow_pos_nonneg 2 (- e) ltac:(lia) ltac:(lia)) as Hpos.
    pose proof (Z.div_mod m (2 ^ (- e)) ltac:(lia)) as Hdm.
    pose proof (Z.mod_pos_bound m (2 ^ (- e)) Hpos) as Hmb.
    set (q := m / 2 ^ (- e)) in *. set (r := m mod 2 ^ (- e)) in *.
    assert (Hq : IZR m = (IZR (2 ^ (- e)) * IZR q + IZR r)%R).
    { rewrite <- mult_IZR, <- plus_IZR. now f_equal. }
    assert (H2 : (0 < IZR (2 ^ (- e)))%R) by (apply IZR_lt; lia).
    assert (Hr0 : (0 <= IZR r)%R) by (apply IZR_le; lia).
    assert (Hr1 : (IZR r < IZR (2 ^ (- e)))%R) by (apply IZR_lt; lia).
    rewrite Hq. split.
    + apply Rmult_le_reg_r with (IZR (2 ^ (- e))); [assumption|]. field_simplify; lra.
    + apply Rmult_lt_reg_r with (IZR (2 ^ (- e))); [assumption|]. field_simplify; lra.
Qed.

Lemma shiftl_below m e n :
  0 <= m -> (IZR m * bpow e < IZR (n + 1))%R -> Z.shiftl m e <= n.
Proof.
  intros Hm Hlt. pose proof (shiftl_floor m e Hm) as [Hlo _].
  assert (H : (IZR (Z.shiftl m e) < IZR (n + 1))%R) by lra.
  apply lt_IZR in H. lia.
Qed.

Lemma shiftl_monotone m1 e1 m2 e2 :
  0 <= m1 -> 0 <= m2 ->
  (IZR m1 * bpow e1 <= IZR m2 * bpow e2)%R -> Z.shiftl m1 e1 <= Z.shiftl m2 e2.
Proof.
  intros H1 H2 Hle. apply shiftl_below; [assumption|].
  pose proof (shiftl_floor m2 e2 H2) as [_ Hhi]. rewrite plus_IZR. lra.
Qed.

(** ** Bounds on a rounded mantissa *)

(** A finite result of [binary_round_aux] is at most the input and one
    unit in the last place. *)
Lemma binary_round_aux_upper (m : positive) e l :
  0 <= fexp prec emax (Zpos (digits2_pos m) + e) - e ->
  match binary_round_aux prec emax false (Zpos m) e l with
  | S754_zero s => s = false
  | S754_infinity s => s = false /\ 971 <= Zpos (digits2_pos m) + e - 53
  | S754_nan => False
  | S754_finite s m' e' =>
      s = false /\
      (IZR (Zpos m') * bpow e'
       <= IZR (Zpos m) * bpow e * (1 + bpow (-52)) + bpow (-1074))%R
  end.
Proof.
  intros Hp. pose proof (binary_round_aux_value m e l) as Hv. cbv zeta in Hv.
  rewrite Z.max_r in Hv by assumption.
  set (p := fexp prec emax (Zpos (digits2_pos m) + e) - e) in *.
  destruct Hv as (m1 & [Hlo Hhi] & _ & Hv).
  pose proof (digits2_bounds m) as [Hdlo Hdhi].
  pose proof (Z.pow_pos_nonneg 2 p ltac:(lia) Hp) as Hpos.
  (* the unit in the last place *)
  assert (Hulp : (bpow (e + p) <= IZR (Zpos m) * bpow e * bpow (-52) + bpow (-1074))%R).
  { unfold p. rewrite fexp_eq.
    replace (e + (Z.max (Zpos (digits2_pos m) + e - 53) (-1074) - e))
      with (Z.max (Zpos (digits2_pos m) + e - 53) (-1074)) by ring.
    pose proof (bpow_gt_0 (-1074)). pose proof (bpow_gt_0 e). pose proof (bpow_gt_0 (-52)).
    pose proof (IZR_lt 0 (Zpos m) ltac:(lia)).
    apply Z.max_case_strong; intros _.
    - replace (Zpos (digits2_pos m) + e - 53)
        with ((Zpos (digits2_pos m) - 1) + e + (-52)) by ring.
      rewrite !bpow_add, (bpow_IZR (Zpos (digits2_pos m) - 1)) by lia.
      apply IZR_le in Hdlo.
      assert (Hk : (0 < bpow e * bpow (-52))%R) by nra.
      rewrite !Rmult_assoc.
      assert (IZR (2 ^ (Zpos (digits2_pos m) - 1)) * (bpow e * bpow (-52))
              <= IZR (Zpos m) * (bpow e * bpow (-52)))%R
        by (apply Rmult_le_compat_r; lra).
      lra.
    - assert (0 < IZR (Zpos m) * bpow e)%R by nra.
      assert (0 < IZR (Zpos m) * bpow e * bpow (-52))%R by nra. lra. }
  assert (Hm1 : (IZR m1 * bpow (e + p) <= IZR (Zpos m) * bpow e + bpow (e + p))%R).
  { rewrite bpow_add, (bpow_IZR p) by assumption.
    pose proof (bpow_gt_0 e).
    assert (Hq : Zpos m / 2 ^ p * 2 ^ p <= Zpos m).
    { pose proof (Z.div_mod (Zpos m) (2 ^ p) ltac:(lia)).
      pose proof (Z.mod_pos_bound (Zpos m) (2 ^ p) Hpos). lia. }
    apply IZR_le in Hq. rewrite mult_IZR in Hq. apply IZR_le in Hhi.
    rewrite plus_IZR in Hhi. assert (0 < IZR (2 ^ p))%R by (apply IZR_lt; lia).
    assert (Ha : (IZR m1 * IZR (2 ^ p) <= IZR (Zpos m) + IZR (2 ^ p))%R) by nra.
    replace (IZR m1 * (bpow e * IZR (2 ^ p)))%R
      with (bpow e * (IZR m1 * IZR (2 ^ p)))%R by ring.
    nra. }
  destruct (binary_round_aux prec emax false (Zpos m) e l) as [s|s| |s m' e'].
  - tauto.
  - destruct Hv as (-> & _ & Hinf). split; [reflexivity|].
    unfold p in Hinf. rewrite fexp_eq in Hinf. lia.
  - assumption.
  - destruct Hv as (-> & _ & ->). split; [reflexivity|]. lra.
Qed.

(** ** Rounding is monotone *)

Lemma val_magnitude (m : positive) e :
  (bpow (Zpos (digits2_pos m) + e - 1) <= IZR (Zpos m) * bpow e
   < bpow (Zpos (digits2_pos m) + e))%R.
Proof.
  pose proof (digits2_bounds m) as [Hlo Hhi]. pose proof (bpow_gt_0 e).
  replace (Zpos (digits2_pos m) + e - 1) with ((Zpos (digits2_pos m) - 1) + e) by ring.
  rewrite !bpow_add, (bpow_IZR (Zpos (digits2_pos m) - 1)),
    (bpow_IZR (Zpos (digits2_pos m))) by lia.
  apply IZR_le in Hlo. apply IZR_lt in Hhi. split; nra.
Qed.

(** Two positive mantissas with their exponents, rounded to nearest at the
    exponent that [fexp] gives: the order of the values is kept. *)
Lemma round_exact_mono (m1 m2 : positive) e1 e2 :
  let p1 := fexp prec emax (Zpos (digits2_pos m1) + e1) - e1 in
  let p2 := fexp prec emax (Zpos (digits2_pos m2) + e2) - e2 in
  0 <= p1 -> 0 <= p2 ->
  (IZR (Zpos m1) * bpow e1 <= IZR (Zpos m2) * bpow e2)%R ->
  (IZR (rne (Zpos m1) p1) * bpow (e1 + p1)
   <= IZR (rne (Zpos m2) p2) * bpow (e2 + p2))%R.
Proof.
  intros p1 p2 Hp1 Hp2 Hle.
  pose proof (val_magnitude m1 e1) as [Hlo1 Hhi1].
  pose proof (val_magnitude m2 e2) as [Hlo2 Hhi2].
  pose proof (digits2_bounds m1) as [Hdlo1 Hdhi1].
  pose proof (digits2_bounds m2) as [Hdlo2 Hdhi2].
  set (d1 := Zpos (digits2_pos m1)) in *. set (d2 := Zpos (digits2_pos m2)) in *.
  assert (Hmag : d1 + e1 <= d2 + e2).
  { destruct (Z_le_gt_dec (d1 + e1) (d2 + e2)) as [|Hgt]; [assumption|].
    pose proof (bpow_le (d2 + e2) (d1 + e1 - 1) ltac:(lia)). lra. }
  assert (HF1 : e1 + p1 = Z.max (d1 + e1 - 53) (-1074)) by (unfold p1; rewrite fexp_eq; lia).
  assert (HF2 : e2 + p2 = Z.max (d2 + e2 - 53) (-1074)) by (unfold p2; rewrite fexp_eq; lia).
  destruct (Z.eq_dec (e1 + p1) (e2 + p2)) as [Heq|Hne].
  - (* the same exponent: the mantissas are rounded at the same place *)
    set (e0 := Z.min e1 e2).
    assert (Hs1 : rne (Zpos m1) p1 = rne (Zpos m1 * 2 ^ (e1 - e0)) (p1 + (e1 - e0)))
      by (rewrite rne_scale; [reflexivity|lia|unfold e0; lia]).
    assert (Hs2 : rne (Zpos m2) p2 = rne (Zpos m2 * 2 ^ (e2 - e0)) (p2 + (e2 - e0)))
      by (rewrite rne_scale; [reflexivity|lia|unfold e0; lia]).
    replace (p2 + (e2 - e0)) with (p1 + (e1 - e0)) in Hs2 by lia.
    assert (Hm : Zpos m1 * 2 ^ (e1 - e0) <= Zpos m2 * 2 ^ (e2 - e0)).
    { apply le_IZR. rewrite !mult_IZR, <- !bpow_IZR by (unfold e0; lia).
      pose proof (bpow_gt_0 e0).
      apply Rmult_le_reg_r with (bpow e0); [assumption|].
      rewrite !Rmult_assoc, <- !bpow_add.
      replace (e1 - e0 + e0) with e1 by ring. replace (e2 - e0 + e0) with e2 by ring.
      assumption. }
    rewrite Hs1, Hs2, <- Heq. pose proof (bpow_gt_0 (e1 + p1)).
    apply Rmult_le_compat_r; [lra|]. apply IZR_le.
    apply rne_mono; [unfold e0; lia|assumption].
  - (* different exponents: a power of two lies between the results *)
    assert (HF : e1 + p1 < e2 + p2) by lia.
    assert (Hn2 : e2 + p2 = d2 + e2 - 53) by lia.
    assert (Hup : (IZR (rne (Zpos m1) p1) * bpow (e1 + p1) <= bpow (d1 + e1))%R).
    { destruct (Z_le_gt_dec p1 d1) as [Hpd|Hpd].
      - assert (Hr : rne (Zpos m1) p1 <= 2 ^ (d1 - p1)).
        { rewrite <- (rne_exact (2 ^ (d1 - p1)) p1) by assumption.
          apply rne_mono; [assumption|]. rewrite <- Z.pow_add_r by lia.
          replace (d1 - p1 + p1) with d1 by ring. lia. }
        apply IZR_le in Hr. rewrite <- bpow_IZR in Hr by lia.
        replace (d1 + e1) with ((d1 - p1) + (e1 + p1)) by ring. rewrite (bpow_add (d1 - p1)).
        pose proof (bpow_gt_0 (e1 + p1)). apply Rmult_le_compat_r; lra.
      - rewrite rne_small; [|assumption|lia|].
        + pose proof (bpow_gt_0 (d1 + e1)). lra.
        + assert (Hpw : 2 ^ (d1 + 1) <= 2 ^ p1) by (apply Z.pow_le_mono_r; lia).
          rewrite Z.pow_add_r, Z.pow_1_r in Hpw by lia. lia. }
    assert (Hdn : (bpow (d2 + e2 - 1) <= IZR (rne (Zpos m2) p2) * bpow (e2 + p2))%R).
    { assert (Hp2' : p2 = d2 - 53) by lia.
      assert (Hr : 2 ^ 52 <= rne (Zpos m2) p2).
      { rewrite <- (rne_exact (2 ^ 52) p2) at 1 by assumption.
        apply rne_mono; [assumption|]. rewrite <- Z.pow_add_r by lia.
        replace (52 + p2) with (d2 - 1) by lia. lia. }
      apply IZR_le in Hr. rewrite <- bpow_IZR in Hr by lia.
      replace (d2 + e2 - 1) with (52 + (e2 + p2)) by lia. rewrite (bpow_add 52).
      pose proof (bpow_gt_0 (e2 + p2)). apply Rmult_le_compat_r; lra. }
    pose proof (bpow_le (d1 + e1) (d2 + e2 - 1) ltac:(lia)). lra.
Qed.

(** ** Products *)

Lemma digits2_mul_lower mc mx :
  Zpos (digits2_pos mc) + Zpos (digits2_pos mx) - 1 <= Zpos (digits2_pos (mc * mx)).
Proof.
  pose proof (digits2_bounds mc) as [Hc _]. pose proof (digits2_bounds mx) as [Hx _].
  pose proof (digits2_bounds (mc * mx)) as [_ Hp].
  set (dc := Zpos (digits2_pos mc)) in *. set (dx := Zpos (digits2_pos mx)) in *.
  set (d := Zpos (digits2_pos (mc * mx))) in *.
  assert (Hlow : 2 ^ (dc - 1 + (dx - 1)) <= Zpos (mc * mx)).
  { rewrite Z.pow_add_r by (unfold dc, dx; lia). rewrite Pos2Z.inj_mul.
    apply Z.mul_le_mono_nonneg; try assumption; apply Z.pow_nonneg; lia. }
  assert (Hlt : 2 ^ (dc - 1 + (dx - 1)) < 2 ^ d) by lia.
  apply Z.pow_lt_mono_r_iff in Hlt; unfold d in *; lia.
Qed.

Lemma mul_shift_nonneg mc ec mx ex :
  SpecFloat.bounded prec emax mc ec = true ->
  SpecFloat.bounded prec emax mx ex = true ->
  0 <= fexp prec emax (Zpos (digits2_pos (mc * mx)) + (ec + ex)) - (ec + ex).
Proof.
  intros Hc Hx. apply bounded_spec in Hc as (Hec & _ & _ & Hnc).
  apply bounded_spec in Hx as (Hex & _ & _ & Hnx).
  pose proof (digits2_mul_lower mc mx). rewrite fexp_eq.
  pose proof (Pos2Z.is_pos (digits2_pos mc)). pose proof (Pos2Z.is_pos (digits2_pos mx)).
  destruct (Z.eq_dec ec (-1074)) as [->|Hn1].
  - destruct (Z.eq_dec ex (-1074)) as [->|Hn2]; [lia|].
    destruct (Hnx ltac:(lia)) as [Hd _]. lia.
  - destruct (Hnc ltac:(lia)) as [Hd _]. lia.
Qed.

(** The product of two positive finite floats, rounded. *)
Definition mul_rounded (mc : positive) (ec : Z) (mx : positive) (ex : Z) : R :=
  let e := ec + ex in
  let p := fexp prec emax (Zpos (digits2_pos (mc * mx)) + e) - e in
  (IZR (rne (Zpos (mc * mx)) p) * bpow (e + p))%R.

Lemma SFmul_value mc ec mx ex :
  SpecFloat.bounded prec emax mc ec = true ->
  SpecFloat.bounded prec emax mx ex = true ->
  match SF64mul (S754_finite false mc ec) (S754_finite false mx ex) with
  | S754_nan => False
  | S754_infinity s => s = false
  | r => nonneg_finite r /\ SFval r = mul_rounded mc ec mx ex
  end.
Proof.
  intros Hc Hx. pose proof (mul_shift_nonneg mc ec mx ex Hc Hx) as Hp.
  pose proof (binary_round_aux_value (mc * mx) (ec + ex) loc_Exact) as Hv.
  cbv zeta in Hv. rewrite Z.max_r in Hv by assumption.
  destruct Hv as (m1 & _ & Hm1 & Hv). specialize (Hm1 eq_refl). subst m1.
  change (SF64mul (S754_finite false mc ec) (S754_finite false mx ex))
    with (binary_round_aux prec emax false (Zpos (mc * mx)) (ec + ex) loc_Exact).
  unfold mul_rounded.
  destruct (binary_round_aux prec emax false (Zpos (mc * mx)) (ec + ex) loc_Exact)
    as [s|s| |s m' e'].
  - destruct Hv as [-> Hz]. split; [exact I|]. simpl. rewrite Hz. lra.
  - tauto.
  - assumption.
  - destruct Hv as (-> & _ & Hval). split; [reflexivity|]. exact Hval.
Qed.

Lemma SFmul_upper mc ec mx ex :
  SpecFloat.bounded prec emax mc ec = true ->
  SpecFloat.bounded prec emax mx ex = true ->
  (mul_rounded mc ec mx ex
   <= IZR (Zpos mc) * bpow ec * (IZR (Zpos mx) * bpow ex) * (1 + bpow (-52))
      + bpow (-1074))%R.
Proof.
  intros Hc Hx. pose proof (mul_shift_nonneg mc ec mx ex Hc Hx) as Hp.
  unfold mul_rounded.
  set (p := fexp prec emax (Zpos (digits2_pos (mc * mx)) + (ec + ex)) - (ec + ex)) in *.
  pose proof (rne_bounds (Zpos (mc * mx)) p Hp) as [_ Hhi].
  pose proof (Z.pow_pos_nonneg 2 p ltac:(lia) Hp) as Hpos.
  pose proof (val_magnitude (mc * mx) (ec + ex)) as [Hmag _].
  assert (Hq : Zpos (mc * mx) / 2 ^ p * 2 ^ p <= Zpos (mc * mx)).
  { pose proof (Z.div_mod (Zpos (mc * mx)) (2 ^ p) ltac:(lia)).
    pose proof (Z.mod_pos_bound (Zpos (mc * mx)) (2 ^ p) Hpos). lia. }
  assert (Hr : (IZR (rne (Zpos (mc * mx)) p) * IZR (2 ^ p)
                <= IZR (Zpos (mc * mx)) + IZR (2 ^ p))%R).
  { apply IZR_le in Hq, Hhi. rewrite mult_IZR in Hq. rewrite plus_IZR in Hhi.
    assert (0 < IZR (2 ^ p))%R by (apply IZR_lt; lia). nra. }
  assert (Hulp : (bpow (ec + ex + p)
                  <= IZR (Zpos (mc * mx)) * bpow (ec + ex) * bpow (-52) + bpow (-1074))%R).
  { unfold p. rewrite fexp_eq.
    replace (ec + ex + (Z.max (Zpos (digits2_pos (mc * mx)) + (ec + ex) - 53) (-1074)
                        - (ec + ex)))
      with (Z.max (Zpos (digits2_pos (mc * mx)) + (ec + ex) - 53) (-1074)) by ring.
    pose proof (bpow_gt_0 (-1074)). pose proof (bpow_gt_0 (-52)).
    pose proof (bpow_gt_0 (Zpos (digits2_pos (mc * mx)) + (ec + ex) - 1)).
    apply Z.max_case_strong; intros _.
    - replace (Zpos (digits2_pos (mc * mx)) + (ec + ex) - 53)
        with ((Zpos (digits2_pos (mc * mx)) + (ec + ex) - 1) + (-52)) by ring.
      rewrite bpow_add.
      assert (bpow (Zpos (digits2_pos (mc * mx)) + (ec + ex) - 1) * bpow (-52)
              <= IZR (Zpos (mc * mx)) * bpow (ec + ex) * bpow (-52))%R
        by (apply Rmult_le_compat_r; lra).
      lra.
    - assert (0 < IZR (Zpos (mc * mx)) * bpow (ec + ex) * bpow (-52))%R by nra. lra. }
  rewrite (bpow_add (ec + ex) p), (bpow_IZR p) by assumption.
  rewrite (bpow_add (ec + ex) p), (bpow_IZR p) in Hulp by assumption.
  assert (Hprod : (IZR (Zpos mc) * bpow ec * (IZR (Zpos mx) * bpow ex)
                   = IZR (Zpos (mc * mx)) * bpow (ec + ex))%R).
  { rewrite Pos2Z.inj_mul, mult_IZR, bpow_add. ring. }
  rewrite Hprod. pose proof (bpow_gt_0 (ec + ex)).
  replace (IZR (rne (Zpos (mc * mx)) p) * (bpow (ec + ex) * IZR (2 ^ p)))%R
    with (bpow (ec + ex) * (IZR (rne (Zpos (mc * mx)) p) * IZR (2 ^ p)))%R by ring.
  nra.
Qed.

Lemma SFmul_mono mc ec mx ex my ey :
  SpecFloat.bounded prec emax mc ec = true ->
  SpecFloat.bounded prec emax mx ex = true ->
  SpecFloat.bounded prec emax my ey = true ->
  (IZR (Zpos mx) * bpow ex <= IZR (Zpos my) * bpow ey)%R ->
  (mul_rounded mc ec mx ex <= mul_rounded mc ec my ey)%R.
Proof.
  intros Hc Hx Hy Hle. unfold mul_rounded.
  apply round_exact_mono.
  - now apply mul_shift_nonneg.
  - now apply mul_shift_nonneg.
  - rewrite !Pos2Z.inj_mul, !mult_IZR, !bpow_add.
    pose proof (bpow_gt_0 ec). pose proof (IZR_lt 0 (Zpos mc) ltac:(lia)).
    assert (0 < IZR (Zpos mc) * bpow ec)%R by nra.
    replace (IZR (Zpos mc) * IZR (Zpos mx) * (bpow ec * bpow ex))%R
      with (IZR (Zpos mc) * bpow ec * (IZR (Zpos mx) * bpow ex))%R by ring.
    replace (IZR (Zpos mc) * IZR (Zpos my) * (bpow ec * bpow ey))%R
      with (IZR (Zpos mc) * bpow ec * (IZR (Zpos my) * bpow ey))%R by ring.
    apply Rmult_le_compat_l; lra.
Qed.

(** ** Quotients *)

(** The quotient of a normal float by a positive finite float: it is at
    most the exact quotient and one unit in the last place. *)
Lemma SFdiv_upper m1 e1 m2 e2 :
  SpecFloat.bounded prec emax m1 e1 = true -> 2 ^ 52 <= Zpos m1 ->
  SpecFloat.bounded prec emax m2 e2 = true ->
  -1021 <= e1 - e2 ->
  match SF64div (S754_finite false m1 e1) (S754_finite false m2 e2) with
  | S754_zero s => s = false
  | S754_infinity s => s = false /\ 970 <= e1 - e2 - Zpos (digits2_pos m2)
  | S754_nan => False
  | S754_finite s m e =>
      s = false /\
      (IZR (Zpos m) * bpow e * (IZR (Zpos m2) * bpow e2)
       <= IZR (Zpos m1) * bpow e1 * (1 + bpow (-52))
          + bpow (-1074) * (IZR (Zpos m2) * bpow e2))%R
  end.
Proof.
  intros H1 Hn1 H2 He.
  apply bounded_spec in H1 as (He1 & Hm1 & Hd1 & _).
  apply bounded_spec in H2 as (He2 & Hm2 & Hd2 & _).
  pose proof (digits2_bounds m1) as [Hlo1 Hhi1].
  pose proof (digits2_bounds m2) as [Hlo2 Hhi2].
  assert (Hd53 : Zpos (digits2_pos m1) = 53).
  { destruct (Z.eq_dec (Zpos (digits2_pos m1)) 53) as [|Hne]; [assumption|].
    assert (2 ^ Zpos (digits2_pos m1) <= 2 ^ 52) by (apply Z.pow_le_mono_r; lia). lia. }
  set (d2 := Zpos (digits2_pos m2)) in *.
  unfold SF64div, SFdiv, SFdiv_core_binary. simpl Zdigits2. fold d2. rewrite Hd53.
  assert (He' : Z.min (fexp prec emax (53 + e1 - (d2 + e2))) (e1 - e2) = e1 - e2 - d2).
  { rewrite fexp_eq. unfold d2 in *. lia. }
  rewrite He'. replace (e1 - e2 - (e1 - e2 - d2)) with d2 by ring.
  change (xorb false false) with false.
  assert (Hpow : 0 < 2 ^ d2) by (apply Z.pow_pos_nonneg; unfold d2; lia).
  replace (match d2 with
           | 0 => Zpos m1
           | Zpos _ => Z.shiftl (Zpos m1) d2
           | Zneg _ => 0
           end) with (Zpos m1 * 2 ^ d2)
    by (rewrite <- Z.shiftl_mul_pow2 by (unfold d2; lia); reflexivity).
  pose proof (Z.div_mod (Zpos m1 * 2 ^ d2) (Zpos m2) ltac:(lia)) as Hdm.
  pose proof (Z.mod_pos_bound (Zpos m1 * 2 ^ d2) (Zpos m2) ltac:(lia)) as Hmb.
  unfold Z.div, Z.modulo in Hdm, Hmb.
  destruct (Z.div_eucl (Zpos m1 * 2 ^ d2) (Zpos m2)) as [q r].
  assert (Hq : Zpos m1 <= q <= 2 * Zpos m1).
  { split.
    - assert (Zpos m2 * Zpos m1 < Zpos m2 * (q + 1)); [nia|].
      apply Z.mul_lt_mono_pos_l in H; lia.
    - assert (Hh : 2 ^ d2 = 2 * 2 ^ (d2 - 1)).
      { rewrite <- Z.pow_succ_r by (unfold d2; lia). f_equal. lia. }
      assert (Zpos m2 * q <= Zpos m2 * (2 * Zpos m1)); [nia|].
      apply Z.mul_le_mono_pos_l in H; lia. }
  destruct q as [|q|q]; try lia.
  pose proof (digits2_bounds q) as [Hloq Hhiq].
  assert (Hdq : 53 <= Zpos (digits2_pos q) <= 54).
  { split.
    - destruct (Z_le_gt_dec 53 (Zpos (digits2_pos q))) as [|Hgt]; [assumption|].
      assert (2 ^ Zpos (digits2_pos q) <= 2 ^ 52) by (apply Z.pow_le_mono_r; lia). lia.
    - destruct (Z_le_gt_dec (Zpos (digits2_pos q)) 54) as [|Hgt]; [assumption|].
      assert (2 ^ 54 <= 2 ^ (Zpos (digits2_pos q) - 1)) by (apply Z.pow_le_mono_r; lia).
      change (2 ^ 54) with (2 * 2 ^ 53) in *. lia. }
  pose proof (binary_round_aux_upper q (e1 - e2 - d2) (new_location (Zpos m2) r)) as Hu.
  specialize (Hu ltac:(rewrite fexp_eq; lia)).
  destruct (binary_round_aux prec emax false (Zpos q) (e1 - e2 - d2) _) as [s|s| |s m e].
  - assumption.
  - destruct Hu as [-> Hinf]. split; [reflexivity|]. lia.
  - assumption.
  - destruct Hu as [-> Hu]. split; [reflexivity|].
    (* q * 2^(e1-e2-d2) * (m2 * 2^e2) <= m1 * 2^e1 *)
    assert (Hx : (IZR (Zpos q) * bpow (e1 - e2 - d2) * (IZR (Zpos m2) * bpow e2)
                  <= IZR (Zpos m1) * bpow e1)%R).
    { assert (Hqm : Zpos m2 * Zpos q <= Zpos m1 * 2 ^ d2) by lia.
      apply IZR_le in Hqm. rewrite !mult_IZR, <- bpow_IZR in Hqm by (unfold d2; lia).
      replace e1 with ((e1 - e2 - d2) + e2 + d2) at 2 by ring. rewrite !bpow_add.
      pose proof (bpow_gt_0 (e1 - e2 - d2)). pose proof (bpow_gt_0 e2).
      assert (0 < bpow (e1 - e2 - d2) * bpow e2)%R by nra.
      replace (IZR (Zpos q) * bpow (e1 - e2 - d2) * (IZR (Zpos m2) * bpow e2))%R
        with (bpow (e1 - e2 - d2) * bpow e2 * (IZR (Zpos m2) * IZR (Zpos q)))%R by ring.
      replace (IZR (Zpos m1) * (bpow (e1 - e2 - d2) * bpow e2 * bpow d2))%R
        with (bpow (e1 - e2 - d2) * bpow e2 * (IZR (Zpos m1) * bpow d2))%R by ring.
      apply Rmult_le_compat_l; lra. }
    pose proof (bpow_gt_0 e2). pose proof (IZR_lt 0 (Zpos m2) ltac:(lia)).
    assert (Hv2 : (0 < IZR (Zpos m2) * bpow e2)%R) by nra.
    pose proof (bpow_gt_0 (-52)).
    apply Rle_trans with
      ((IZR (Zpos q) * bpow (e1 - e2 - d2) * (1 + bpow (-52)) + bpow (-1074))
       * (IZR (Zpos m2) * bpow e2))%R.
    + apply Rmult_le_compat_r; lra.
    + replace ((IZR (Zpos q) * bpow (e1 - e2 - d2) * (1 + bpow (-52)) + bpow (-1074))
               * (IZR (Zpos m2) * bpow e2))%R
        with (IZR (Zpos q) * bpow (e1 - e2 - d2) * (IZR (Zpos m2) * bpow e2)
              * (1 + bpow (-52)) + bpow (-1074) * (IZR (Zpos m2) * bpow e2))%R by ring.
      apply Rplus_le_compat_r. apply Rmult_le_compat_r; lra.
Qed.

(** ** Integers as floats *)

Lemma binary_round_aux_lower (m : positive) e l :
  -1074 <= e ->
  match binary_round_aux prec emax false (Zpos m) e l with
  | S754_zero _ | S754_nan => False
  | S754_infinity s =>
      s = false /\ 971 <= Z.max e (Zpos (digits2_pos m) + e - 53)
  | S754_finite s m' e' =>
      s = false /\
      (bpow (Zpos (digits2_pos m) + e - 1) <= IZR (Zpos m') * bpow e')%R
  end.
Proof.
  intros He. pose proof (binary_round_aux_value m e l) as Hv. cbv zeta in Hv.
  pose proof (digits2_bounds m) as [Hlo Hhi].
  set (d := Zpos (digits2_pos m)) in *.
  set (p := Z.max 0 (fexp prec emax (d + e) - e)) in *.
  assert (Hp : p = Z.max 0 (d - 53)) by (unfold p; rewrite fexp_eq; unfold d; lia).
  assert (Hp0 : 0 <= p <= d - 1) by (unfold d in *; lia).
  destruct Hv as (m1 & [Hm1 _] & _ & Hv).
  pose proof (Z.pow_pos_nonneg 2 p ltac:(lia) ltac:(lia)) as Hpos.
  assert (Hq : 2 ^ (d - 1 - p) <= Zpos m / 2 ^ p).
  { apply Z.div_le_lower_bound; [assumption|].
    rewrite <- Z.pow_add_r by lia. replace (p + (d - 1 - p)) with (d - 1) by ring.
    assumption. }
  assert (Hpos1 : 0 < 2 ^ (d - 1 - p)) by (apply Z.pow_pos_nonneg; lia).
  destruct (binary_round_aux prec emax false (Zpos m) e l) as [s|s| |s m' e'].
  - lia.
  - destruct Hv as (-> & _ & Hinf). split; [reflexivity|]. lia.
  - assumption.
  - destruct Hv as (-> & _ & ->). split; [reflexivity|].
    replace (d + e - 1) with ((d - 1 - p) + (e + p)) by ring.
    rewrite (bpow_add (d - 1 - p)), (bpow_IZR (d - 1 - p)) by lia.
    pose proof (bpow_gt_0 (e + p)). apply Rmult_le_compat_r; [lra|].
    apply IZR_le. lia.
Qed.

Lemma Pos_iter_xO m k : Zpos (Pos.iter xO m k) = Zpos m * 2 ^ Zpos k.
Proof.
  induction k as [|k IH] using Pos.peano_ind.
  - simpl. lia.
  - rewrite Pos.iter_succ, Pos2Z.inj_xO, IH, Pos2Z.inj_succ, Z.pow_succ_r by lia. ring.
Qed.

(** The float of a positive integer of 63 bits is positive, finite and at
    least 1. *)
Lemma of_int_spec w :
  0 <= w < 2 ^ 63 ->
  match Prim2SF (PyFloat.of_int w) with
  | S754_zero _ => w = 0
  | S754_finite s m e => s = false /\ 0 < w /\ (1 <= IZR (Zpos m) * bpow e)%R
  | _ => False
  end.
Proof.
  intros Hw. unfold PyFloat.of_int. rewrite of_uint63_spec, Uint63.of_Z_spec.
  assert (HwB : wB = 2 ^ 63) by reflexivity.
  rewrite Z.mod_small by (rewrite HwB; lia). clear HwB.
  destruct w as [|m|m]; [reflexivity| |lia].
  unfold binary_normalize, binary_round, shl_align.
  pose proof (digits2_bounds m) as [Hlo Hhi].
  set (d := Zpos (digits2_pos m)) in *.
  assert (Hd : 1 <= d <= 63).
  { split; [unfold d; lia|].
    destruct (Z_le_gt_dec d 63) as [|Hgt]; [assumption|].
    assert (2 ^ 63 <= 2 ^ (d - 1)) by (apply Z.pow_le_mono_r; lia). lia. }
  rewrite fexp_eq. replace (Z.max (d + 0 - 53) (-1074)) with (d - 53) by lia.
  assert (Hgoal : forall (m' : positive) e',
            -52 <= e' <= 0 -> (IZR (Zpos m') * bpow e' = IZR (Zpos m))%R ->
            match binary_round_aux prec emax false (Zpos m') e' loc_Exact with
            | S754_zero _ => Zpos m = 0
            | S754_finite s m0 e0 =>
                s = false /\ 0 < Zpos m /\ (1 <= IZR (Zpos m0) * bpow e0)%R
            | _ => False
            end).
  { intros m' e' He' Hval.
    pose proof (binary_round_aux_lower m' e' loc_Exact ltac:(lia)) as Hl.
    pose proof (val_magnitude m' e') as [Hmlo Hmhi]. rewrite Hval in Hmlo, Hmhi.
    assert (H1 : (1 <= IZR (Zpos m))%R) by (apply IZR_le; lia).
    assert (H63 : (IZR (Zpos m) < bpow 63)%R) by (rewrite bpow_IZR by lia; apply IZR_lt; lia).
    assert (Hmag : 1 <= Zpos (digits2_pos m') + e' <= 63).
    { split.
      - destruct (Z_le_gt_dec 1 (Zpos (digits2_pos m') + e')) as [|Hgt]; [assumption|].
        pose proof (bpow_le (Zpos (digits2_pos m') + e') 0 ltac:(lia)) as Hb.
        rewrite bpow_0 in Hb. lra.
      - destruct (Z_le_gt_dec (Zpos (digits2_pos m') + e') 63) as [|Hgt]; [assumption|].
        pose proof (bpow_le 63 (Zpos (digits2_pos m') + e' - 1) ltac:(lia)). lra. }
    destruct (binary_round_aux prec emax false (Zpos m') e' loc_Exact) as [s|s| |s m0 e0];
      try tauto.
    - destruct Hl as [_ Hinf]. lia.
    - destruct Hl as [-> Hl]. split; [reflexivity|]. split; [lia|].
      pose proof (bpow_le 0 (Zpos (digits2_pos m') + e' - 1) ltac:(lia)) as Hb.
      rewrite bpow_0 in Hb. lra. }
  destruct (d - 53 - 0) as [|k|k] eqn:Hk.
  - apply Hgoal; [lia|]. rewrite bpow_0. ring.
  - apply Hgoal; [lia|]. rewrite bpow_0. ring.
  - apply Hgoal; [lia|].
    rewrite Pos_iter_xO, mult_IZR, <- bpow_IZR by lia.
    rewrite Rmult_assoc, <- bpow_add.
    replace (Zpos k + (d - 53)) with 0 by lia. rewrite bpow_0. ring.
Qed.

(** ** Comparisons, products and quotients of the program *)

Lemma SFleb_val x y :
  valid_binary x = true -> valid_binary y = true ->
  nonneg_finite x -> nonneg_finite y ->
  SFleb x y = true <-> (SFval x <= SFval y)%R.
Proof.
  intros Hx Hy Nx Ny.
  destruct x as [sx|sx| |sx mx ex], y as [sy|sy| |sy my ey]; simpl in Nx, Ny; try tauto;
    subst; unfold SFleb.
  - simpl. split; [lra|reflexivity].
  - simpl. pose proof (bpow_gt_0 ey). pose proof (IZR_lt 0 (Zpos my) ltac:(lia)).
    split; [intros _; nra|reflexivity].
  - simpl. pose proof (bpow_gt_0 ex). pose proof (IZR_lt 0 (Zpos mx) ltac:(lia)).
    split; [discriminate|intros; nra].
  - pose proof (SFcompare_finite mx ex my ey Hx Hy) as Hc.
    destruct (SFcompare _ _) as [[]|]; simpl in *; try tauto;
      split; try discriminate; try reflexivity; try lra; auto.
Qed.

Lemma Prim2SF_MAX_DIMENSION :
  Prim2SF (PyFloat.of_int MAX_DIMENSION) = S754_finite false 8796093022208000 (-41).
Proof. reflexivity. Qed.

(** A scale factor that passes the check of line 247 is NaN, or positive
    and finite. *)
Lemma accepted_scale_factor s :
  scale_factor_rejected s = false ->
  Prim2SF s = S754_nan \/ exists m e, Prim2SF s = S754_finite false m e.
Proof.
  unfold scale_factor_rejected, PyFloat.gtb. rewrite orb_false_iff, FloatAxioms.leb_spec, FloatAxioms.ltb_spec.
  replace (Prim2SF 0) with (S754_zero false) by reflexivity.
  replace (Prim2SF 4) with (S754_finite false 4503599627370496 (-50)) by reflexivity.
  destruct (Prim2SF s) as [[]|[]| |[] m e]; intros [H1 H2]; try discriminate; eauto.
Qed.

Lemma to_int_nonneg_finite x :
  nonneg_finite (Prim2SF x) ->
  exists n, PyFloat.to_int x = Ok n /\ PyFloat.floor x = Some n /\
            (IZR n <= SFval (Prim2SF x) < IZR n + 1)%R.
Proof.
  unfold PyFloat.to_int, PyFloat.floor.
  destruct (Prim2SF x) as [s|s| |s m e]; simpl; try tauto.
  - intros _. exists 0. repeat split; lra.
  - intros ->. exists (Z.shiftl (Zpos m) e). simpl. repeat split;
      apply (shiftl_floor (Zpos m) e); lia.
Qed.

(** [min] of three floats that are not NaN. *)
Lemma min3_spec a b c :
  nonneg_finite (Prim2SF a) -> nonneg_finite (Prim2SF b) -> nonneg_finite (Prim2SF c) ->
  let r := PyFloat.min3 a b c in
  (r = a \/ r = b \/ r = c) /\
  (SFval (Prim2SF r) <= SFval (Prim2SF a))%R /\
  (SFval (Prim2SF r) <= SFval (Prim2SF b))%R /\
  (SFval (Prim2SF r) <= SFval (Prim2SF c))%R.
Proof.
  intros Na Nb Nc. unfold PyFloat.min3. cbv zeta.
  pose proof (SFltb_val (Prim2SF b) (Prim2SF a) (Prim2SF_valid b) (Prim2SF_valid a) Nb Na) as Hba.
  rewrite <- FloatAxioms.ltb_spec in Hba.
  destruct (b <? a)%float.
  - pose proof (SFltb_val (Prim2SF c) (Prim2SF b) (Prim2SF_valid c) (Prim2SF_valid b) Nc Nb) as Hcb.
    rewrite <- FloatAxioms.ltb_spec in Hcb. pose proof (proj1 Hba eq_refl).
    destruct (c <? b)%float.
    + pose proof (proj1 Hcb eq_refl). split; [tauto|]. repeat split; lra.
    + assert (~ (SFval (Prim2SF c) < SFval (Prim2SF b))%R) by (intros Hlt; apply Hcb in Hlt; discriminate).
      split; [tauto|]. repeat split; lra.
  - assert (~ (SFval (Prim2SF b) < SFval (Prim2SF a))%R) by (intros Hlt; apply Hba in Hlt; discriminate).
    pose proof (SFltb_val (Prim2SF c) (Prim2SF a) (Prim2SF_valid c) (Prim2SF_valid a) Nc Na) as Hca.
    rewrite <- FloatAxioms.ltb_spec in Hca.
    destruct (c <? a)%float.
    + pose proof (proj1 Hca eq_refl). split; [tauto|]. repeat split; lra.
    + assert (~ (SFval (Prim2SF c) < SFval (Prim2SF a))%R) by (intros Hlt; apply Hca in Hlt; discriminate).
      split; [tauto|]. repeat split; lra.
Qed.

(** The float of a dimension: zero, or finite, positive and at least 1. *)
Lemma of_int_nonneg w :
  0 <= w < 2 ^ 63 ->
  nonneg_finite (Prim2SF (PyFloat.of_int w)) /\
  (w = 0 -> exists s, Prim2SF (PyFloat.of_int w) = S754_zero s) /\
  (0 < w -> exists m e, Prim2SF (PyFloat.of_int w) = S754_finite false m e /\
                        SpecFloat.bounded prec emax m e = true /\
                        (1 <= IZR (Zpos m) * bpow e)%R).
Proof.
  intros Hw. pose proof (of_int_spec w Hw) as Hs.
  pose proof (Prim2SF_valid (PyFloat.of_int w)) as Hv.
  destruct (Prim2SF (PyFloat.of_int w)) as [s|s| |s m e]; try tauto.
  - split; [exact I|]. split; [eauto|lia].
  - destruct Hs as (-> & Hpos & Hge). split; [reflexivity|]. split; [lia|].
    intros _. exists m, e. auto.
Qed.

(** The product of a dimension and a float that is zero or positive and
    finite has no sign and is no NaN. *)
Lemma int_mul_nonneg w x :
  0 <= w < 2 ^ 63 -> nonneg_finite (Prim2SF x) ->
  match Prim2SF (PyFloat.int_mul w x) with
  | S754_nan => False
  | S754_infinity s => s = false
  | S754_zero _ => True
  | S754_finite s _ _ => s = false
  end.
Proof.
  intros Hw Nx. unfold PyFloat.int_mul. rewrite FloatAxioms.mul_spec.
  destruct (of_int_nonneg w Hw) as (_ & H0 & Hpos).
  destruct (Z.eq_dec w 0) as [Hz|Hnz].
  - destruct (H0 Hz) as [s ->].
    destruct (Prim2SF x) as [sx|sx| |sx mx ex]; simpl in *; tauto.
  - destruct (Hpos ltac:(lia)) as (m & e & -> & Hb & _).
    pose proof (Prim2SF_valid x) as Hvx.
    destruct (Prim2SF x) as [sx|sx| |sx mx ex]; simpl in Nx; try tauto.
    subst sx. pose proof (SFmul_value m e mx ex Hb Hvx) as Hm.
    destruct (SF64mul _ _) as [s|s| |s m' e']; try tauto.
    now destruct Hm as [Hm _].
Qed.

(** ** The dimensions that the program computes *)

(** The value of the rounded product of two floats that are zero or
    positive and finite. *)
Definition product_val (c x : spec_float) : R :=
  match c, x with
  | S754_finite _ mc ec, S754_finite _ mx ex => mul_rounded mc ec mx ex
  | _, _ => 0%R
  end.

Lemma mul_rounded_nonneg mc ec mx ex :
  SpecFloat.bounded prec emax mc ec = true ->
  SpecFloat.bounded prec emax mx ex = true ->
  (0 <= mul_rounded mc ec mx ex)%R.
Proof.
  intros Hc Hx. pose proof (mul_shift_nonneg mc ec mx ex Hc Hx) as Hp.
  unfold mul_rounded. cbv zeta in *.
  set (p := fexp prec emax (Zpos (digits2_pos (mc * mx)) + (ec + ex)) - (ec + ex)) in *.
  pose proof (rne_nonneg (Zpos (mc * mx)) p Hp ltac:(lia)) as Hr.
  apply IZR_le in Hr. pose proof (bpow_gt_0 (ec + ex + p)). nra.
Qed.

Lemma product_val_mono c x y :
  valid_binary c = true -> valid_binary x = true -> valid_binary y = true ->
  nonneg_finite c -> nonneg_finite x -> nonneg_finite y ->
  (SFval x <= SFval y)%R -> (product_val c x <= product_val c y)%R.
Proof.
  intros Vc Vx Vy Nc Nx Ny Hle.
  destruct c as [sc|sc| |sc mc ec]; simpl in *; try lra; try tauto.
  destruct x as [sx|sx| |sx mx ex], y as [sy|sy| |sy my ey]; simpl in *;
    try lra; try tauto; subst.
  - now apply mul_rounded_nonneg.
  - pose proof (bpow_gt_0 ex). pose proof (IZR_lt 0 (Zpos mx) ltac:(lia)). nra.
  - now apply SFmul_mono.
Qed.

Lemma product_val_upper c x :
  valid_binary c = true -> valid_binary x = true ->
  nonneg_finite c -> nonneg_finite x ->
  (product_val c x <= SFval c * SFval x * (1 + bpow (-52)) + bpow (-1074))%R.
Proof.
  intros Vc Vx Nc Nx. pose proof (bpow_gt_0 (-1074)).
  destruct c as [sc|sc| |sc mc ec]; cbn [SFval product_val nonneg_finite] in *;
    try lra; try tauto.
  destruct x as [sx|sx| |sx mx ex]; cbn [SFval product_val nonneg_finite] in *;
    try lra; try tauto; subst.
  now apply SFmul_upper.
Qed.

(** [int(w * x)] is the floor of the rounded product. *)
Lemma int_mul_to_int w x n :
  0 <= w < 2 ^ 63 -> nonneg_finite (Prim2SF x) ->
  PyFloat.to_int (PyFloat.int_mul w x) = Ok n ->
  (IZR n <= product_val (Prim2SF (PyFloat.of_int w)) (Prim2SF x) < IZR n + 1)%R.
Proof.
  intros Hw Nx. unfold PyFloat.to_int, PyFloat.int_mul. rewrite FloatAxioms.mul_spec.
  destruct (of_int_nonneg w Hw) as (_ & H0 & Hpos).
  pose proof (Prim2SF_valid x) as Vx.
  destruct (Z.eq_dec w 0) as [Hz|Hnz].
  - destruct (H0 Hz) as [s ->].
    destruct (Prim2SF x) as [sx|sx| |sx mx ex]; simpl in *; try tauto;
      intros [= <-]; lra.
  - destruct (Hpos ltac:(lia)) as (m & e & -> & Hb & _).
    destruct (Prim2SF x) as [sx|sx| |sx mx ex]; simpl in Nx; try tauto.
    + simpl. intros [= <-]. lra.
    + subst sx. pose proof (SFmul_value m e mx ex Hb Vx) as Hm.
      unfold product_val.
      destruct (SF64mul _ _) as [s|s| |s m' e']; try tauto; try discriminate.
      * destruct Hm as [_ Hm]. simpl in Hm. intros [= <-]. lra.
      * destruct Hm as [Hs Hm]. simpl in Hs. subst s. simpl in Hm. intros [= <-].
        rewrite <- Hm. simpl. apply shiftl_floor. lia.
Qed.

Lemma to_int_int_mul_nonneg w x n :
  0 <= w < 2 ^ 63 -> nonneg_finite (Prim2SF x) ->
  PyFloat.to_int (PyFloat.int_mul w x) = Ok n -> 0 <= n.
Proof.
  intros Hw Nx. pose proof (int_mul_nonneg w x Hw Nx) as Hs.
  unfold PyFloat.to_int. destruct (Prim2SF (PyFloat.int_mul w x)) as [s|s| |s m e];
    try discriminate.
  - intros [= <-]. lia.
  - subst s. intros [= <-]. simpl. apply Z.shiftl_nonneg. lia.
Qed.

Lemma bounded_val_lt m e :
  SpecFloat.bounded prec emax m e = true -> (IZR (Zpos m) * bpow e < bpow 1024)%R.
Proof.
  intros Hb. apply bounded_spec in Hb as (He & Hm & _).
  replace 1024 with (53 + 971) by reflexivity. rewrite bpow_add, (bpow_IZR 53) by lia.
  apply IZR_lt in Hm. pose proof (bpow_le e 971 ltac:(lia)). pose proof (bpow_gt_0 e).
  pose proof (IZR_lt 0 (Zpos m) ltac:(lia)). nra.
Qed.

Lemma bpow_small k : k <= -20 -> (0 < bpow k <= / 1000000)%R.
Proof.
  intros Hk. split; [apply bpow_gt_0|].
  apply Rle_trans with (bpow (-20)); [apply bpow_le; lia|].
  replace (bpow (-20)) with (/ bpow 20)%R by (symmetry; apply (bpow_opp 20)).
  rewrite (bpow_IZR 20) by lia.
  apply Rinv_le_contravar; [lra|]. change (2 ^ 20) with 1048576. lra.
Qed.

(** [MAX_DIMENSION / w], for a dimension that is not 0. *)
Lemma truediv_MAX_DIMENSION w :
  0 < w < 2 ^ 63 ->
  let c := Prim2SF (PyFloat.of_int w) in
  let q := Prim2SF (PyFloat.of_int MAX_DIMENSION / PyFloat.of_int w) in
  nonneg_finite q /\
  (SFval c * SFval q <= 4000 * (1 + bpow (-52)) + bpow (-50))%R.
Proof.
  intros Hw c q. unfold q, c. rewrite FloatAxioms.div_spec, Prim2SF_MAX_DIMENSION.
  destruct (of_int_nonneg w ltac:(lia)) as (_ & _ & Hpos).
  destruct (Hpos ltac:(lia)) as (m & e & -> & Hb & Hge).
  pose proof (SFdiv_upper 8796093022208000 (-41) m e eq_refl ltac:(lia) Hb) as Hd.
  pose proof (bounded_val_lt m e Hb) as Hlt.
  pose proof (bounded_spec m e Hb) as (He & _).
  pose proof (val_magnitude m e) as [_ Hmag].
  pose proof (bpow_small (-50) ltac:(lia)) as [H50 _].
  pose proof (bpow_small (-52) ltac:(lia)) as [H52 _].
  pose proof (bpow_gt_0 (-1074)) as Ht.
  specialize (Hd ltac:(lia)).
  destruct (SF64div _ _) as [s|s| |s m' e'].
  - split; [exact I|]. cbn [SFval]. nra.
  - exfalso. destruct Hd as [_ Hd].
    pose proof (bpow_le (Zpos (digits2_pos m) + e) 0 ltac:(lia)) as Hle.
    rewrite bpow_0 in Hle. lra.
  - contradiction.
  - destruct Hd as [-> Hd]. split; [reflexivity|]. cbn [SFval].
    assert (H4000 : (IZR 8796093022208000 * bpow (-41) = 4000)%R).
    { replace (bpow (-41)) with (/ bpow 41)%R by (symmetry; apply (bpow_opp 41)).
      rewrite (bpow_IZR 41) by lia. change (2 ^ 41) with 2199023255552. lra. }
    rewrite H4000 in Hd.
    assert (Htiny : (bpow (-1074) * (IZR (Zpos m) * bpow e) <= bpow (-50))%R).
    { replace (-50) with (-1074 + 1024) by reflexivity. rewrite (bpow_add (-1074)).
      apply Rmult_le_compat_l; lra. }
    lra.
Qed.

(** A dimension computed with a factor that is at most [MAX_DIMENSION / w]
    is at most [MAX_DIMENSION]. *)
Lemma clamped_dimension w x n :
  0 < w < 2 ^ 63 -> nonneg_finite (Prim2SF x) ->
  (SFval (Prim2SF x)
   <= SFval (Prim2SF (PyFloat.of_int MAX_DIMENSION / PyFloat.of_int w)))%R ->
  PyFloat.to_int (PyFloat.int_mul w x) = Ok n -> 0 <= n <= MAX_DIMENSION.
Proof.
  intros Hw Nx Hle Hn. split.
  { apply (to_int_int_mul_nonneg w x); [lia|assumption..]. }
  pose proof (int_mul_to_int w x n ltac:(lia) Nx Hn) as [Hlo _].
  destruct (truediv_MAX_DIMENSION w Hw) as [Nq Hq]. cbv zeta in Hq.
  destruct (of_int_nonneg w ltac:(lia)) as (Nc & _ & _).
  set (c := Prim2SF (PyFloat.of_int w)) in *.
  set (q := Prim2SF (PyFloat.of_int MAX_DIMENSION / PyFloat.of_int w)) in *.
  pose proof (product_val_mono c (Prim2SF x) q (Prim2SF_valid _) (Prim2SF_valid _)
                (Prim2SF_valid _) Nc Nx Nq Hle) as Hmono.
  pose proof (product_val_upper c q (Prim2SF_valid _) (Prim2SF_valid _) Nc Nq) as Hup.
  pose proof (bpow_small (-50) ltac:(lia)) as [H50 H50'].
  pose proof (bpow_small (-52) ltac:(lia)) as [H52 H52'].
  pose proof (bpow_small (-1074) ltac:(lia)) as [Ht Ht'].
  pose proof (nonneg_finite_val c Nc). pose proof (nonneg_finite_val q Nq).
  assert (Hb : (IZR n < 4001)%R).
  { assert (SFval c * SFval q * (1 + bpow (-52)) <= 4000.1)%R; [|lra].
    apply Rle_trans with ((4000 * (1 + bpow (-52)) + bpow (-50)) * (1 + bpow (-52)))%R.
    - apply Rmult_le_compat_r; lra.
    - nra. }
  apply lt_IZR in Hb. unfold MAX_DIMENSION. lia.
Qed.

(** A dimension that is 0 for a factor is 0 for every smaller factor. *)
Lemma zero_dimension_smaller w x y n :
  0 <= w < 2 ^ 63 -> nonneg_finite (Prim2SF x) -> nonneg_finite (Prim2SF y) ->
  (SFval (Prim2SF y) <= SFval (Prim2SF x))%R ->
  PyFloat.to_int (PyFloat.int_mul w x) = Ok 0 ->
  PyFloat.to_int (PyFloat.int_mul w y) = Ok n -> n = 0.
Proof.
  intros Hw Nx Ny Hle Hx Hy.
  pose proof (to_int_int_mul_nonneg w y n Hw Ny Hy) as Hge.
  pose proof (int_mul_to_int w x 0 Hw Nx Hx) as [_ Hhi].
  pose proof (int_mul_to_int w y n Hw Ny Hy) as [Hlo _].
  destruct (of_int_nonneg w Hw) as (Nc & _ & _).
  pose proof (product_val_mono _ _ _ (Prim2SF_valid _) (Prim2SF_valid _)
                (Prim2SF_valid _) Nc Ny Nx Hle) as Hmono.
  assert (Hb : (IZR n < 1)%R) by lra. apply lt_IZR in Hb. lia.
Qed.

(** A product that the float comparison finds at most [MAX_DIMENSION]
    gives a dimension that is at most [MAX_DIMENSION]. *)
Lemma within_limit_dimension w x :
  0 <= w < 2 ^ 63 -> nonneg_finite (Prim2SF x) ->
  (PyFloat.int_mul w x <=? PyFloat.of_int MAX_DIMENSION)%float = true ->
  exists n, PyFloat.to_int (PyFloat.int_mul w x) = Ok n /\
            PyFloat.floor (PyFloat.int_mul w x) = Some n /\
            0 <= n <= MAX_DIMENSION.
Proof.
  intros Hw Nx. rewrite FloatAxioms.leb_spec, Prim2SF_MAX_DIMENSION.
  pose proof (int_mul_nonneg w x Hw Nx) as Hs.
  pose proof (Prim2SF_valid (PyFloat.int_mul w x)) as Hv.
  intros Hle.
  assert (Nf : nonneg_finite (Prim2SF (PyFloat.int_mul w x))).
  { destruct (Prim2SF (PyFloat.int_mul w x)) as [s|s| |s m e]; simpl; try tauto.
    subst s. discriminate. }
  destruct (to_int_nonneg_finite _ Nf) as (n & Hn & Hf & Hlo & Hhi).
  exists n. split; [assumption|]. split; [assumption|]. split.
  { apply (to_int_int_mul_nonneg w x); assumption. }
  apply SFleb_val in Hle; [|assumption|reflexivity|assumption|reflexivity].
  cbn [SFval] in Hle.
  assert (H4000 : (IZR 8796093022208000 * bpow (-41) = 4000)%R).
  { replace (bpow (-41)) with (/ bpow 41)%R by (symmetry; apply (bpow_opp 41)).
    rewrite (bpow_IZR 41) by lia. change (2 ^ 41) with 2199023255552. lra. }
  rewrite H4000 in Hle.
  assert (Hb : (IZR n < 4001)%R) by lra. apply lt_IZR in Hb. unfold MAX_DIMENSION. lia.
Qed.

(** ** The dimensions of [process_image] *)

(** An accepted scale factor with which a first dimension is computed is
    positive and finite. *)
Lemma accepted_factor_finite w s n :
  scale_factor_rejected s = false ->
  PyFloat.to_int (PyFloat.int_mul w s) = Ok n ->
  exists m e, Prim2SF s = S754_finite false m e.
Proof.
  intros Hs Hn. destruct (accepted_scale_factor s Hs) as [Hnan|Hfin]; [|exact Hfin].
  exfalso. unfold PyFloat.to_int, PyFloat.int_mul in Hn.
  rewrite FloatAxioms.mul_spec, Hnan in Hn. unfold SF64mul, SFmul in Hn.
  destruct (Prim2SF (PyFloat.of_int w)); discriminate.
Qed.

(** [int] of a product that has no sign is its floor. *)
Lemma to_int_floor w x n :
  0 <= w < 2 ^ 63 -> nonneg_finite (Prim2SF x) ->
  PyFloat.to_int (PyFloat.int_mul w x) = Ok n ->
  PyFloat.floor (PyFloat.int_mul w x) = Some n.
Proof.
  intros Hw Nx. pose proof (int_mul_nonneg w x Hw Nx) as Hs.
  unfold PyFloat.to_int, PyFloat.floor.
  destruct (Prim2SF (PyFloat.int_mul w x)) as [s|s| |s m e]; try discriminate.
  - now intros [= <-].
  - subst s. now intros [= <-].
Qed.

(** A scale factor in (0, 4]. *)
Lemma in_range_scale_factor s :
  (0 <? s)%float = true -> (s <=? 4)%float = true ->
  scale_factor_rejected s = false /\ exists m e, Prim2SF s = S754_finite false m e.
Proof.
  unfold scale_factor_rejected, PyFloat.gtb.
  rewrite !FloatAxioms.leb_spec, !FloatAxioms.ltb_spec.
  pose proof (Prim2SF_valid s) as Hv.
  replace (Prim2SF 0) with (S754_zero false) by reflexivity.
  replace (Prim2SF 4) with (S754_finite false 4503599627370496 (-50)) by reflexivity.
  destruct (Prim2SF s) as [[]|[]| |[] m e]; intros H0 H4; try discriminate.
  split; [|eauto]. apply orb_false_iff. split; [reflexivity|].
  destruct (SFltb (S754_finite false 4503599627370496 (-50)) (S754_finite false m e)) eqn:Hlt;
    [|reflexivity].
  apply SFltb_val in Hlt; [|reflexivity|assumption|reflexivity|reflexivity].
  apply SFleb_val in H4; [|assumption|reflexivity|reflexivity|reflexivity]. lra.
Qed.

(** Lines 165-176, for an accepted scale factor: what a result of
    [target_dimensions] is. *)
Lemma target_dimensions_clamped w h s s' nw nh :
  0 <= w < 2 ^ 63 -> 0 <= h < 2 ^ 63 ->
  scale_factor_rejected s = false ->
  target_dimensions w h s = Ok (s', nw, nh) ->
  exists new_width new_height,
    PyFloat.to_int (PyFloat.int_mul w s) = Ok new_width /\
    PyFloat.to_int (PyFloat.int_mul h s) = Ok new_height /\
    PyFloat.floor (PyFloat.int_mul w s) = Some new_width /\
    PyFloat.floor (PyFloat.int_mul h s) = Some new_height /\
    (if (new_width >? MAX_DIMENSION) || (new_height >? MAX_DIMENSION) then
       exists max_scale_w max_scale_h,
         PyFloat.int_truediv MAX_DIMENSION w = Ok max_scale_w /\
         PyFloat.int_truediv MAX_DIMENSION h = Ok max_scale_h /\
         s' = PyFloat.min3 max_scale_w max_scale_h s
     else s' = s) /\
    PyFloat.to_int (PyFloat.int_mul w s') = Ok nw /\
    PyFloat.to_int (PyFloat.int_mul h s') = Ok nh /\
    PyFloat.floor (PyFloat.int_mul w s') = Some nw /\
    PyFloat.floor (PyFloat.int_mul h s') = Some nh /\
    0 <= nw <= MAX_DIMENSION /\ 0 <= nh <= MAX_DIMENSION.
Proof.
  intros Hw Hh Hs. unfold target_dimensions, mbind, result_bind.
  destruct (PyFloat.to_int (PyFloat.int_mul w s)) as [new_width|e] eqn:Hnw; [|discriminate].
  destruct (PyFloat.to_int (PyFloat.int_mul h s)) as [new_height|e] eqn:Hnh; [|discriminate].
  destruct (accepted_factor_finite w s new_width Hs Hnw) as (ms & es & Hfin).
  assert (Ns : nonneg_finite (Prim2SF s)) by now rewrite Hfin.
  destruct ((new_width >? MAX_DIMENSION) || (new_height >? MAX_DIMENSION)) eqn:Hc.
  - unfold PyFloat.int_truediv.
    destruct (Z.eqb_spec w 0) as [|Hw0]; [discriminate|].
    destruct (Z.eqb_spec h 0) as [|Hh0]; [discriminate|].
    set (max_scale_w := (PyFloat.of_int MAX_DIMENSION / PyFloat.of_int w)%float).
    set (max_scale_h := (PyFloat.of_int MAX_DIMENSION / PyFloat.of_int h)%float).
    destruct (truediv_MAX_DIMENSION w ltac:(lia)) as [Nqw _].
    destruct (truediv_MAX_DIMENSION h ltac:(lia)) as [Nqh _].
    fold max_scale_w in Nqw. fold max_scale_h in Nqh.
    destruct (min3_spec max_scale_w max_scale_h s Nqw Nqh Ns) as (Hone & Hlw & Hlh & _).
    set (clamped := PyFloat.min3 max_scale_w max_scale_h s) in *.
    assert (Nc : nonneg_finite (Prim2SF clamped))
      by (destruct Hone as [->|[->| ->]]; assumption).
    destruct (PyFloat.to_int (PyFloat.int_mul w clamped)) as [nw'|e] eqn:Hnw'; [|discriminate].
    destruct (PyFloat.to_int (PyFloat.int_mul h clamped)) as [nh'|e] eqn:Hnh'; [|discriminate].
    intros [= <- <- <-]. exists new_width, new_height.
    rewrite Hc, Hnw', Hnh'.
    repeat split; try reflexivity; try (now apply to_int_floor);
      try (eexists _, _; repeat split; reflexivity).
    + apply (clamped_dimension w clamped nw'); [lia|assumption..].
    + apply (clamped_dimension w clamped nw'); [lia|assumption..].
    + apply (clamped_dimension h clamped nh'); [lia|assumption..].
    + apply (clamped_dimension h clamped nh'); [lia|assumption..].
  - intros [= <- <- <-]. exists new_width, new_height. rewrite Hc.
    apply orb_false_iff in Hc as [Hcw Hch].
    pose proof (to_int_int_mul_nonneg w s new_width Hw Ns Hnw).
    pose proof (to_int_int_mul_nonneg h s new_height Hh Ns Hnh).
    repeat split; try reflexivity; try assumption; try (now apply to_int_floor); lia.
Qed.

(** A first dimension that is 0 stays 0: a result of [target_dimensions]
    has a dimension that is 0. *)
Lemma target_dimensions_zero w h s new_width new_height :
  0 <= w < 2 ^ 63 -> 0 <= h < 2 ^ 63 ->
  scale_factor_rejected s = false ->
  PyFloat.to_int (PyFloat.int_mul w s) = Ok new_width ->
  PyFloat.to_int (PyFloat.int_mul h s) = Ok new_height ->
  new_width = 0 \/ new_height = 0 ->
  match target_dimensions w h s with
  | Ok (_, nw, nh) => nw = 0 \/ nh = 0
  | Raise _ => True
  end.
Proof.
  intros Hw Hh Hs Hnw Hnh Hzero.
  destruct (target_dimensions w h s) as [[[s' nw] nh]|e] eqn:Ht; [|exact I].
  destruct (target_dimensions_clamped w h s s' nw nh Hw Hh Hs Ht)
    as (nw0 & nh0 & Hnw0 & Hnh0 & _ & _ & Hfactor & Hnw' & Hnh' & _).
  rewrite Hnw in Hnw0. rewrite Hnh in Hnh0. injection Hnw0 as <-. injection Hnh0 as <-.
  destruct (accepted_factor_finite w s new_width Hs Hnw) as (ms & es & Hfin).
  assert (Ns : nonneg_finite (Prim2SF s)) by now rewrite Hfin.
  destruct ((new_width >? MAX_DIMENSION) || (new_height >? MAX_DIMENSION)).
  - destruct Hfactor as (max_scale_w & max_scale_h & Hqw & Hqh & ->).
    unfold PyFloat.int_truediv in Hqw, Hqh.
    destruct (Z.eqb_spec w 0) as [|Hw0]; [discriminate|].
    destruct (Z.eqb_spec h 0) as [|Hh0]; [discriminate|].
    injection Hqw as <-. injection Hqh as <-.
    destruct (truediv_MAX_DIMENSION w ltac:(lia)) as [Nqw _].
    destruct (truediv_MAX_DIMENSION h ltac:(lia)) as [Nqh _].
    destruct (min3_spec _ _ s Nqw Nqh Ns) as (Hone & _ & _ & Hle).
    cbv zeta in Hone, Hle.
    set (clamped := PyFloat.min3 _ _ s) in *.
    assert (Nc : nonneg_finite (Prim2SF clamped))
      by (destruct Hone as [->|[->| ->]]; assumption).
    destruct Hzero as [->| ->]; [left|right].
    + exact (zero_dimension_smaller w s clamped nw Hw Ns Nc Hle Hnw Hnw').
    + exact (zero_dimension_smaller h s clamped nh Hh Ns Nc Hle Hnh Hnh').
  - subst s'. rewrite Hnw in Hnw'. rewrite Hnh in Hnh'.
    injection Hnw' as <-. injection Hnh' as <-. assumption.
Qed.

(** ** Claims on the dimensions *)

Lemma dimension_bounded (n : int) : 0 <= Uint63.to_Z n < 2 ^ 63.
Proof. exact (Uint63.to_Z_bounded n). Qed.

Section DimensionClaims.
Context `{PIL} `{Interpreter}.

(** What a result of the transform says of each of its steps. *)
Lemma transform_returns data s w out meta w' :
  transform data s w = (Ok (out, meta), w') ->
  exists img rgb resized sharp,
    Image_open data = Ok img /\ normalize_mode img = Ok rgb /\
    target_dimensions (Uint63.to_Z (fst (size rgb))) (Uint63.to_Z (snd (size rgb))) s
      = Ok (scale_factor meta, fst (processed_size meta), snd (processed_size meta)) /\
    original_size meta = (Uint63.to_Z (fst (size rgb)), Uint63.to_Z (snd (size rgb))) /\
    resize rgb (processed_size meta) = Ok resized /\
    unsharp_mask resized 1 150 3 = Ok sharp /\
    save_jpeg sharp (Some 95) true = Ok out.
Proof.
  unfold transform, mbind, M_bind, lift, logger_info, mret, M_ret.
  destruct (Image_open data) as [img|e]; [|discriminate].
  destruct (normalize_mode img) as [rgb|e] eqn:Hmode; [|discriminate]. cbv zeta.
  destruct (target_dimensions _ _ s) as [[[s' nw] nh]|e] eqn:Hdims; [|discriminate]. simpl.
  destruct (resize rgb (nw, nh)) as [resized|e] eqn:Hresize; [|discriminate].
  destruct (unsharp_mask resized 1 150 3) as [sharp|e] eqn:Hsharp; [|discriminate].
  destruct (save_jpeg sharp (Some 95) true) as [output|e] eqn:Hsave; [|discriminate].
  intros [= <- <- _]. exists img, rgb, resized, sharp. simpl. auto 10.
Qed.

Lemma process_image_returns data s w out meta w' :
  process_image data s w = (Ok (out, meta), w') ->
  transform data s w = (Ok (out, meta), w').
Proof.
  rewrite process_image_of_transform.
  destruct (transform data s w) as [[a|cause] w0]; [|discriminate]. now intros [= -> ->].
Qed.

(** C1.  For an accepted scale factor [s] and a payload that
    [process_image] turns into an image: the payload is decoded and
    normalised; with the floors [new_width] and [new_height] of the products
    of the original dimensions and [s] (binary64 products, as the code
    computes them), the [scale_factor] of the metadata is
    [min(4000 / width, 4000 / height, s)] when one of the two exceeds 4000
    and [s] otherwise; the [processed_size] of the metadata is the pair of
    the floors of the products of the original dimensions and that factor;
    both are at most 4000; and [resize] was called with them. *)
Theorem processed_dimensions_within_limit data s w out meta w'
    (Hscale : scale_factor_rejected s = false)
    (Hrun : process_image data s w = (Ok (out, meta), w')) :
  exists img rgb,
    Image_open data = Ok img /\ normalize_mode img = Ok rgb /\
    let original_width := Uint63.to_Z (fst (size rgb)) in
    let original_height := Uint63.to_Z (snd (size rgb)) in
    (exists new_width new_height,
       PyFloat.floor (PyFloat.int_mul original_width s) = Some new_width /\
       PyFloat.floor (PyFloat.int_mul original_height s) = Some new_height /\
       if (new_width >? MAX_DIMENSION) || (new_height >? MAX_DIMENSION) then
         exists max_scale_w max_scale_h,
           PyFloat.int_truediv MAX_DIMENSION original_width = Ok max_scale_w /\
           PyFloat.int_truediv MAX_DIMENSION original_height = Ok max_scale_h /\
           scale_factor meta = PyFloat.min3 max_scale_w max_scale_h s
       else scale_factor meta = s) /\
    PyFloat.floor (PyFloat.int_mul original_width (scale_factor meta))
      = Some (fst (processed_size meta)) /\
    PyFloat.floor (PyFloat.int_mul original_height (scale_factor meta))
      = Some (snd (processed_size meta)) /\
    fst (processed_size meta) <= MAX_DIMENSION /\
    snd (processed_size meta) <= MAX_DIMENSION /\
    exists resized, resize rgb (processed_size meta) = Ok resized.
Proof.
  apply process_image_returns, transform_returns in Hrun
    as (img & rgb & resized & sharp & Hopen & Hmode & Hdims & _ & Hresize & _).
  exists img, rgb. split; [assumption|]. split; [assumption|]. cbv zeta.
  destruct (target_dimensions_clamped _ _ _ _ _ _ (dimension_bounded _)
              (dimension_bounded _) Hscale Hdims)
    as (new_width & new_height & _ & _ & Hfw & Hfh & Hfactor & _ & _ & Hw' & Hh' & Hbw & Hbh).
  split; [|split; [assumption|split; [assumption|split; [lia|split; [lia|eauto]]]]].
  exists new_width, new_height. auto.
Qed.

(** C8.  For a scale factor [s] in (0, 4] and original dimensions whose
    products with [s] (binary64 products, as the code computes them) are at
    most 4000: [s] is accepted, the dimensions are the floors of the two
    products and the factor is [s] itself; the metadata of a processed image
    of these dimensions reports them and [s]. *)
Theorem no_clamping_within_limit (original_width original_height : int) (s : float)
    (Hpos : (0 <? s)%float = true) (Hmax : (s <=? 4)%float = true)
    (Hwidth : (PyFloat.int_mul (Uint63.to_Z original_width) s
               <=? PyFloat.of_int MAX_DIMENSION)%float = true)
    (Hheight : (PyFloat.int_mul (Uint63.to_Z original_height) s
                <=? PyFloat.of_int MAX_DIMENSION)%float = true) :
  scale_factor_rejected s = false /\
  exists new_width new_height,
    PyFloat.floor (PyFloat.int_mul (Uint63.to_Z original_width) s) = Some new_width /\
    PyFloat.floor (PyFloat.int_mul (Uint63.to_Z original_height) s) = Some new_height /\
    target_dimensions (Uint63.to_Z original_width) (Uint63.to_Z original_height) s
      = Ok (s, new_width, new_height) /\
    forall data img rgb w out meta w',
      Image_open data = Ok img -> normalize_mode img = Ok rgb ->
      size rgb = (original_width, original_height) ->
      process_image data s w = (Ok (out, meta), w') ->
      scale_factor meta = s /\ processed_size meta = (new_width, new_height).
Proof.
  destruct (in_range_scale_factor s Hpos Hmax) as (Hscale & ms & es & Hfin).
  split; [assumption|].
  assert (Ns : nonneg_finite (Prim2SF s)) by now rewrite Hfin.
  destruct (within_limit_dimension _ s (dimension_bounded original_width) Ns Hwidth)
    as (new_width & Hnw & Hfw & Hbw).
  destruct (within_limit_dimension _ s (dimension_bounded original_height) Ns Hheight)
    as (new_height & Hnh & Hfh & Hbh).
  assert (Hdims : target_dimensions (Uint63.to_Z original_width)
                    (Uint63.to_Z original_height) s = Ok (s, new_width, new_height)).
  { unfold target_dimensions, mbind, result_bind. rewrite Hnw, Hnh.
    destruct (Z.gtb_spec new_width MAX_DIMENSION); [lia|].
    destruct (Z.gtb_spec new_height MAX_DIMENSION); [lia|]. reflexivity. }
  exists new_width, new_height. split; [assumption|]. split; [assumption|].
  split; [assumption|].
  intros data img rgb w out meta w' Hopen Hmode Hsize Hrun.
  apply process_image_returns, transform_returns in Hrun
    as (img0 & rgb0 & _ & _ & Hopen0 & Hmode0 & Hdims0 & _).
  rewrite Hopen in Hopen0. injection Hopen0 as <-.
  rewrite Hmode in Hmode0. injection Hmode0 as <-.
  rewrite Hsize in Hdims0. simpl in Hdims0. rewrite Hdims in Hdims0.
  injection Hdims0 as Hs Hw Hh. split; [now symmetry|].
  destruct (processed_size meta). simpl in *. congruence.
Qed.

End DimensionClaims.

(** ** A dimension that is 0 *)

(** 0.001 as a binary64 float ([float('0.001')]) is accepted, and takes
    every width below 1000 to 0. *)
Definition one_thousandth : float := 0x1.0624dd2f1a9fcp-10%float.

Lemma one_thousandth_floor w :
  0 <= w < 1000 -> PyFloat.floor (PyFloat.int_mul w one_thousandth) = Some 0.
Proof.
  intros Hw.
  assert (Hall : forallb (fun n => match PyFloat.floor
                                           (PyFloat.int_mul (Z.of_nat n) one_thousandth) with
                                   | Some 0 => true
                                   | _ => false
                                   end) (seq 0 1000) = true)
    by (vm_compute; reflexivity).
  rewrite forallb_forall in Hall. specialize (Hall (Z.to_nat w)).
  rewrite Z2Nat.id in Hall by lia.
  destruct (PyFloat.floor (PyFloat.int_mul w one_thousandth)) as [[| |]|];
    try reflexivity; (discriminate Hall; apply in_seq; lia).
Qed.

Section ZeroDimension.
Context `{PIL} `{Interpreter}.

(** [Image.resize] raises [ValueError] ("height and width must be > 0")
    for a size with a dimension below 1. *)
Hypothesis resize_positive :
  forall (img : image) (sz : Z * Z),
    fst sz < 1 \/ snd sz < 1 -> exists e, resize img sz = Raise e.

Lemma transform_zero_dimension data s w img rgb :
  scale_factor_rejected s = false ->
  Image_open data = Ok img -> normalize_mode img = Ok rgb ->
  PyFloat.floor (PyFloat.int_mul (Uint63.to_Z (fst (size rgb))) s) = Some 0 \/
  PyFloat.floor (PyFloat.int_mul (Uint63.to_Z (snd (size rgb))) s) = Some 0 ->
  exists cause, fst (transform data s w) = Raise cause.
Proof.
  intros Hscale Hopen Hmode Hzero.
  unfold transform, mbind, M_bind, lift, logger_info. rewrite Hopen, Hmode. cbv zeta.
  pose proof (dimension_bounded (fst (size rgb))) as Hw.
  pose proof (dimension_bounded (snd (size rgb))) as Hh.
  destruct (target_dimensions _ _ s) as [[[s' nw] nh]|e] eqn:Hdims; [|simpl; eauto].
  destruct (target_dimensions_clamped _ _ _ _ _ _ Hw Hh Hscale Hdims)
    as (new_width & new_height & Hnw & Hnh & Hfw & Hfh & _).
  assert (Hfirst : new_width = 0 \/ new_height = 0).
  { destruct Hzero as [Hz|Hz]; [left; rewrite Hfw in Hz|right; rewrite Hfh in Hz];
      now injection Hz. }
  pose proof (target_dimensions_zero _ _ _ _ _ Hw Hh Hscale Hnw Hnh Hfirst) as Hz.
  rewrite Hdims in Hz.
  destruct (resize_positive rgb (nw, nh)) as [e He]; [simpl; lia|].
  simpl. rewrite He. simpl. eauto.
Qed.

(** C9.  0.001 is an accepted scale factor and takes every width (or
    height) below 1000 to 0.  For every request whose scale factor is
    accepted, whose file passes the validation, is read and not too large
    and is decoded, and for which the floor of the product of the width or
    of the height and the scale factor is 0: the transform raises, it
    produces no image; [upscale_image] raises the 422 "processing failed"
    exception and the response has status 422. *)
Theorem zero_dimension_is_422 :
  (scale_factor_rejected one_thousandth = false /\
   forall w, 0 <= w < 1000 ->
     PyFloat.floor (PyFloat.int_mul w one_thousandth) = Some 0) /\
  forall file s w data msg img rgb,
    scale_factor_rejected s = false ->
    fst (validate_image_file file w) = Ok (true, msg) ->
    read file = ReadBytes data ->
    Z.of_nat (length data) <= MAX_FILE_SIZE ->
    Image_open data = Ok img -> normalize_mode img = Ok rgb ->
    PyFloat.floor (PyFloat.int_mul (Uint63.to_Z (fst (size rgb))) s) = Some 0 \/
    PyFloat.floor (PyFloat.int_mul (Uint63.to_Z (snd (size rgb))) s) = Some 0 ->
    exists cause,
      fst (transform data s w) = Raise cause /\
      fst (upscale_image file s w)
        = Raise (HTTPException 422 ("Image processing failed: " ++ str cause)) /\
      exists r, fst (call_endpoint (PostUpscale file s) w) = Ok r /\
                status_code r = 422.
Proof.
  split; [split; [reflexivity|exact one_thousandth_floor]|].
  intros file s w data msg img rgb Hscale Hvalid Hread Hsize Hopen Hmode Hzero.
  destruct (transform_zero_dimension data s w img rgb Hscale Hopen Hmode Hzero)
    as [cause Hfail].
  exists cause. split; [assumption|].
  destruct (failed_transform_response file s w data msg cause Hscale Hvalid Hread
              Hsize Hfail) as (_ & Hup & r & Hr & Hs & _).
  split; [assumption|]. now exists r.
Qed.

End ZeroDimension.

Section DimensionExamples.
#[local] Existing Instance Raster.backend.
#[local] Existing Instance Raster.interpreter.

Lemma processed_dimensions_within_limit_witness :
  exists out meta w',
    process_image (Raster.file_bytes Byte.x01 3000 3000) 2%float Raster.empty_world
      = (Ok (out, meta), w') /\
    processed_size meta = (4000, 4000) /\
    fst (processed_size meta) <= MAX_DIMENSION /\
    snd (processed_size meta) <= MAX_DIMENSION.
Proof.
  destruct (process_image (Raster.file_bytes Byte.x01 3000 3000) 2%float Raster.empty_world)
    as [[[out meta]|e] w'] eqn:Hrun.
  - exists out, meta, w'. split; [reflexivity|].
    destruct (processed_dimensions_within_limit (Raster.file_bytes Byte.x01 3000 3000)
                2%float Raster.empty_world out meta w' eq_refl Hrun)
      as (img & rgb & _ & _ & _ & _ & _ & Hw & Hh & _).
    split; [|split; assumption].
    vm_compute in Hrun. now injection Hrun as _ <- _.
  - vm_compute in Hrun. discriminate.
Defined.

Lemma no_clamping_within_limit_witness :
  scale_factor_rejected 2%float = false /\
  target_dimensions 1000 500 2%float = Ok (2%float, 2000, 1000).
Proof.
  destruct (no_clamping_within_limit 1000%uint63 500%uint63 2%float
              eq_refl eq_refl eq_refl eq_refl)
    as (Hscale & new_width & new_height & Hfw & Hfh & Hdims & _).
  split; [exact Hscale|].
  vm_compute in Hfw. injection Hfw as <-. vm_compute in Hfh. injection Hfh as <-.
  exact Hdims.
Defined.

Lemma Raster_resize_positive (img : image) (sz : Z * Z) :
  fst sz < 1 \/ snd sz < 1 -> exists e, resize img sz = Raise e.
Proof.
  intros Hsz. simpl. unfold Raster.resample.
  destruct (Z.ltb_spec (fst sz) 1), (Z.ltb_spec (snd sz) 1); simpl; eauto; lia.
Qed.

Lemma zero_dimension_is_422_witness :
  exists r,
    fst (call_endpoint (PostUpscale (Raster.png 100 100) one_thousandth)
           Raster.empty_world) = Ok r /\
    status_code r = 422.
Proof.
  destruct (proj2 (zero_dimension_is_422 Raster_resize_positive)
              (Raster.png 100 100) one_thousandth Raster.empty_world
              (Raster.file_bytes Byte.x01 100 100) ""
              (Raster.Raster "RGB" (100%uint63, 100%uint63))
              (Raster.Raster "RGB" (100%uint63, 100%uint63))
              eq_refl eq_refl eq_refl)
    as (cause & _ & _ & r & Hr & Hs).
  - vm_compute. discriminate.
  - reflexivity.
  - reflexivity.
  - left. reflexivity.
  - now exists r.
Defined.

End DimensionExamples.

(** The products above are binary64 products: [int(10 * 0.3)] is 3, though
    the float 0.3 is below 3/10 and the floor of the exact product is 2. *)
Lemma int_mul_is_rounded :
  Prim2SF 0x1.3333333333333p-2 = S754_finite false 5404319552844595 (-54) /\
  10 * 5404319552844595 < 3 * 2 ^ 54 /\
  PyFloat.to_int (PyFloat.int_mul 10 0x1.3333333333333p-2) = Ok 3.
Proof. repeat split. Qed.

(** * Further properties of the application *)

(** ** The middleware on any request *)

Lemma recent_requests_length now timestamps :
  (length (recent_requests now timestamps) <= length timestamps)%nat.
Proof.
  unfold recent_requests. induction timestamps as [|t ts IH]; simpl; [lia|].
  destruct (now - t <? RATE_LIMIT_WINDOW)%float; simpl; lia.
Qed.

Section MiddlewareInvariants.
Context `{PIL} `{Interpreter}.

(** The rate limiter's table after a request, whatever the route. *)
Lemma app_counts req w :
  exists admitted,
    request_counts (snd (app req w))
      = counts_after admitted (client_host req) (time_now req) (request_counts w) /\
    (admitted = true <->
     Z.of_nat (length (recent_requests (time_now req)
                         (request_counts w !!! client_host req))) < RATE_LIMIT_REQUESTS).
Proof.
  destruct (Z_lt_ge_dec
              (Z.of_nat (length (recent_requests (time_now req)
                                   (request_counts w !!! client_host req))))
              RATE_LIMIT_REQUESTS) as [Hroom|Hfull].
  - destruct (app_admit req w Hroom) as (r & w' & -> & _ & Hc).
    exists true. simpl. split; [assumption|tauto].
  - rewrite app_reject by lia. exists false. simpl. split; [reflexivity|].
    split; [discriminate|lia].
Qed.

(** The requests that the router hands to a handler of [app.py]. *)
Definition handled (target : endpoint) : bool :=
  match target with
  | GetRoot | GetHealth | PostUpscale _ _ => true
  | _ => false
  end.

Lemma handler_returns target w :
  handled target = true ->
  exists r w', call_endpoint target w = (Ok r, w') /\
               In (status_code r) [200; 400; 413; 422; 500; 503].
Proof.
  unfold call_endpoint, try_except.
  destruct target as [| |file s| |allow|location]; try discriminate; intros _.
  - simpl. eexists _, _. split; [reflexivity|]. simpl. tauto.
  - unfold health_check, try_except, mbind, M_bind, lift, mret, M_ret, logger_error.
    destruct (Image_new _ _ _) as [img|e]; [destruct (save_jpeg _ _ _) as [out|e]|];
      simpl; (eexists _, _; split; [reflexivity|]); simpl; tauto.
  - pose proof (upscale_image_outcome file s w) as Ho.
    destruct (upscale_image file s w) as [[r|e] w1]; simpl in *.
    + eexists _, _. split; [reflexivity|]. rewrite Ho. simpl. tauto.
    + destruct e; try contradiction. eexists _, _. split; [reflexivity|].
      rewrite http_exception_response_status. simpl in *. tauto.
Qed.

(** X1.  Every request that the router hands to one of the three handlers
    of [app.py] is answered by them and the middleware: no exception leaves
    the middleware, so the server's plain 500 is not needed, and the status
    is one of 200, 400, 413, 422, 429, 500 and 503. *)
Theorem app_always_responds req w
    (Hhandled : handled (target req) = true) :
  exists r w',
    add_security_headers req (fun r => call_endpoint (target r)) w = (Ok r, w') /\
    app req w = (r, w') /\
    In (status_code r) [200; 400; 413; 422; 429; 500; 503].
Proof.
  destruct (Z_lt_ge_dec
              (Z.of_nat (length (recent_requests (time_now req)
                                   (request_counts w !!! client_host req))))
              RATE_LIMIT_REQUESTS) as [Hroom|Hfull].
  - unfold app. rewrite add_security_headers_admit by assumption.
    unfold mbind, M_bind.
    destruct (handler_returns (target req)
                (World (counts_after true (client_host req) (time_now req) (request_counts w))
                       (log w)) Hhandled) as (r & w' & -> & Hs).
    eexists _, _. split; [reflexivity|]. split; [reflexivity|].
    rewrite with_security_headers_status. simpl in *. tauto.
  - unfold app. rewrite add_security_headers_reject by lia.
    eexists _, _. split; [reflexivity|]. split; [reflexivity|]. simpl. tauto.
Qed.

(** X2.  The limit is per client address: the requests of other clients leave
    the recorded timestamps of a client as they are. *)
Theorem serve_other_clients reqs : forall w client_ip,
  Forall (fun req => client_host req <> client_ip) reqs ->
  request_counts (snd (serve reqs w)) !!! client_ip = request_counts w !!! client_ip.
Proof.
  induction reqs as [|req reqs IH]; intros w client_ip Hother; [reflexivity|].
  inversion Hother as [|? ? Hreq Hother']; subst. simpl.
  destruct (app_counts req w) as (admitted & Hc & _).
  destruct (app req w) as [r w1]. simpl in Hc.
  specialize (IH w1 client_ip Hother'). destruct (serve reqs w1) as [rs w2]. simpl in *.
  rewrite IH, Hc. unfold counts_after. now rewrite lookup_total_insert_ne.
Qed.

(** X3.  The table holds at most ten timestamps for a client: a bound that holds
    for every client before a trace of requests holds after it. *)
Theorem serve_keeps_bound reqs : forall w,
  (forall client_ip, Z.of_nat (length (request_counts w !!! client_ip)) <= RATE_LIMIT_REQUESTS) ->
  forall client_ip,
    Z.of_nat (length (request_counts (snd (serve reqs w)) !!! client_ip))
      <= RATE_LIMIT_REQUESTS.
Proof.
  induction reqs as [|req reqs IH]; intros w Hbound client_ip; [apply Hbound|].
  simpl. destruct (app_counts req w) as (admitted & Hc & Hadm).
  destruct (app req w) as [r w1]. simpl in Hc.
  specialize (IH w1). destruct (serve reqs w1) as [rs w2]. simpl in *.
  apply IH. intros ip. rewrite Hc. unfold counts_after.
  destruct (decide (client_host req = ip)) as [<-|Hne].
  - rewrite lookup_total_insert_eq.
    pose proof (recent_requests_length (time_now req) (request_counts w !!! client_host req)).
    specialize (Hbound (client_host req)).
    destruct admitted.
    + rewrite length_app. simpl. destruct Hadm as [Hadm _]. specialize (Hadm eq_refl). lia.
    + lia.
  - rewrite lookup_total_insert_ne by assumption. apply Hbound.
Qed.

(** X4.  The middleware is transparent for the requests it admits: it gives
    the response of the rest of the application with its status, its body
    and its own headers, the five security headers set; an exception of
    the rest of the application goes through. *)
Theorem add_security_headers_transparent req call_next w
    (Hroom : Z.of_nat (length (recent_requests (time_now req)
                                 (request_counts w !!! client_host req)))
             < RATE_LIMIT_REQUESTS) :
  let w0 := World (counts_after true (client_host req) (time_now req) (request_counts w))
                  (log w) in
  match call_next req w0 with
  | (Ok r0, w') =>
      exists r, add_security_headers req call_next w = (Ok r, w') /\
                status_code r = status_code r0 /\ content r = content r0 /\
                has_security_headers r /\
                forall k, ~ In k (List.map fst security_headers) ->
                          headers r !! k = headers r0 !! k
  | (Raise e, w') => add_security_headers req call_next w = (Raise e, w')
  end.
Proof.
  intros w0. rewrite add_security_headers_admit by assumption.
  unfold mbind, M_bind. fold w0. destruct (call_next req w0) as [[r0|e] w']; [|reflexivity].
  exists (with_security_headers r0). split; [reflexivity|].
  split; [reflexivity|]. split; [reflexivity|]. split; [apply with_security_headers_has|].
  intros k Hk. simpl in Hk. unfold with_security_headers, set_header. simpl.
  rewrite !lookup_insert_ne; [reflexivity|intros <-; tauto..].
Qed.

End MiddlewareInvariants.

(** ** The headers of the image response *)

Lemma string_of_list_ascii_app (a b : list ascii) :
  string_of_list_ascii (a ++ b) = string_of_list_ascii a ++ string_of_list_ascii b.
Proof. induction a as [|c a IH]; simpl; [reflexivity|now rewrite IH]. Qed.

Lemma list_ascii_of_string_app (a b : string) :
  list_ascii_of_string (a ++ b) = (list_ascii_of_string a ++ list_ascii_of_string b)%list.
Proof. induction a as [|c a IH]; simpl; [reflexivity|now rewrite IH]. Qed.

Lemma append_empty_r (s : string) : s ++ "" = s.
Proof.
  induction s as [|c s IH]; [reflexivity|].
  change (String c (s ++ "") = String c s). now rewrite IH.
Qed.

Definition ascii_only (s : string) : bool :=
  forallb (fun c => (N_of_ascii c <? 128)%N) (list_ascii_of_string s).

Lemma find_unencodable_None pos cps :
  find_unencodable pos cps = None <->
  forallb (fun cp => negb (unencodable cp)) cps = true.
Proof.
  revert pos. induction cps as [|cp rest IH]; intros pos; simpl; [tauto|].
  destruct (unencodable cp); simpl; [split; discriminate|apply IH].
Qed.

Lemma latin1_encodable_forallb s :
  latin1_encodable s
  = forallb (fun cp => negb (unencodable cp)) (utf8_decode (list_ascii_of_string s)).
Proof.
  unfold latin1_encodable.
  pose proof (find_unencodable_None 0 (utf8_decode (list_ascii_of_string s))) as [Hn Hf].
  destruct (find_unencodable 0 _) as [found|].
  - destruct (forallb _ _); [|reflexivity]. now specialize (Hf eq_refl).
  - now rewrite Hn.
Qed.

Lemma utf8_decode_ascii c rest :
  (N_of_ascii c <? 128)%N = true ->
  utf8_decode (c :: rest) = N_of_ascii c :: utf8_decode rest.
Proof.
  intros Hc. unfold utf8_decode at 1; fold utf8_decode. cbv zeta.
  rewrite Hc. reflexivity.
Qed.

Lemma utf8_decode_ascii_app p rest :
  forallb (fun c => (N_of_ascii c <? 128)%N) p = true ->
  utf8_decode (p ++ rest) = (List.map N_of_ascii p ++ utf8_decode rest)%list.
Proof.
  induction p as [|c p IH]; [reflexivity|]. intros Hp.
  apply andb_true_iff in Hp as [Hc Hp].
  rewrite <- app_comm_cons, (utf8_decode_ascii c _ Hc), (IH Hp). reflexivity.
Qed.

(** A text of ASCII characters before a text does not change whether it can
    be encoded. *)
Lemma latin1_encodable_app p s :
  ascii_only p = true -> latin1_encodable (p ++ s) = latin1_encodable s.
Proof.
  intros Hp. rewrite !latin1_encodable_forallb, list_ascii_of_string_app.
  rewrite utf8_decode_ascii_app by exact Hp. rewrite forallb_app.
  replace (forallb (fun cp => negb (unencodable cp))
             (List.map N_of_ascii (list_ascii_of_string p))) with true; [reflexivity|].
  symmetry. apply forallb_forall. intros cp Hin.
  apply in_map_iff in Hin as (c & <- & Hc).
  unfold ascii_only in Hp. rewrite forallb_forall in Hp. specialize (Hp c Hc).
  apply N.ltb_lt in Hp. unfold unencodable. apply negb_true_iff, N.leb_gt. lia.
Qed.

Lemma ascii_only_encodable p : ascii_only p = true -> latin1_encodable p = true.
Proof.
  intros Hp. rewrite <- (append_empty_r p), (latin1_encodable_app p "" Hp). reflexivity.
Qed.

Lemma encode_latin1_encodable s : latin1_encodable s = true -> encode_latin1 s = Ok tt.
Proof.
  unfold latin1_encodable, encode_latin1.
  now destruct (find_unencodable 0 _) as [[[start badchar] len]|].
Qed.

Lemma encode_latin1_unencodable s :
  latin1_encodable s = false -> exists msg, encode_latin1 s = Raise (UnicodeEncodeError msg).
Proof.
  unfold latin1_encodable, encode_latin1.
  destruct (find_unencodable 0 _) as [[[start badchar] len]|]; [eauto|discriminate].
Qed.

(** The [headers] of the response of [upscale_image]. *)
Definition upscale_headers (file : UploadFile) (metadata : metadata)
    : list (string * header_value) :=
  [("Content-Disposition",
    Text ("attachment; filename=" ++ "upscaled_" ++ format_filename file));
   ("X-Image-Metadata", MetadataRepr metadata);
   ("X-Original-Filename", Text (filename_or_unknown file));
   ("X-Processing-Status", Text "success")].

(** The headers are encoded when the file name, if there is one, has no
    character above U+00FF. *)
Lemma upscale_headers_encodable file metadata :
  (forall name, filename file = Some name -> latin1_encodable name = true) ->
  encode_headers (upscale_headers file metadata) = Ok tt.
Proof.
  intros Hname. unfold upscale_headers. cbn [encode_headers].
  unfold mbind, result_bind.
  assert (Hformat : latin1_encodable (format_filename file) = true).
  { unfold format_filename. destruct (filename file) as [name|]; [now apply Hname|].
    reflexivity. }
  assert (Hunknown : latin1_encodable (filename_or_unknown file) = true).
  { unfold filename_or_unknown. destruct (filename file) as [name|]; [|reflexivity].
    destruct (String.eqb name ""); [reflexivity|now apply Hname]. }
  rewrite (encode_latin1_encodable (lower "Content-Disposition")) by reflexivity.
  rewrite (encode_latin1_encodable ("attachment; filename=" ++ "upscaled_" ++ _)).
  2:{ rewrite !latin1_encodable_app by reflexivity. exact Hformat. }
  rewrite (encode_latin1_encodable (lower "X-Image-Metadata")) by reflexivity.
  rewrite (encode_latin1_encodable (lower "X-Original-Filename")) by reflexivity.
  rewrite (encode_latin1_encodable _ Hunknown).
  rewrite (encode_latin1_encodable (lower "X-Processing-Status")) by reflexivity.
  rewrite (encode_latin1_encodable "success") by reflexivity.
  reflexivity.
Qed.

(** They are not when the file name has such a character: the value of
    [Content-Disposition] is the first that fails. *)
Lemma upscale_headers_unencodable file metadata name :
  filename file = Some name -> latin1_encodable name = false ->
  exists msg, encode_headers (upscale_headers file metadata)
              = Raise (UnicodeEncodeError msg).
Proof.
  intros Hfile Hname. unfold upscale_headers, format_filename. rewrite Hfile.
  cbn [encode_headers]. unfold mbind, result_bind.
  rewrite (encode_latin1_encodable (lower "Content-Disposition")) by reflexivity.
  destruct (encode_latin1_unencodable ("attachment; filename=" ++ "upscaled_" ++ name))
    as [msg ->]; [|eauto].
  rewrite !latin1_encodable_app by reflexivity. exact Hname.
Qed.

(** ** The answers of [POST /upscale] *)

Section UpscaleOutcomes.
Context `{PIL} `{Interpreter}.

(** [upscale_image] after the two checks, for a file that is read. *)
Lemma upscale_image_read file s w msg w1 data :
  scale_factor_rejected s = false ->
  validate_image_file file w = (Ok (true, msg), w1) ->
  read file = ReadBytes data ->
  Z.of_nat (length data) <= MAX_FILE_SIZE ->
  upscale_image file s w =
    let w2 := World (request_counts w1)
                (log w1 ++ [LogInfo ("Processing image: " ++ format_filename file ++ " ("
                                     ++ pretty (Z.of_nat (length data)) ++ " bytes)")]) in
    match process_image data s w2 with
    | (Ok (processed_image, metadata), w3) =>
        match StreamingResponse processed_image "image/jpeg"
                (upscale_headers file metadata) with
        | Ok response =>
            (Ok response,
             World (request_counts w3)
               (log w3 ++ [LogInfoRepr "Successfully processed image: " metadata]))
        | Raise e =>
            if is_HTTPException e then (Raise e, w3)
            else (Raise (HTTPException 500 "Internal server error during image processing"),
                  World (request_counts w3)
                    (log w3 ++ [LogError ("Unexpected error processing image: " ++ str e)]))
        end
    | (Raise e, w3) =>
        if is_HTTPException e then (Raise e, w3)
        else (Raise (HTTPException 500 "Internal server error during image processing"),
              World (request_counts w3)
                (log w3 ++ [LogError ("Unexpected error processing image: " ++ str e)]))
    end.
Proof.
  intros Hscale Hvalid Hread Hsize. unfold upscale_image. rewrite Hscale.
  unfold mbind at 1, M_bind at 1. rewrite Hvalid. simpl.
  unfold try_except, mbind at 1, M_bind at 1, lift at 1. rewrite Hread. simpl.
  destruct (Z.gtb_spec (Z.of_nat (length data)) MAX_FILE_SIZE) as [Hgt|_]; [lia|].
  unfold mbind at 1, M_bind at 1, logger_info at 1.
  unfold mbind at 1, M_bind at 1.
  destruct (process_image data s _) as [[[processed_image metadata]|e] w3].
  - unfold mbind at 1, M_bind at 1, lift at 1. fold (upscale_headers file metadata).
    destruct (StreamingResponse processed_image "image/jpeg" (upscale_headers file metadata))
      as [response|e]; [reflexivity|].
    destruct (is_HTTPException e); reflexivity.
  - destruct (is_HTTPException e); reflexivity.
Qed.

Lemma upscale_image_invalid file s w msg w1 :
  scale_factor_rejected s = false ->
  validate_image_file file w = (Ok (false, msg), w1) ->
  upscale_image file s w = (Raise (HTTPException 400 msg), w1).
Proof.
  intros Hscale Hinvalid. unfold upscale_image. rewrite Hscale.
  unfold mbind, M_bind. rewrite Hinvalid. reflexivity.
Qed.

(** X5.  A file that the validator refuses is answered 400 with the validator's
    message as detail; it is not read and nothing is processed: the state is
    the one the validator leaves. *)
Theorem invalid_file_is_400 file s w msg w1
    (Hscale : scale_factor_rejected s = false)
    (Hinvalid : validate_image_file file w = (Ok (false, msg), w1)) :
  call_endpoint (PostUpscale file s) w = (Ok (JSONResponse 400 [("detail", msg)]), w1).
Proof.
  unfold call_endpoint, try_except.
  now rewrite (upscale_image_invalid file s w msg w1 Hscale Hinvalid).
Qed.

(** X6.  A valid file whose bytes are more than [MAX_FILE_SIZE] is answered by
    the handler registered for 413, with the handler's body; nothing is
    processed or logged. *)
Theorem oversized_content_is_413 file s w msg w1 data
    (Hscale : scale_factor_rejected s = false)
    (Hvalid : validate_image_file file w = (Ok (true, msg), w1))
    (Hread : read file = ReadBytes data)
    (Hsize : MAX_FILE_SIZE < Z.of_nat (length data)) :
  call_endpoint (PostUpscale file s) w =
    (Ok (JSONResponse 413 [("detail", "File too large. Maximum size allowed: 10MB");
                           ("error_code", "FILE_TOO_LARGE")]), w1).
Proof.
  unfold call_endpoint, try_except, upscale_image. rewrite Hscale.
  unfold mbind at 1, M_bind at 1. rewrite Hvalid. simpl.
  unfold try_except, mbind at 1, M_bind at 1, lift at 1. rewrite Hread. simpl.
  destruct (Z.gtb_spec (Z.of_nat (length data)) MAX_FILE_SIZE) as [_|Hle]; [|lia].
  reflexivity.
Qed.

(** X7.  The answer is 500 exactly when the scale factor and the file pass the
    checks and either reading the upload raises, or the upload is read, is
    not too large and is processed, and the file name has a character above
    U+00FF, which the headers of the response cannot carry. *)
Theorem internal_error_causes file s w :
  (exists r w', call_endpoint (PostUpscale file s) w = (Ok r, w') /\ status_code r = 500)
  <->
  (scale_factor_rejected s = false /\
   (exists msg, fst (validate_image_file file w) = Ok (true, msg)) /\
   ((exists err, read file = ReadError err) \/
    (exists data out meta name,
       read file = ReadBytes data /\ Z.of_nat (length data) <= MAX_FILE_SIZE /\
       fst (process_image data s w) = Ok (out, meta) /\
       filename file = Some name /\ latin1_encodable name = false))).
Proof.
  destruct (scale_factor_rejected s) eqn:Hscale.
  { split.
    - intros (r & w' & Hr & Hs). unfold call_endpoint, try_except in Hr.
      rewrite rejected_scale_factor_is_400 in Hr by assumption.
      injection Hr as <- _. discriminate.
    - intros [Hfalse _]. discriminate. }
  destruct (validate_image_file_returns file w) as ([is_valid msg] & w1 & Hvalid).
  destruct is_valid.
  2:{ split.
      - intros (r & w' & Hr & Hs).
        unfold call_endpoint, try_except in Hr.
        rewrite (upscale_image_invalid file s w msg w1 Hscale Hvalid) in Hr.
        injection Hr as <- _. discriminate.
      - intros (_ & (msg' & Hv) & _). rewrite Hvalid in Hv. discriminate. }
  assert (Hchecks : exists msg', fst (validate_image_file file w) = Ok (true, msg'))
    by (exists msg; now rewrite Hvalid).
  destruct (read file) as [data|err] eqn:Hread.
  2:{ split; [intros _; split; [reflexivity|]; split; [exact Hchecks|left; eauto]|].
      intros _. unfold call_endpoint, try_except, upscale_image. rewrite Hscale.
      unfold mbind at 1, M_bind at 1. rewrite Hvalid. simpl.
      unfold try_except, mbind at 1, M_bind at 1, lift at 1. rewrite Hread. simpl.
      eexists _, _. split; reflexivity. }
  unfold call_endpoint, try_except.
  destruct (Z_le_gt_dec (Z.of_nat (length data)) MAX_FILE_SIZE) as [Hle|Hgt].
  2:{ unfold upscale_image. rewrite Hscale.
      unfold mbind at 1, M_bind at 1. rewrite Hvalid. simpl.
      unfold try_except, mbind at 1, M_bind at 1, lift at 1. rewrite Hread. simpl.
      destruct (Z.gtb_spec (Z.of_nat (length data)) MAX_FILE_SIZE) as [_|Hle]; [|lia].
      simpl. split.
      - intros (r & w' & [= <- _] & Hs). discriminate.
      - intros (_ & _ & [[err Herr]|(data' & out & meta & name & [= <-] & Hle & _)]);
          [discriminate|lia]. }
  rewrite (upscale_image_read file s w msg w1 data Hscale Hvalid Hread Hle). cbv zeta.
  match goal with |- context [process_image data s ?w2] =>
    pose proof (logs_only_result (process_image data s) w2 w
                  (logs_only_process_image data s)) as Hres;
    destruct (process_image data s w2) as [[[processed_image metadata]|e] w3] eqn:Hp
  end; simpl in Hres.
  2:{ apply process_image_raises in Hp as [cause ->]. simpl. split.
      - intros (r & w' & [= <- _] & Hs). discriminate.
      - intros (_ & _ & [[err Herr]|(data' & out & meta & name & [= <-] & _ & Hrun & _)]);
          [discriminate|]. rewrite Hrun in Hres. discriminate. }
  assert (Hname : (forall name, filename file = Some name -> latin1_encodable name = true) \/
                  exists name, filename file = Some name /\ latin1_encodable name = false).
  { destruct (filename file) as [name|]; [|left; discriminate].
    destruct (latin1_encodable name) eqn:Hn; [left; now intros ? [= <-]|right; eauto]. }
  pose proof (StreamingResponse_inv processed_image "image/jpeg"
                (upscale_headers file metadata)) as Hresp.
  destruct Hname as [Hname|(name & Hfile & Hname)].
  - rewrite (upscale_headers_encodable file metadata Hname) in Hresp.
    destruct (StreamingResponse _ _ _) as [response|e]; [|now destruct Hresp].
    destruct Hresp as [_ ->]. split.
    + intros (r & w' & [= <- _] & Hs). discriminate.
    + intros (_ & _ & [[err Herr]|(_ & _ & _ & name & _ & _ & _ & Hfile & Hn)]);
        [discriminate|]. rewrite (Hname name Hfile) in Hn. discriminate.
  - destruct (upscale_headers_unencodable file metadata name Hfile Hname) as [text Hh].
    rewrite Hh in Hresp.
    destruct (StreamingResponse _ _ _) as [response|e]; [now destruct Hresp|].
    destruct Hresp as [[= <-] _]. simpl. split.
    + intros _. split; [reflexivity|]. split; [exact Hchecks|]. right.
      exists data, processed_image, metadata, name. now rewrite <- Hres.
    + intros _. eexists _, _. split; reflexivity.
Qed.

(** X8.  A request that passes the checks, whose upload is read and is not too
    large, for which [process_image] returns and whose file name, if it has
    one, has no character above U+00FF: the answer is 200, its body is the
    bytes of [process_image], its media type is image/jpeg, and its four
    headers carry the metadata and the file name, of which
    [Content-Disposition] formats a missing name as [None] while
    [X-Original-Filename] replaces a missing or empty one by "unknown". *)
Theorem successful_upscale_response file s w msg data out meta
    (Hscale : scale_factor_rejected s = false)
    (Hvalid : fst (validate_image_file file w) = Ok (true, msg))
    (Hread : read file = ReadBytes data)
    (Hsize : Z.of_nat (length data) <= MAX_FILE_SIZE)
    (Hrun : fst (process_image data s w) = Ok (out, meta))
    (Hname : forall name, filename file = Some name -> latin1_encodable name = true) :
  exists r, fst (call_endpoint (PostUpscale file s) w) = Ok r /\
    status_code r = 200 /\ content r = StreamBody out /\
    headers r !! "content-type" = Some (Text "image/jpeg") /\
    headers r !! "X-Image-Metadata" = Some (MetadataRepr meta) /\
    headers r !! "X-Processing-Status" = Some (Text "success") /\
    match filename file with
    | Some name =>
        headers r !! "Content-Disposition"
          = Some (Text ("attachment; filename=upscaled_" ++ name)) /\
        headers r !! "X-Original-Filename"
          = Some (Text (if String.eqb name "" then "unknown" else name))
    | None =>
        headers r !! "Content-Disposition"
          = Some (Text "attachment; filename=upscaled_None") /\
        headers r !! "X-Original-Filename" = Some (Text "unknown")
    end.
Proof.
  destruct (validate_image_file file w) as [[[is_valid msg']|e] w1] eqn:Hv;
    simpl in Hvalid; [|discriminate].
  injection Hvalid as -> ->.
  unfold call_endpoint, try_except.
  rewrite (upscale_image_read file s w msg w1 data Hscale Hv Hread Hsize). cbv zeta.
  match goal with |- context [process_image data s ?w2] =>
    pose proof (logs_only_result (process_image data s) w2 w
                  (logs_only_process_image data s)) as Hres;
    rewrite Hrun in Hres;
    destruct (process_image data s w2) as [[[processed_image metadata]|e] w3]
  end; simpl in Hres; [|discriminate].
  injection Hres as -> ->.
  pose proof (StreamingResponse_inv out "image/jpeg" (upscale_headers file meta)) as Hresp.
  rewrite (upscale_headers_encodable file meta Hname) in Hresp.
  destruct (StreamingResponse _ _ _) as [response|e]; [|now destruct Hresp].
  destruct Hresp as [_ ->]. eexists. split; [reflexivity|].
  unfold upscale_headers, format_filename, filename_or_unknown. simpl.
  repeat split; try reflexivity.
  destruct (filename file) as [name|]; split; reflexivity.
Qed.

(** X9.  [GET /health] answers 200 when Pillow makes and saves the test image,
    and otherwise 503 with the text of the exception, which it logs; it
    never raises. *)
Theorem health_check_answers w :
  match Image_new "RGB" (100%uint63, 100%uint63) (ColorName "red")
          ≫= (fun test_img => save_jpeg test_img None false) with
  | Ok _ =>
      exists r, call_endpoint GetHealth w = (Ok r, w) /\ status_code r = 200
  | Raise e =>
      call_endpoint GetHealth w =
        (Ok (JSONResponse 503 [("status", "unhealthy"); ("error", str e)]),
         World (request_counts w) (log w ++ [LogError ("Health check failed: " ++ str e)]))
  end.
Proof.
  unfold call_endpoint, health_check, try_except, mbind, M_bind, result_bind, lift,
    logger_error, mret, M_ret.
  destruct (Image_new _ _ _) as [img|e]; [|reflexivity].
  destruct (save_jpeg img None false) as [out|e]; [|reflexivity].
  eexists. split; reflexivity.
Qed.

End UpscaleOutcomes.

(** ** What [process_image] returns *)

Section ProcessImageOutput.
Context `{PIL} `{Interpreter}.

(** X10.  The bytes and the metadata of a processed image: the bytes are the
    JPEG encoding, with quality 95 and [optimize], of the resized and then
    sharpened image, whatever the format of the upload; the metadata give
    the size of the image after the conversion of its mode, the format JPEG
    and the number of bytes returned; and one record is logged. *)
Theorem process_image_output data s w out meta w'
    (Hrun : process_image data s w = (Ok (out, meta), w')) :
  exists img rgb resized sharp,
    Image_open data = Ok img /\ normalize_mode img = Ok rgb /\
    resize rgb (processed_size meta) = Ok resized /\
    unsharp_mask resized 1 150 3 = Ok sharp /\
    save_jpeg sharp (Some 95) true = Ok out /\
    original_size meta
      = (Uint63.to_Z (fst (size rgb)), Uint63.to_Z (snd (size rgb))) /\
    format meta = "JPEG" /\
    file_size_bytes meta = Z.of_nat (length out) /\
    request_counts w' = request_counts w /\
    log w' = (log w ++ [LogInfo ("Upscaling image: "
                                 ++ pretty (fst (original_size meta)) ++ "x"
                                 ++ pretty (snd (original_size meta)) ++ " -> "
                                 ++ pretty (fst (processed_size meta)) ++ "x"
                                 ++ pretty (snd (processed_size meta)))])%list.
Proof.
  apply process_image_returns in Hrun. revert Hrun.
  unfold transform, mbind, M_bind, lift, logger_info, mret, M_ret.
  destruct (Image_open data) as [img|e]; [|discriminate].
  destruct (normalize_mode img) as [rgb|e] eqn:Hmode; [|discriminate]. cbv zeta.
  destruct (target_dimensions _ _ s) as [[[s' nw] nh]|e] eqn:Hdims; [|discriminate]. simpl.
  destruct (resize rgb (nw, nh)) as [resized|e] eqn:Hresize; [|discriminate].
  destruct (unsharp_mask resized 1 150 3) as [sharp|e] eqn:Hsharp; [|discriminate].
  destruct (save_jpeg sharp (Some 95) true) as [output|e] eqn:Hsave; [|discriminate].
  intros [= <- <- <-]. exists img, rgb, resized, sharp. simpl. auto 12.
Qed.

(** X11.  Clamping only reduces: the scale factor of the metadata is at most the
    requested one, and each processed dimension is at most the floor of the
    product of the original dimension and the requested factor. *)
Theorem effective_factor_at_most_requested data s w out meta w'
    (Hscale : scale_factor_rejected s = false)
    (Hrun : process_image data s w = (Ok (out, meta), w')) :
  (scale_factor meta <=? s)%float = true /\
  exists new_width new_height,
    PyFloat.floor (PyFloat.int_mul (fst (original_size meta)) s) = Some new_width /\
    PyFloat.floor (PyFloat.int_mul (snd (original_size meta)) s) = Some new_height /\
    fst (processed_size meta) <= new_width /\
    snd (processed_size meta) <= new_height.
Proof.
  apply process_image_returns, transform_returns in Hrun
    as (img & rgb & _ & _ & _ & _ & Hdims & -> & _).
  pose proof (dimension_bounded (fst (size rgb))) as Hw.
  pose proof (dimension_bounded (snd (size rgb))) as Hh.
  cbn [fst snd].
  set (original_width := Uint63.to_Z (fst (size rgb))) in *.
  set (original_height := Uint63.to_Z (snd (size rgb))) in *.
  destruct (target_dimensions_clamped _ _ _ _ _ _ Hw Hh Hscale Hdims)
    as (new_width & new_height & Hnw & Hnh & Hfw & Hfh & Hfactor & Hnw' & Hnh' & _).
  destruct (accepted_factor_finite _ s new_width Hscale Hnw) as (ms & es & Hfin).
  assert (Ns : nonneg_finite (Prim2SF s)) by now rewrite Hfin.
  assert (Hle : nonneg_finite (Prim2SF (scale_factor meta)) /\
                (SFval (Prim2SF (scale_factor meta)) <= SFval (Prim2SF s))%R).
  { destruct ((new_width >? MAX_DIMENSION) || (new_height >? MAX_DIMENSION)).
    - destruct Hfactor as (max_scale_w & max_scale_h & Hqw & Hqh & ->).
      unfold PyFloat.int_truediv in Hqw, Hqh.
      destruct (Z.eqb_spec original_width 0) as [|Hw0]; [discriminate|].
      destruct (Z.eqb_spec original_height 0) as [|Hh0]; [discriminate|].
      injection Hqw as <-. injection Hqh as <-.
      destruct (truediv_MAX_DIMENSION original_width ltac:(lia)) as [Nqw _].
      destruct (truediv_MAX_DIMENSION original_height ltac:(lia)) as [Nqh _].
      destruct (min3_spec _ _ s Nqw Nqh Ns) as (Hone & _ & _ & Hle). cbv zeta in Hone, Hle.
      split; [|exact Hle]. destruct Hone as [->|[->| ->]]; assumption.
    - rewrite Hfactor. split; [assumption|lra]. }
  destruct Hle as [Nc Hle]. split.
  - rewrite FloatAxioms.leb_spec.
    apply SFleb_val; auto using Prim2SF_valid.
  - exists new_width, new_height. split; [assumption|]. split; [assumption|].
    destruct (of_int_nonneg original_width Hw) as (Ncw & _ & _).
    destruct (of_int_nonneg original_height Hh) as (Nch & _ & _).
    pose proof (int_mul_to_int _ _ _ Hw Ns Hnw) as [_ Hhiw].
    pose proof (int_mul_to_int _ _ _ Hh Ns Hnh) as [_ Hhih].
    pose proof (int_mul_to_int _ _ _ Hw Nc Hnw') as [Hlow _].
    pose proof (int_mul_to_int _ _ _ Hh Nc Hnh') as [Hloh _].
    pose proof (product_val_mono _ _ _ (Prim2SF_valid _) (Prim2SF_valid _)
                  (Prim2SF_valid _) Ncw Nc Ns Hle) as Hmw.
    pose proof (product_val_mono _ _ _ (Prim2SF_valid _) (Prim2SF_valid _)
                  (Prim2SF_valid _) Nch Nc Ns Hle) as Hmh.
    split.
    + assert (Hb : (IZR (fst (processed_size meta)) < IZR (new_width + 1))%R)
        by (rewrite plus_IZR; lra).
      apply lt_IZR in Hb. lia.
    + assert (Hb : (IZR (snd (processed_size meta)) < IZR (new_height + 1))%R)
        by (rewrite plus_IZR; lra).
      apply lt_IZR in Hb. lia.
Qed.

End ProcessImageOutput.

(** ** File names and the validator *)

(** [after_last c p] is 0 when [c] is not in [p], and else the length of
    the part of [p] up to its last [c]. *)
Lemma after_last_spec c p :
  match after_last c p with
  | O => ~ In c p
  | S k => exists pre post, p = (pre ++ c :: post)%list /\ length pre = k /\ ~ In c post
  end.
Proof.
  induction p as [|x q IH]; simpl; [tauto|].
  destruct (after_last c q) as [|k].
  - destruct (Ascii.eqb_spec x c) as [->|Hne].
    + exists [], q. auto.
    + intros [Heq|Hin]; [congruence|tauto].
  - destruct IH as (pre & post & -> & Hlen & Hpost).
    exists (x :: pre), post. simpl. auto.
Qed.

Lemma skipn_app_exact {A} (pre post : list A) : skipn (length pre) (pre ++ post) = post.
Proof. induction pre; simpl; auto. Qed.

Lemma firstn_app_exact {A} (pre post : list A) : firstn (length pre) (pre ++ post) = pre.
Proof. induction pre; simpl; [reflexivity|now f_equal]. Qed.

(** The last component of a path: what follows its last slash. *)
Lemma last_component_spec cs :
  exists dir, cs = (dir ++ skipn (after_last "/"%char cs) cs)%list /\
              ~ In "/"%char (skipn (after_last "/"%char cs) cs).
Proof.
  pose proof (after_last_spec "/"%char cs) as Hs.
  destruct (after_last "/"%char cs) as [|k].
  - exists []. simpl. auto.
  - destruct Hs as (pre & post & -> & <- & Hpost).
    exists (pre ++ ["/"%char])%list.
    replace (pre ++ "/"%char :: post)%list with ((pre ++ ["/"%char]) ++ post)%list
      by now rewrite <- app_assoc.
    replace (S (length pre)) with (length (pre ++ ["/"%char]))
      by (rewrite length_app; simpl; lia).
    now rewrite skipn_app_exact.
Qed.

(** X12.  [os.path.splitext]: the extension is a suffix of the path; it is empty,
    or a dot followed by characters that are neither dots nor slashes. *)
Theorem splitext_ext_shape p :
  (exists root, p = root ++ splitext_ext p) /\
  (splitext_ext p = "" \/
   exists e, splitext_ext p = String "."%char e /\
             ~ In "."%char (list_ascii_of_string e) /\
             ~ In "/"%char (list_ascii_of_string e)).
Proof.
  unfold splitext_ext. cbv zeta.
  destruct (last_component_spec (list_ascii_of_string p)) as (dir & Hdir & Hslash).
  set (component := skipn (after_last "/"%char (list_ascii_of_string p))
                      (list_ascii_of_string p)) in *.
  pose proof (after_last_spec "."%char component) as Hs.
  destruct (after_last "."%char component) as [|k].
  - split; [|now left]. exists p. now rewrite append_empty_r.
  - destruct Hs as (pre & post & Hcomp & <- & Hpost).
    destruct (existsb _ _).
    + rewrite Hcomp, skipn_app_exact. split.
      * exists (string_of_list_ascii (dir ++ pre)).
        rewrite <- string_of_list_ascii_app, <- app_assoc, <- Hcomp, <- Hdir.
        now rewrite string_of_list_ascii_of_string.
      * right. exists (string_of_list_ascii post). split; [reflexivity|].
        rewrite list_ascii_of_string_of_list_ascii. split; [assumption|].
        intros Hin. apply Hslash. rewrite Hcomp. apply in_or_app. right. now right.
    + split; [|now left]. exists p. now rewrite append_empty_r.
Qed.

(** The extension of [stem.e], for a stem without slash that is not made
    of dots only and an [e] without dot or slash. *)
Theorem splitext_ext_join stem e x
    (Hstem : ~ In "/"%char (list_ascii_of_string stem))
    (Hx : In x (list_ascii_of_string stem)) (Hdot : x <> "."%char)
    (He : ~ In "."%char (list_ascii_of_string e))
    (Hslash : ~ In "/"%char (list_ascii_of_string e)) :
  splitext_ext (stem ++ String "."%char e) = String "."%char e.
Proof.
  unfold splitext_ext. cbv zeta. rewrite list_ascii_of_string_app. simpl.
  set (cs := (list_ascii_of_string stem ++ "."%char :: list_ascii_of_string e)%list).
  assert (Hnoslash : ~ In "/"%char cs).
  { unfold cs. rewrite in_app_iff. simpl. intros [?|[?|?]]; try tauto. discriminate. }
  pose proof (after_last_spec "/"%char cs) as Hs.
  destruct (after_last "/"%char cs) as [|k].
  2:{ destruct Hs as (pre & post & Hcs & _). exfalso. apply Hnoslash.
      rewrite Hcs. apply in_or_app. right. now left. }
  change (skipn 0 cs) with cs. pose proof (after_last_spec "."%char cs) as Hd.
  destruct (after_last "."%char cs) as [|k].
  { exfalso. apply Hd. unfold cs. apply in_or_app. right. now left. }
  destruct Hd as (pre & post & Hcs & <- & Hpost).
  assert (Hsame : pre = list_ascii_of_string stem /\ post = list_ascii_of_string e).
  { unfold cs in Hcs. clear -Hcs Hpost He.
    revert pre Hcs. induction (list_ascii_of_string stem) as [|c l IH]; intros pre Hcs.
    - destruct pre as [|c' pre]; simpl in Hcs.
      + injection Hcs as <-. auto.
      + injection Hcs as <- Hcs. exfalso. apply He. rewrite Hcs.
        apply in_or_app. right. now left.
    - destruct pre as [|c' pre]; simpl in Hcs.
      + injection Hcs as -> Hcs. exfalso. apply Hpost. rewrite <- Hcs.
        apply in_or_app. right. now left.
      + injection Hcs as <- Hcs. destruct (IH pre Hcs) as [-> ->]. auto. }
  destruct Hsame as [-> ->]. rewrite Hcs, firstn_app_exact, skipn_app_exact.
  assert (Hex : existsb (fun c => negb (Ascii.eqb c "."%char)) (list_ascii_of_string stem)
                = true).
  { apply existsb_exists. exists x. split; [assumption|].
    now destruct (Ascii.eqb_spec x "."%char). }
  rewrite Hex. simpl. now rewrite string_of_list_ascii_of_string.
Qed.

(** [lower] changes no character twice, and keeps dots, slashes and the
    empty name. *)
Lemma lower_ascii_idemp c : lower_ascii (lower_ascii c) = lower_ascii c.
Proof. destruct c as [[] [] [] [] [] [] [] []]; reflexivity. Qed.

Lemma lower_ascii_keeps c x :
  x = "."%char \/ x = "/"%char -> lower_ascii c = x <-> c = x.
Proof.
  intros [-> | ->]; (split; [|now intros ->]);
    destruct c as [[] [] [] [] [] [] [] []]; intros Heq; try reflexivity; discriminate Heq.
Qed.

Lemma lower_idemp s : lower (lower s) = lower s.
Proof.
  unfold lower. rewrite list_ascii_of_string_of_list_ascii, List.map_map.
  f_equal. apply List.map_ext. intros c. apply lower_ascii_idemp.
Qed.

Lemma lower_empty s : String.eqb (lower s) "" = String.eqb s "".
Proof. now destruct s. Qed.

Lemma lower_app a b : lower (a ++ b) = lower a ++ lower b.
Proof.
  unfold lower. now rewrite list_ascii_of_string_app, List.map_app, string_of_list_ascii_app.
Qed.

Lemma lower_In x s :
  x = "."%char \/ x = "/"%char ->
  In x (list_ascii_of_string (lower s)) <-> In x (list_ascii_of_string s).
Proof.
  intros Hx. unfold lower. rewrite list_ascii_of_string_of_list_ascii, in_map_iff. split.
  - intros (c & Hc & Hin). apply (lower_ascii_keeps c x Hx) in Hc. now subst.
  - intros Hin. exists x. split; [|assumption]. now apply lower_ascii_keeps.
Qed.

Section ValidatorNames.
Context `{PIL} `{Interpreter}.

(** X13.  The validator does not tell a file name from its lowercase form. *)
Theorem validate_image_file_ignores_case file name
    (Hname : filename file = Some name) :
  validate_image_file
    {| filename := Some (lower name); file_size := file_size file;
       content_type := content_type file; read := read file |}
  = validate_image_file file.
Proof.
  unfold validate_image_file, validate_checks. simpl.
  now rewrite Hname, lower_idemp, lower_empty.
Qed.

(** X14.  A file named [stem.e], with [e] one of jpg, jpeg, png and webp in any
    letter case, an allowed content type and no size or a size within the
    limit, is valid, and nothing is logged. *)
Theorem validate_image_file_accepts file stem e x w
    (Hname : filename file = Some (stem ++ String "."%char e))
    (Hsize : file_size file = None \/
             exists n, file_size file = Some (Some n) /\ n <= MAX_FILE_SIZE)
    (Hstem : ~ In "/"%char (list_ascii_of_string stem))
    (Hx : In x (list_ascii_of_string stem)) (Hdot : x <> "."%char)
    (He : In (lower e) ["jpg"; "jpeg"; "png"; "webp"])
    (Hmime : In (content_type file) (List.map Some ALLOWED_MIME_TYPES)) :
  validate_image_file file w = (Ok (true, ""), w).
Proof.
  assert (Hext : splitext_ext (lower (stem ++ String "."%char e))
                 = String "."%char (lower e)).
  { change (String "."%char e) with ("." ++ e). rewrite !lower_app.
    change (lower ".") with ".". change ("." ++ lower e) with (String "."%char (lower e)).
    assert (Hx' : In (lower_ascii x) (list_ascii_of_string (lower stem))).
    { unfold lower. rewrite list_ascii_of_string_of_list_ascii. now apply in_map. }
    apply (splitext_ext_join (lower stem) (lower e) (lower_ascii x)).
    - rewrite lower_In by tauto. assumption.
    - assumption.
    - intros Heq. apply Hdot. apply (lower_ascii_keeps x "."%char); tauto.
    - simpl in He. destruct He as [ <- | [ <- | [ <- | [ <- | [] ] ] ] ]; simpl;
        intros Hin; decompose [or] Hin; try discriminate; try contradiction.
    - simpl in He. destruct He as [ <- | [ <- | [ <- | [ <- | [] ] ] ] ]; simpl;
        intros Hin; decompose [or] Hin; try discriminate; try contradiction. }
  unfold validate_image_file, validate_checks, try_except, lift.
  assert (Hlarge : match file_size file with
                   | None => Ok false
                   | Some None =>
                       Raise (TypeError
                         "'>' not supported between instances of 'NoneType' and 'int'")
                   | Some (Some n) => Ok (n >? MAX_FILE_SIZE)
                   end = Ok false).
  { destruct Hsize as [->|(n & -> & Hn)]; [reflexivity|].
    destruct (Z.gtb_spec n MAX_FILE_SIZE); [lia|reflexivity]. }
  rewrite Hlarge, Hname, Hext. simpl.
  assert (Hnonempty : String.eqb (stem ++ String "."%char e) "" = false).
  { destruct stem; [|reflexivity]. simpl in Hx. tauto. }
  rewrite Hnonempty. simpl.
  rewrite bool_decide_eq_true_2.
  2:{ unfold ALLOWED_EXTENSIONS. apply list_elem_of_In. simpl in *.
      destruct He as [ <- | [ <- | [ <- | [ <- | [] ] ] ] ]; tauto. }
  simpl. rewrite bool_decide_eq_true_2 by now apply list_elem_of_In.
  reflexivity.
Qed.

End ValidatorNames.

(** ** Scale factors that are at least 1 *)

Lemma digits2_unique (m : positive) d :
  2 ^ (d - 1) <= Zpos m < 2 ^ d -> Zpos (digits2_pos m) = d.
Proof.
  intros [Hlo Hhi]. pose proof (digits2_bounds m) as [Hlo' Hhi'].
  pose proof (Pos2Z.is_pos (digits2_pos m)) as Hpos.
  assert (Hd : 0 < d).
  { destruct (Z_lt_le_dec 0 d) as [|Hle]; [assumption|].
    destruct (Z.eq_dec d 0) as [->|Hne]; [simpl in Hhi; lia|].
    rewrite (Z.pow_neg_r 2 d) in Hhi by lia. lia. }
  destruct (Z_lt_le_dec (Zpos (digits2_pos m)) d) as [Hlt|Hge].
  - assert (2 ^ Zpos (digits2_pos m) <= 2 ^ (d - 1)) by (apply Z.pow_le_mono_r; lia). lia.
  - destruct (Z_lt_le_dec d (Zpos (digits2_pos m))) as [Hlt|Hle]; [|lia].
    assert (2 ^ d <= 2 ^ (Zpos (digits2_pos m) - 1)) by (apply Z.pow_le_mono_r; lia). lia.
Qed.

(** A float times 1 is the float. *)
Lemma mul_rounded_one mc ec :
  SpecFloat.bounded prec emax mc ec = true ->
  mul_rounded mc ec 4503599627370496 (-52) = (IZR (Zpos mc) * bpow ec)%R.
Proof.
  intros Hb. apply bounded_spec in Hb as (He & _ & Hd & Hn).
  pose proof (digits2_bounds mc) as [Hlo Hhi].
  pose proof (Pos2Z.is_pos (digits2_pos mc)) as Hpos.
  unfold mul_rounded. cbv zeta.
  assert (Hdig : Zpos (digits2_pos (mc * 4503599627370496))
                 = Zpos (digits2_pos mc) + 52).
  { apply digits2_unique. rewrite Pos2Z.inj_mul.
    change (Zpos 4503599627370496) with (2 ^ 52).
    replace (Zpos (digits2_pos mc) + 52 - 1) with (Zpos (digits2_pos mc) - 1 + 52) by ring.
    rewrite !Z.pow_add_r by lia. nia. }
  rewrite Hdig, fexp_eq.
  replace (Z.max (Zpos (digits2_pos mc) + 52 + (ec + -52) - 53) (-1074) - (ec + -52))
    with 52.
  2:{ destruct (Z.eq_dec ec (-1074)) as [->|Hne]; [lia|].
      destruct (Hn ltac:(lia)) as [H53 _]. lia. }
  rewrite Pos2Z.inj_mul. change (Zpos 4503599627370496) with (2 ^ 52).
  rewrite rne_exact by lia. f_equal. f_equal. lia.
Qed.

Lemma product_val_one c :
  valid_binary c = true -> nonneg_finite c ->
  product_val c (S754_finite false 4503599627370496 (-52)) = SFval c.
Proof.
  intros Vc Nc. destruct c as [s|s| |s m e]; simpl in *; try reflexivity; try tauto.
  subst s. now apply mul_rounded_one.
Qed.

(** The float of a dimension is the dimension, when it is below 2^53. *)
Lemma of_int_lower w :
  0 <= w < 2 ^ 63 ->
  (SFval (Prim2SF (PyFloat.of_int w)) < bpow 53)%R ->
  (IZR w <= SFval (Prim2SF (PyFloat.of_int w)))%R.
Proof.
  intros Hw. unfold PyFloat.of_int. rewrite of_uint63_spec, Uint63.of_Z_spec.
  assert (HwB : wB = 2 ^ 63) by reflexivity.
  rewrite Z.mod_small by (rewrite HwB; lia). clear HwB.
  destruct w as [|m|m]; [simpl; lra| |lia].
  unfold binary_normalize, binary_round, shl_align.
  pose proof (digits2_bounds m) as [Hlo Hhi].
  set (d := Zpos (digits2_pos m)) in *.
  assert (Hd : 1 <= d <= 63).
  { split; [unfold d; lia|].
    destruct (Z_le_gt_dec d 63) as [|Hgt]; [assumption|].
    assert (2 ^ 63 <= 2 ^ (d - 1)) by (apply Z.pow_le_mono_r; lia). lia. }
  rewrite fexp_eq. replace (Z.max (d + 0 - 53) (-1074)) with (d - 53) by lia.
  assert (Hgoal : forall (m' : positive) e',
            -52 <= e' <= 0 -> (d <= 53 -> e' = d - 53) ->
            (IZR (Zpos m') * bpow e' = IZR (Zpos m))%R ->
            (SFval (binary_round_aux prec emax false (Zpos m') e' loc_Exact) < bpow 53)%R ->
            (IZR (Zpos m)
             <= SFval (binary_round_aux prec emax false (Zpos m') e' loc_Exact))%R).
  { intros m' e' He' Hexp Hval.
    pose proof (val_magnitude m' e') as [Hmlo Hmhi]. rewrite Hval in Hmlo, Hmhi.
    set (mag := Zpos (digits2_pos m') + e') in *.
    assert (Hmag : mag = d).
    { apply IZR_le in Hlo. apply IZR_lt in Hhi.
      rewrite <- bpow_IZR in Hlo, Hhi by lia.
      destruct (Z_lt_le_dec mag d) as [Hlt|Hge].
      - pose proof (bpow_le mag (d - 1) ltac:(lia)). lra.
      - destruct (Z_lt_le_dec d mag) as [Hlt|Hle]; [|lia].
        pose proof (bpow_le d (mag - 1) ltac:(lia)). lra. }
    destruct (Z_le_gt_dec d 53) as [Hsmall|Hbig].
    - pose proof (Hexp Hsmall) as He. subst e'.
      pose proof (binary_round_aux_value m' (d - 53) loc_Exact) as Hv. cbv zeta in Hv.
      fold mag in Hv. rewrite Hmag, fexp_eq in Hv.
      replace (Z.max 0 (Z.max (d - 53) (-1074) - (d - 53))) with 0 in Hv by lia.
      destruct Hv as (m1 & _ & Hm1 & Hv). specialize (Hm1 eq_refl).
      replace (Zpos m') with (Zpos m' * 2 ^ 0) in Hm1 by lia.
      rewrite rne_exact in Hm1 by lia. subst m1.
      destruct (binary_round_aux prec emax false (Zpos m') (d - 53) loc_Exact)
        as [s|s| |s m0 e0].
      + lia.
      + destruct Hv as (_ & _ & Hinf). lia.
      + contradiction.
      + destruct Hv as (-> & _ & Hv). intros _. cbn [SFval]. rewrite Hv.
        replace (d - 53 + 0) with (d - 53) by ring. lra.
    - pose proof (binary_round_aux_lower m' e' loc_Exact ltac:(lia)) as Hl.
      fold mag in Hl. rewrite Hmag in Hl.
      destruct (binary_round_aux prec emax false (Zpos m') e' loc_Exact) as [s|s| |s m0 e0];
        try contradiction.
      + destruct Hl as [_ Hinf]. lia.
      + destruct Hl as [-> Hl]. cbn [SFval]. intros Hlt.
        pose proof (bpow_le 53 (d - 1) ltac:(lia)). lra. }
  destruct (d - 53 - 0) as [|k|k] eqn:Hk.
  - apply Hgoal; [lia|lia|]. rewrite bpow_0. ring.
  - apply Hgoal; [lia|lia|]. rewrite bpow_0. ring.
  - apply Hgoal; [lia|lia|].
    rewrite Pos_iter_xO, mult_IZR, <- bpow_IZR by lia.
    rewrite Rmult_assoc, <- bpow_add.
    replace (Zpos k + (d - 53)) with 0 by lia. rewrite bpow_0. ring.
Qed.

(** The dimension computed with a factor that is at least 1 is at least the
    original one, as long as it is below 2^53. *)
Lemma upscaled_dimension w s n :
  0 <= w < 2 ^ 63 -> nonneg_finite (Prim2SF s) ->
  (1 <=? s)%float = true ->
  PyFloat.to_int (PyFloat.int_mul w s) = Ok n -> n < 2 ^ 53 - 1 -> w <= n.
Proof.
  intros Hw Ns Hone Hn Hsmall.
  rewrite FloatAxioms.leb_spec in Hone.
  replace (Prim2SF 1) with (S754_finite false 4503599627370496 (-52)) in Hone by reflexivity.
  apply SFleb_val in Hone; [|reflexivity|apply Prim2SF_valid|reflexivity|assumption].
  destruct (of_int_nonneg w Hw) as (Nc & _ & _).
  pose proof (product_val_mono (Prim2SF (PyFloat.of_int w))
                (S754_finite false 4503599627370496 (-52)) (Prim2SF s)
                (Prim2SF_valid _) eq_refl (Prim2SF_valid s) Nc eq_refl Ns Hone) as Hmono.
  rewrite product_val_one in Hmono by (auto using Prim2SF_valid).
  pose proof (int_mul_to_int w s n Hw Ns Hn) as [_ Hhi].
  assert (Hn53 : (IZR n + 1 < bpow 53)%R).
  { rewrite (bpow_IZR 53) by lia. rewrite <- plus_IZR. apply IZR_lt. lia. }
  pose proof (of_int_lower w Hw ltac:(lra)) as Hlow.
  assert (Hb : (IZR w < IZR (n + 1))%R) by (rewrite plus_IZR; lra).
  apply lt_IZR in Hb. lia.
Qed.

Section Upscaling.
Context `{PIL} `{Interpreter}.

(** X15.  With an accepted scale factor that is at least 1 and that the clamp
    does not reduce, no dimension of the processed image is below the
    original one. *)
Theorem upscaling_does_not_shrink data s w out meta w'
    (Hscale : scale_factor_rejected s = false)
    (Hone : (1 <=? s)%float = true)
    (Hrun : process_image data s w = (Ok (out, meta), w'))
    (Hsame : scale_factor meta = s) :
  fst (original_size meta) <= fst (processed_size meta) /\
  snd (original_size meta) <= snd (processed_size meta).
Proof.
  apply process_image_returns, transform_returns in Hrun
    as (img & rgb & _ & _ & _ & _ & Hdims & -> & _).
  pose proof (dimension_bounded (fst (size rgb))) as Hw.
  pose proof (dimension_bounded (snd (size rgb))) as Hh.
  cbn [fst snd].
  destruct (target_dimensions_clamped _ _ _ _ _ _ Hw Hh Hscale Hdims)
    as (new_width & new_height & Hnw & _ & _ & _ & _ & Hnw' & Hnh' & _ & _ & Hbw & Hbh).
  destruct (accepted_factor_finite _ s new_width Hscale Hnw) as (ms & es & Hfin).
  assert (Ns : nonneg_finite (Prim2SF s)) by now rewrite Hfin.
  rewrite Hsame in Hnw', Hnh'. unfold MAX_DIMENSION in Hbw, Hbh.
  split.
  - apply (upscaled_dimension _ s); try assumption. lia.
  - apply (upscaled_dimension _ s); try assumption. lia.
Qed.

End Upscaling.

(** ** Any scale factor *)

Lemma binary_round_aux_sign sx m e l :
  match binary_round_aux prec emax sx m e l with
  | S754_zero s | S754_infinity s | S754_finite s _ _ => s = sx
  | S754_nan => True
  end.
Proof.
  unfold binary_round_aux.
  destruct (shr_fexp prec emax m e l) as [mrs' e'].
  destruct (shr_fexp prec emax _ e' loc_Exact) as [mrs'' e''].
  destruct (shr_m mrs''); [reflexivity| |exact I].
  destruct (e'' <=? emax - prec); reflexivity.
Qed.

(** A dimension that is positive comes from a positive finite factor. *)
Lemma positive_dimension_factor w s n :
  0 <= w < 2 ^ 63 ->
  PyFloat.to_int (PyFloat.int_mul w s) = Ok n -> 0 < n ->
  exists m e, Prim2SF s = S754_finite false m e.
Proof.
  intros Hw. unfold PyFloat.to_int, PyFloat.int_mul. rewrite FloatAxioms.mul_spec.
  destruct (of_int_nonneg w Hw) as (Nc & _ & _).
  destruct (Prim2SF (PyFloat.of_int w)) as [sc|sc| |sc mc ec]; simpl in Nc; try tauto.
  - destruct (Prim2SF s) as [ss|ss| |ss ms es]; simpl; try discriminate;
      intros [= <-]; lia.
  - subst sc. destruct (Prim2SF s) as [ss|ss| |[] ms es]; simpl; try discriminate.
    + intros [= <-]; lia.
    + pose proof (binary_round_aux_sign true (Zpos (mc * ms)) (ec + es) loc_Exact) as Hs.
      destruct (binary_round_aux prec emax true (Zpos (mc * ms)) (ec + es) loc_Exact)
        as [r|r| |r m' e']; try discriminate.
      * intros [= <-]; lia.
      * subst r. intros [= <-] Hpos. simpl in Hpos.
        pose proof (Z.shiftl_nonneg (Zpos m') e'). lia.
    + eauto.
Qed.

(** Lines 165-176, for any scale factor: the two dimensions that
    [target_dimensions] returns are at most [MAX_DIMENSION]. *)
Lemma target_dimensions_bounded w h s s' nw nh :
  0 <= w < 2 ^ 63 -> 0 <= h < 2 ^ 63 ->
  target_dimensions w h s = Ok (s', nw, nh) ->
  nw <= MAX_DIMENSION /\ nh <= MAX_DIMENSION.
Proof.
  intros Hw Hh. unfold target_dimensions, mbind, result_bind.
  destruct (PyFloat.to_int (PyFloat.int_mul w s)) as [new_width|e] eqn:Hnw; [|discriminate].
  destruct (PyFloat.to_int (PyFloat.int_mul h s)) as [new_height|e] eqn:Hnh; [|discriminate].
  destruct ((new_width >? MAX_DIMENSION) || (new_height >? MAX_DIMENSION)) eqn:Hc.
  - assert (Ns : nonneg_finite (Prim2SF s)).
    { apply orb_true_iff in Hc. unfold MAX_DIMENSION in Hc.
      destruct Hc as [Hc|Hc]; apply Z.gtb_lt in Hc.
      - destruct (positive_dimension_factor w s new_width Hw Hnw ltac:(lia))
          as (m & e & ->). reflexivity.
      - destruct (positive_dimension_factor h s new_height Hh Hnh ltac:(lia))
          as (m & e & ->). reflexivity. }
    unfold PyFloat.int_truediv.
    destruct (Z.eqb_spec w 0) as [|Hw0]; [discriminate|].
    destruct (Z.eqb_spec h 0) as [|Hh0]; [discriminate|].
    set (max_scale_w := (PyFloat.of_int MAX_DIMENSION / PyFloat.of_int w)%float).
    set (max_scale_h := (PyFloat.of_int MAX_DIMENSION / PyFloat.of_int h)%float).
    destruct (truediv_MAX_DIMENSION w ltac:(lia)) as [Nqw _].
    destruct (truediv_MAX_DIMENSION h ltac:(lia)) as [Nqh _].
    fold max_scale_w in Nqw. fold max_scale_h in Nqh.
    destruct (min3_spec max_scale_w max_scale_h s Nqw Nqh Ns) as (Hone & Hlw & Hlh & _).
    set (clamped := PyFloat.min3 max_scale_w max_scale_h s) in *.
    assert (Nc : nonneg_finite (Prim2SF clamped))
      by (destruct Hone as [->|[->| ->]]; assumption).
    destruct (PyFloat.to_int (PyFloat.int_mul w clamped)) as [nw'|e] eqn:Hnw'; [|discriminate].
    destruct (PyFloat.to_int (PyFloat.int_mul h clamped)) as [nh'|e] eqn:Hnh'; [|discriminate].
    intros [= <- <- <-]. split.
    + apply (clamped_dimension w clamped nw'); [lia|assumption..].
    + apply (clamped_dimension h clamped nh'); [lia|assumption..].
  - intros [= <- <- <-]. apply orb_false_iff in Hc as [Hcw Hch].
    destruct (Z.gtb_spec new_width MAX_DIMENSION); [discriminate|].
    destruct (Z.gtb_spec new_height MAX_DIMENSION); [discriminate|]. lia.
Qed.

Section AnyScaleFactor.
Context `{PIL} `{Interpreter}.

(** X16.  Whatever the scale factor, also one that the endpoint would reject:
    the dimensions of an image that [process_image] returns are at most
    [MAX_DIMENSION]. *)
Theorem processed_size_bounded_for_any_factor data s w out meta w'
    (Hrun : process_image data s w = (Ok (out, meta), w')) :
  fst (processed_size meta) <= MAX_DIMENSION /\
  snd (processed_size meta) <= MAX_DIMENSION.
Proof.
  apply process_image_returns, transform_returns in Hrun
    as (img & rgb & _ & _ & _ & _ & Hdims & _).
  exact (target_dimensions_bounded _ _ _ _ _ _ (dimension_bounded _)
           (dimension_bounded _) Hdims).
Qed.

(** X17.  A file named [stem.e] whose [e], with neither dot nor slash, is none of
    jpg, jpeg, png and webp in any letter case is refused for its format,
    whatever its content type: so is [photo.png.exe].  The message lists
    the allowed extensions in the order in which the interpreter iterates
    over their set. *)
Theorem validate_image_file_rejects_extension file stem e x w
    (Hname : filename file = Some (stem ++ String "."%char e))
    (Hsize : file_size file = None \/
             exists n, file_size file = Some (Some n) /\ n <= MAX_FILE_SIZE)
    (Hstem : ~ In "/"%char (list_ascii_of_string stem))
    (Hx : In x (list_ascii_of_string stem)) (Hdot : x <> "."%char)
    (He : ~ In "."%char (list_ascii_of_string e))
    (Hslash : ~ In "/"%char (list_ascii_of_string e))
    (Hext : ~ In (lower e) ["jpg"; "jpeg"; "png"; "webp"]) :
  validate_image_file file w = (Ok (false, unsupported_format_message), w).
Proof.
  assert (Hsplit : splitext_ext (lower (stem ++ String "."%char e))
                   = String "."%char (lower e)).
  { change (String "."%char e) with ("." ++ e). rewrite !lower_app.
    change (lower ".") with ".". change ("." ++ lower e) with (String "."%char (lower e)).
    apply (splitext_ext_join (lower stem) (lower e) (lower_ascii x)).
    - rewrite lower_In by tauto. assumption.
    - unfold lower. rewrite list_ascii_of_string_of_list_ascii. now apply in_map.
    - intros Heq. apply Hdot. apply (lower_ascii_keeps x "."%char); tauto.
    - rewrite lower_In by tauto. assumption.
    - rewrite lower_In by tauto. assumption. }
  unfold validate_image_file, validate_checks, try_except, lift.
  assert (Hlarge : match file_size file with
                   | None => Ok false
                   | Some None =>
                       Raise (TypeError
                         "'>' not supported between instances of 'NoneType' and 'int'")
                   | Some (Some n) => Ok (n >? MAX_FILE_SIZE)
                   end = Ok false).
  { destruct Hsize as [->|(n & -> & Hn)]; [reflexivity|].
    destruct (Z.gtb_spec n MAX_FILE_SIZE); [lia|reflexivity]. }
  rewrite Hlarge, Hname, Hsplit. simpl.
  assert (Hnonempty : String.eqb (stem ++ String "."%char e) "" = false).
  { destruct stem; [|reflexivity]. simpl in Hx. tauto. }
  rewrite Hnonempty. simpl.
  rewrite bool_decide_eq_false_2; [reflexivity|].
  unfold ALLOWED_EXTENSIONS. intros Hin. apply list_elem_of_In in Hin. apply Hext.
  simpl in *. decompose [or] Hin; try contradiction;
    match goal with Heq : _ = String "."%char (lower e) |- _ => injection Heq as <- end; tauto.
Qed.

(** X18.  A file without a name, or with the empty name, is not checked for its
    extension: with no size or a size within the limit it is valid exactly
    when its content type is allowed. *)
Theorem validate_image_file_without_name file w
    (Hname : filename file = None \/ filename file = Some "")
    (Hsize : file_size file = None \/
             exists n, file_size file = Some (Some n) /\ n <= MAX_FILE_SIZE) :
  validate_image_file file w =
    if bool_decide (content_type file ∈ List.map Some ALLOWED_MIME_TYPES)
    then (Ok (true, ""), w)
    else (Ok (false, "Invalid content type. Expected image file."), w).
Proof.
  unfold validate_image_file, validate_checks, try_except, lift.
  assert (Hlarge : match file_size file with
                   | None => Ok false
                   | Some None =>
                       Raise (TypeError
                         "'>' not supported between instances of 'NoneType' and 'int'")
                   | Some (Some n) => Ok (n >? MAX_FILE_SIZE)
                   end = Ok false).
  { destruct Hsize as [->|(n & -> & Hn)]; [reflexivity|].
    destruct (Z.gtb_spec n MAX_FILE_SIZE); [lia|reflexivity]. }
  rewrite Hlarge. simpl.
  destruct Hname as [-> | ->]; simpl; destruct (bool_decide _); reflexivity.
Qed.

End AnyScaleFactor.

(** ** The further properties on the small backend *)

Section FurtherExamples.
#[local] Existing Instance Raster.backend.
#[local] Existing Instance Raster.interpreter.

Lemma app_always_responds_witness :
  In (status_code (fst (app eleventh Raster.empty_world)))
     [200; 400; 413; 422; 429; 500; 503].
Proof.
  destruct (app_always_responds eleventh Raster.empty_world eq_refl)
    as (r & w' & _ & Happ & Hs).
  rewrite Happ. exact Hs.
Defined.

Lemma serve_other_clients_witness :
  request_counts (snd (serve (burst 3) Raster.empty_world)) !!! "198.51.100.2"
  = request_counts Raster.empty_world !!! "198.51.100.2".
Proof.
  apply (serve_other_clients (burst 3) Raster.empty_world "198.51.100.2").
  repeat (constructor; [discriminate|]). constructor.
Defined.

Lemma serve_keeps_bound_witness :
  Z.of_nat (length (request_counts (snd (serve (burst 11) Raster.empty_world))
                      !!! "203.0.113.7")) <= RATE_LIMIT_REQUESTS.
Proof.
  apply (serve_keeps_bound (burst 11) Raster.empty_world).
  intros client_ip. unfold Raster.empty_world. simpl.
  rewrite lookup_total_empty. simpl. unfold RATE_LIMIT_REQUESTS. lia.
Defined.

Lemma add_security_headers_transparent_witness :
  has_security_headers (fst (app eleventh Raster.empty_world)).
Proof.
  assert (Hroom : Z.of_nat (length (recent_requests (time_now eleventh)
                                      (request_counts Raster.empty_world
                                         !!! client_host eleventh)))
                  < RATE_LIMIT_REQUESTS) by reflexivity.
  pose proof (add_security_headers_transparent eleventh
                (fun r => call_endpoint (target r)) Raster.empty_world Hroom) as Ht.
  cbv beta zeta in Ht.
  destruct (call_endpoint_returns (target eleventh)
              (World (counts_after true (client_host eleventh) (time_now eleventh)
                        (request_counts Raster.empty_world))
                     (log Raster.empty_world))) as (r0 & w' & Hcall & _).
  rewrite Hcall in Ht. destruct Ht as (r & Hadd & _ & _ & Hsec & _).
  unfold app. rewrite Hadd. exact Hsec.
Defined.

(** A text file, and an upload of one byte more than the limit that
    declares no size. *)
Definition text_file : UploadFile :=
  {| filename := Some "notes.txt";
     file_size := Some (Some 5);
     content_type := Some "text/plain";
     read := ReadBytes [] |}.

Definition oversized_png : UploadFile :=
  {| filename := Some "photo.png";
     file_size := None;
     content_type := Some "image/png";
     read := ReadBytes (repeat Byte.x00 (Z.to_nat (MAX_FILE_SIZE + 1))) |}.

Lemma invalid_file_is_400_witness :
  call_endpoint (PostUpscale text_file 2%float) Raster.empty_world
  = (Ok (JSONResponse 400
           [("detail", "Unsupported file format. Allowed: .jpg, .jpeg, .png, .webp")]),
     Raster.empty_world).
Proof.
  apply (invalid_file_is_400 text_file 2%float Raster.empty_world); reflexivity.
Defined.

Lemma oversized_content_is_413_witness :
  call_endpoint (PostUpscale oversized_png 2%float) Raster.empty_world
  = (Ok (JSONResponse 413 [("detail", "File too large. Maximum size allowed: 10MB");
                           ("error_code", "FILE_TOO_LARGE")]), Raster.empty_world).
Proof.
  apply (oversized_content_is_413 oversized_png 2%float Raster.empty_world ""
           Raster.empty_world (repeat Byte.x00 (Z.to_nat (MAX_FILE_SIZE + 1))));
    [reflexivity|reflexivity|reflexivity|].
  rewrite repeat_length, Z2Nat.id; unfold MAX_FILE_SIZE; lia.
Defined.

Lemma successful_upscale_response_witness :
  exists r,
    fst (call_endpoint (PostUpscale (Raster.png 100 100) 2%float) Raster.empty_world)
      = Ok r /\
    status_code r = 200 /\
    headers r !! "X-Original-Filename" = Some (Text "photo.png").
Proof.
  destruct (process_image (Raster.file_bytes Byte.x01 100 100) 2%float Raster.empty_world)
    as [[[out meta]|e] w'] eqn:Hrun; [|vm_compute in Hrun; discriminate].
  destruct (successful_upscale_response (Raster.png 100 100) 2%float Raster.empty_world ""
              (Raster.file_bytes Byte.x01 100 100) out meta eq_refl eq_refl eq_refl)
    as (r & Hr & Hs & _ & _ & _ & _ & _ & Hname).
  - vm_compute. discriminate.
  - now rewrite Hrun.
  - intros name [= <-]. reflexivity.
  - exists r. auto.
Defined.

(** An upload whose name is U+5199 U+771F followed by [.png]. *)
Definition shashin_png : UploadFile :=
  {| filename := Some (string_of_list_ascii
                         (List.map ascii_of_nat [229; 134; 153; 231; 156; 159]%nat)
                       ++ ".png");
     file_size := Some (Some 5);
     content_type := Some "image/png";
     read := ReadBytes (Raster.file_bytes Byte.x01 100 100) |}.

Lemma internal_error_causes_witness :
  exists r w',
    call_endpoint (PostUpscale shashin_png 2%float) Raster.empty_world = (Ok r, w') /\
    status_code r = 500.
Proof.
  destruct (process_image (Raster.file_bytes Byte.x01 100 100) 2%float Raster.empty_world)
    as [[[out meta]|e] w'] eqn:Hrun; [|vm_compute in Hrun; discriminate].
  apply (proj2 (internal_error_causes shashin_png 2%float Raster.empty_world)).
  split; [reflexivity|]. split; [exists ""; reflexivity|]. right.
  exists (Raster.file_bytes Byte.x01 100 100), out, meta,
    (string_of_list_ascii (List.map ascii_of_nat [229; 134; 153; 231; 156; 159]%nat)
     ++ ".png").
  split; [reflexivity|]. split; [vm_compute; discriminate|].
  split; [now rewrite Hrun|]. split; reflexivity.
Defined.

Lemma process_image_output_witness :
  exists out meta w',
    process_image (Raster.file_bytes Byte.x04 100 50) 2%float Raster.empty_world
      = (Ok (out, meta), w') /\
    format meta = "JPEG" /\ file_size_bytes meta = Z.of_nat (length out).
Proof.
  destruct (process_image (Raster.file_bytes Byte.x04 100 50) 2%float Raster.empty_world)
    as [[[out meta]|e] w'] eqn:Hrun; [|vm_compute in Hrun; discriminate].
  exists out, meta, w'. split; [reflexivity|].
  destruct (process_image_output (Raster.file_bytes Byte.x04 100 50) 2%float
              Raster.empty_world out meta w' Hrun)
    as (_ & _ & _ & _ & _ & _ & _ & _ & _ & _ & Hformat & Hsize & _).
  auto.
Defined.

Lemma effective_factor_at_most_requested_witness :
  exists out meta w',
    process_image (Raster.file_bytes Byte.x01 3000 2000) 2%float Raster.empty_world
      = (Ok (out, meta), w') /\
    (scale_factor meta <=? 2)%float = true.
Proof.
  destruct (process_image (Raster.file_bytes Byte.x01 3000 2000) 2%float Raster.empty_world)
    as [[[out meta]|e] w'] eqn:Hrun; [|vm_compute in Hrun; discriminate].
  exists out, meta, w'. split; [reflexivity|].
  apply (effective_factor_at_most_requested (Raster.file_bytes Byte.x01 3000 2000) 2%float
           Raster.empty_world out meta w' eq_refl Hrun).
Defined.

Lemma splitext_ext_photo_png : splitext_ext "photo.png" = ".png".
Proof.
  apply (splitext_ext_join "photo" "png" "p"%char); simpl;
    first [ tauto | discriminate
          | intros Hin; decompose [or] Hin; try discriminate; contradiction ].
Defined.

Definition upper_png : UploadFile :=
  {| filename := Some "PHOTO.PNG";
     file_size := Some (Some 5);
     content_type := Some "image/png";
     read := ReadBytes (Raster.file_bytes Byte.x01 100 100) |}.

Lemma validate_image_file_ignores_case_witness :
  validate_image_file upper_png Raster.empty_world = (Ok (true, ""), Raster.empty_world).
Proof.
  rewrite <- (validate_image_file_ignores_case upper_png "PHOTO.PNG" eq_refl).
  reflexivity.
Defined.

Lemma validate_image_file_accepts_witness :
  validate_image_file
    {| filename := Some "Holiday.JPeG"; file_size := Some (Some 5);
       content_type := Some "image/jpeg"; read := ReadBytes [] |} Raster.empty_world
  = (Ok (true, ""), Raster.empty_world).
Proof.
  apply (validate_image_file_accepts _ "Holiday" "JPeG" "H"%char Raster.empty_world).
  - reflexivity.
  - right. exists 5. split; [reflexivity|unfold MAX_FILE_SIZE; lia].
  - simpl. intros Hin. decompose [or] Hin; try discriminate; contradiction.
  - simpl. tauto.
  - discriminate.
  - simpl. tauto.
  - simpl. tauto.
Defined.

Lemma upscaling_does_not_shrink_witness :
  exists out meta w',
    process_image (Raster.file_bytes Byte.x01 100 50) 2%float Raster.empty_world
      = (Ok (out, meta), w') /\
    fst (original_size meta) <= fst (processed_size meta) /\
    snd (original_size meta) <= snd (processed_size meta).
Proof.
  destruct (process_image (Raster.file_bytes Byte.x01 100 50) 2%float Raster.empty_world)
    as [[[out meta]|e] w'] eqn:Hrun; [|vm_compute in Hrun; discriminate].
  exists out, meta, w'. split; [reflexivity|].
  apply (upscaling_does_not_shrink (Raster.file_bytes Byte.x01 100 50) 2%float
           Raster.empty_world out meta w' eq_refl eq_refl Hrun).
  vm_compute in Hrun. now injection Hrun as _ <- _.
Defined.

Lemma processed_size_bounded_for_any_factor_witness :
  exists out meta w',
    process_image (Raster.file_bytes Byte.x01 100 100) 100%float Raster.empty_world
      = (Ok (out, meta), w') /\
    fst (processed_size meta) <= MAX_DIMENSION /\
    snd (processed_size meta) <= MAX_DIMENSION.
Proof.
  destruct (process_image (Raster.file_bytes Byte.x01 100 100) 100%float Raster.empty_world)
    as [[[out meta]|e] w'] eqn:Hrun; [|vm_compute in Hrun; discriminate].
  exists out, meta, w'. split; [reflexivity|].
  apply (processed_size_bounded_for_any_factor (Raster.file_bytes Byte.x01 100 100)
           100%float Raster.empty_world out meta w' Hrun).
Defined.

Lemma validate_image_file_rejects_extension_witness :
  validate_image_file
    {| filename := Some "photo.png.exe"; file_size := Some (Some 5);
       content_type := Some "image/png"; read := ReadBytes [] |} Raster.empty_world
  = (Ok (false, "Unsupported file format. Allowed: .jpg, .jpeg, .png, .webp"),
     Raster.empty_world).
Proof.
  change "Unsupported file format. Allowed: .jpg, .jpeg, .png, .webp"
    with unsupported_format_message.
  apply (validate_image_file_rejects_extension _ "photo.png" "exe" "p"%char
           Raster.empty_world).
  - reflexivity.
  - right. exists 5. split; [reflexivity|unfold MAX_FILE_SIZE; lia].
  - simpl. intros Hin. decompose [or] Hin; try discriminate; contradiction.
  - simpl. tauto.
  - discriminate.
  - simpl. intros Hin. decompose [or] Hin; try discriminate; contradiction.
  - simpl. intros Hin. decompose [or] Hin; try discriminate; contradiction.
  - simpl. intros Hin. decompose [or] Hin; try discriminate; contradiction.
Defined.

Definition nameless_png : UploadFile :=
  {| filename := None;
     file_size := None;
     content_type := Some "image/png";
     read := ReadBytes (Raster.file_bytes Byte.x01 100 100) |}.

Lemma validate_image_file_without_name_witness :
  validate_image_file nameless_png Raster.empty_world = (Ok (true, ""), Raster.empty_world).
Proof.
  rewrite (validate_image_file_without_name nameless_png Raster.empty_world
             (or_introl eq_refl) (or_introl eq_refl)).
  reflexivity.
Defined.

End FurtherExamples.

(** ** The clamp is tight *)

(** The quotient of a normal float by a positive finite float, away from
    the subnormal numbers and from the overflow: it is at least the exact
    quotient, up to two units in the last place. *)
Lemma SFdiv_lower m1 e1 m2 e2 :
  SpecFloat.bounded prec emax m1 e1 = true -> 2 ^ 52 <= Zpos m1 ->
  SpecFloat.bounded prec emax m2 e2 = true ->
  -1074 <= e1 - e2 - Zpos (digits2_pos m2) <= 969 ->
  match SF64div (S754_finite false m1 e1) (S754_finite false m2 e2) with
  | S754_finite s m e =>
      s = false /\
      (IZR (Zpos m1) * bpow e1 * (1 - bpow (-51))
       <= IZR (Zpos m) * bpow e * (IZR (Zpos m2) * bpow e2))%R
  | _ => False
  end.
Proof.
  intros H1 Hn1 H2 He.
  apply bounded_spec in H1 as (He1 & Hm1 & Hd1 & _).
  apply bounded_spec in H2 as (He2 & Hm2 & Hd2 & _).
  pose proof (digits2_bounds m1) as [Hlo1 Hhi1].
  pose proof (digits2_bounds m2) as [Hlo2 Hhi2].
  assert (Hd53 : Zpos (digits2_pos m1) = 53).
  { destruct (Z.eq_dec (Zpos (digits2_pos m1)) 53) as [|Hne]; [assumption|].
    assert (2 ^ Zpos (digits2_pos m1) <= 2 ^ 52) by (apply Z.pow_le_mono_r; lia). lia. }
  set (d2 := Zpos (digits2_pos m2)) in *.
  unfold SF64div, SFdiv, SFdiv_core_binary. simpl Zdigits2. fold d2. rewrite Hd53.
  assert (He' : Z.min (fexp prec emax (53 + e1 - (d2 + e2))) (e1 - e2) = e1 - e2 - d2).
  { rewrite fexp_eq. unfold d2 in *. lia. }
  rewrite He'. replace (e1 - e2 - (e1 - e2 - d2)) with d2 by ring.
  change (xorb false false) with false.
  assert (Hpow : 0 < 2 ^ d2) by (apply Z.pow_pos_nonneg; unfold d2; lia).
  replace (match d2 with
           | 0 => Zpos m1
           | Zpos _ => Z.shiftl (Zpos m1) d2
           | Zneg _ => 0
           end) with (Zpos m1 * 2 ^ d2)
    by (rewrite <- Z.shiftl_mul_pow2 by (unfold d2; lia); reflexivity).
  pose proof (Z.div_mod (Zpos m1 * 2 ^ d2) (Zpos m2) ltac:(lia)) as Hdm.
  pose proof (Z.mod_pos_bound (Zpos m1 * 2 ^ d2) (Zpos m2) ltac:(lia)) as Hmb.
  unfold Z.div, Z.modulo in Hdm, Hmb.
  destruct (Z.div_eucl (Zpos m1 * 2 ^ d2) (Zpos m2)) as [q r].
  assert (Hq : Zpos m1 <= q <= 2 * Zpos m1).
  { split.
    - assert (Zpos m2 * Zpos m1 < Zpos m2 * (q + 1)); [nia|].
      apply Z.mul_lt_mono_pos_l in H; lia.
    - assert (Hh : 2 ^ d2 = 2 * 2 ^ (d2 - 1)).
      { rewrite <- Z.pow_succ_r by (unfold d2; lia). f_equal. lia. }
      assert (Zpos m2 * q <= Zpos m2 * (2 * Zpos m1)); [nia|].
      apply Z.mul_le_mono_pos_l in H; lia. }
  destruct q as [|q|q]; try lia.
  pose proof (digits2_bounds q) as [Hloq Hhiq].
  assert (Hdq : 53 <= Zpos (digits2_pos q) <= 54).
  { split.
    - destruct (Z_le_gt_dec 53 (Zpos (digits2_pos q))) as [|Hgt]; [assumption|].
      assert (2 ^ Zpos (digits2_pos q) <= 2 ^ 52) by (apply Z.pow_le_mono_r; lia). lia.
    - destruct (Z_le_gt_dec (Zpos (digits2_pos q)) 54) as [|Hgt]; [assumption|].
      assert (2 ^ 54 <= 2 ^ (Zpos (digits2_pos q) - 1)) by (apply Z.pow_le_mono_r; lia).
      change (2 ^ 54) with (2 * 2 ^ 53) in *. lia. }
  pose proof (binary_round_aux_value q (e1 - e2 - d2) (new_location (Zpos m2) r)) as Hv.
  cbv zeta in Hv. rewrite fexp_eq in Hv.
  set (p := Z.max 0 (Z.max (Zpos (digits2_pos q) + (e1 - e2 - d2) - 53) (-1074)
                     - (e1 - e2 - d2))) in *.
  assert (Hp : p = 0 \/ p = 1) by (unfold p; lia).
  destruct Hv as (m' & [Hm' _] & _ & Hv).
  assert (Hfloor : Zpos q - 1 <= m' * 2 ^ p).
  { destruct Hp as [-> | ->].
    - rewrite Z.div_1_r in Hm'. simpl. lia.
    - change (2 ^ 1) with 2 in *.
      pose proof (Z.div_mod (Zpos q) 2 ltac:(lia)).
      pose proof (Z.mod_pos_bound (Zpos q) 2 ltac:(lia)). lia. }
  assert (Hm'pos : 0 < m').
  { assert (0 < Zpos q / 2 ^ p); [|lia].
    apply Z.div_str_pos. destruct Hp as [-> | ->]; simpl; lia. }
  destruct (binary_round_aux prec emax false (Zpos q) (e1 - e2 - d2) _) as [s|s| |s m e].
  - lia.
  - destruct Hv as (_ & _ & Hinf). lia.
  - assumption.
  - destruct Hv as (-> & _ & Hval). split; [reflexivity|]. rewrite Hval.
    rewrite (bpow_add (e1 - e2 - d2) p), (bpow_IZR p) by lia.
    assert (Hz : Zpos m1 * 2 ^ d2 - 2 * 2 ^ d2 <= m' * 2 ^ p * Zpos m2) by nia.
    apply IZR_le in Hz. rewrite minus_IZR, !mult_IZR, <- (bpow_IZR d2) in Hz
      by (unfold d2; lia).
    replace e1 with ((e1 - e2 - d2) + e2 + d2) at 1 by ring. rewrite !bpow_add.
    pose proof (bpow_gt_0 (e1 - e2 - d2)). pose proof (bpow_gt_0 e2).
    assert (Hsc : (0 < bpow (e1 - e2 - d2) * bpow e2)%R) by nra.
    assert (H51 : (bpow (-51) * IZR (Zpos m1) >= 2)%R).
    { apply IZR_le in Hn1. rewrite <- (bpow_IZR 52) in Hn1 by lia.
      replace 2%R with (bpow (-51) * bpow 52)%R
        by (rewrite <- bpow_add; unfold bpow; simpl; lra).
      pose proof (bpow_gt_0 (-51)). nra. }
    pose proof (bpow_gt_0 d2).
    replace (IZR (Zpos m1) * (bpow (e1 - e2 - d2) * bpow e2 * bpow d2) * (1 - bpow (-51)))%R
      with (bpow (e1 - e2 - d2) * bpow e2
            * (IZR (Zpos m1) * bpow d2 - bpow (-51) * IZR (Zpos m1) * bpow d2))%R by ring.
    replace (IZR m' * (bpow (e1 - e2 - d2) * IZR (2 ^ p)) * (IZR (Zpos m2) * bpow e2))%R
      with (bpow (e1 - e2 - d2) * bpow e2 * (IZR m' * IZR (2 ^ p) * IZR (Zpos m2)))%R by ring.
    apply Rmult_le_compat_l; [lra|]. nra.
Qed.

(** A rounded product that is at least 1 is at least the exact product, up
    to one unit in the last place. *)
Lemma mul_rounded_lower mc ec mx ex :
  SpecFloat.bounded prec emax mc ec = true ->
  SpecFloat.bounded prec emax mx ex = true ->
  (1 <= IZR (Zpos mc) * bpow ec * (IZR (Zpos mx) * bpow ex))%R ->
  (IZR (Zpos mc) * bpow ec * (IZR (Zpos mx) * bpow ex) * (1 - bpow (-52))
   <= mul_rounded mc ec mx ex)%R.
Proof.
  intros Hc Hx Hone. pose proof (mul_shift_nonneg mc ec mx ex Hc Hx) as Hp.
  unfold mul_rounded. cbv zeta.
  set (M := (mc * mx)%positive) in *. set (e := ec + ex) in *.
  pose proof (val_magnitude M e) as [Hmlo Hmhi].
  pose proof (digits2_bounds M) as [Hlo Hhi].
  assert (Hval : (IZR (Zpos M) * bpow e
                  = IZR (Zpos mc) * bpow ec * (IZR (Zpos mx) * bpow ex))%R).
  { unfold M, e. rewrite Pos2Z.inj_mul, mult_IZR, bpow_add. ring. }
  rewrite <- Hval in *.
  assert (Hmag : 1 <= Zpos (digits2_pos M) + e).
  { destruct (Z_le_gt_dec 1 (Zpos (digits2_pos M) + e)) as [|Hgt]; [assumption|].
    pose proof (bpow_le (Zpos (digits2_pos M) + e) 0 ltac:(lia)) as Hb.
    rewrite bpow_0 in Hb. lra. }
  rewrite fexp_eq in *.
  replace (Z.max (Zpos (digits2_pos M) + e - 53) (-1074) - e)
    with (Zpos (digits2_pos M) - 53) in * by lia.
  set (p := Zpos (digits2_pos M) - 53) in *.
  pose proof (rne_bounds (Zpos M) p Hp) as [Hr _].
  pose proof (Z.pow_pos_nonneg 2 p ltac:(lia) Hp) as Hpos.
  pose proof (Z.div_mod (Zpos M) (2 ^ p) ltac:(lia)) as Hdm.
  pose proof (Z.mod_pos_bound (Zpos M) (2 ^ p) Hpos) as Hmb.
  assert (Hbig : 2 ^ p * 2 ^ 52 <= Zpos M).
  { rewrite <- Z.pow_add_r by lia. replace (p + 52) with (Zpos (digits2_pos M) - 1)
      by (unfold p; lia). assumption. }
  assert (Hz : Zpos M - 2 ^ p <= rne (Zpos M) p * 2 ^ p) by nia.
  apply IZR_le in Hz. rewrite minus_IZR, mult_IZR in Hz.
  apply IZR_le in Hbig. rewrite mult_IZR, <- (bpow_IZR 52) in Hbig by lia.
  rewrite (bpow_add e p), (bpow_IZR p) by lia.
  pose proof (bpow_gt_0 e). pose proof (IZR_lt 0 (2 ^ p) Hpos) as Hpp.
  assert (H52 : (bpow (-52) * bpow 52 = 1)%R) by (rewrite <- bpow_add; reflexivity).
  pose proof (bpow_gt_0 (-52)).
  assert (Hsmall : (IZR (2 ^ p) <= bpow (-52) * IZR (Zpos M))%R).
  { replace (IZR (2 ^ p)) with (bpow (-52) * (IZR (2 ^ p) * bpow 52))%R
      by (rewrite (Rmult_comm (IZR (2 ^ p))), <- Rmult_assoc, H52; ring).
    apply Rmult_le_compat_l; lra. }
  replace (IZR (rne (Zpos M) p) * (bpow e * IZR (2 ^ p)))%R
    with (bpow e * (IZR (rne (Zpos M) p) * IZR (2 ^ p)))%R by ring.
  replace (IZR (Zpos M) * bpow e * (1 - bpow (-52)))%R
    with (bpow e * (IZR (Zpos M) - bpow (-52) * IZR (Zpos M)))%R by ring.
  apply Rmult_le_compat_l; lra.
Qed.

(** The dimension computed from [MAX_DIMENSION / w] is [MAX_DIMENSION] or
    one less. *)
Lemma tight_dimension w n :
  0 < w < 2 ^ 63 ->
  PyFloat.to_int (PyFloat.int_mul w (PyFloat.of_int MAX_DIMENSION / PyFloat.of_int w))
    = Ok n ->
  MAX_DIMENSION - 1 <= n.
Proof.
  intros Hw Hn.
  destruct (truediv_MAX_DIMENSION w Hw) as [Nq _].
  pose proof (int_mul_to_int w _ n ltac:(lia) Nq Hn) as [_ Hhi].
  pose proof (Prim2SF_valid (PyFloat.of_int MAX_DIMENSION / PyFloat.of_int w)) as Vq.
  revert Hhi Vq Nq. rewrite FloatAxioms.div_spec, Prim2SF_MAX_DIMENSION.
  destruct (of_int_nonneg w ltac:(lia)) as (_ & _ & Hpos).
  destruct (Hpos ltac:(lia)) as (mc & ec & -> & Hb & Hge).
  pose proof (bounded_val_lt mc ec Hb) as Hlt.
  pose proof (val_magnitude mc ec) as [Hmlo Hmhi].
  assert (Hmag : 1 <= Zpos (digits2_pos mc) + ec <= 1024).
  { split.
    - destruct (Z_le_gt_dec 1 (Zpos (digits2_pos mc) + ec)) as [|Hgt]; [assumption|].
      pose proof (bpow_le (Zpos (digits2_pos mc) + ec) 0 ltac:(lia)) as Hb0.
      rewrite bpow_0 in Hb0. lra.
    - destruct (Z_le_gt_dec (Zpos (digits2_pos mc) + ec) 1024) as [|Hgt]; [assumption|].
      pose proof (bpow_le 1024 (Zpos (digits2_pos mc) + ec - 1) ltac:(lia)). lra. }
  pose proof (SFdiv_lower 8796093022208000 (-41) mc ec eq_refl ltac:(lia) Hb ltac:(lia))
    as Hd.
  destruct (SF64div _ _) as [s|s| |s mq eq]; try contradiction.
  destruct Hd as [-> Hd]. intros Hhi Vq _. cbn [product_val] in Hhi.
  assert (H4000 : (IZR 8796093022208000 * bpow (-41) = 4000)%R).
  { replace (bpow (-41)) with (/ bpow 41)%R by (symmetry; apply (bpow_opp 41)).
    rewrite (bpow_IZR 41) by lia. change (2 ^ 41) with 2199023255552. lra. }
  rewrite H4000 in Hd.
  pose proof (bpow_small (-51) ltac:(lia)) as [H51 H51'].
  pose proof (bpow_small (-52) ltac:(lia)) as [H52 H52'].
  assert (Hprod : (3999.9 <= IZR (Zpos mc) * bpow ec * (IZR (Zpos mq) * bpow eq))%R) by lra.
  pose proof (mul_rounded_lower mc ec mq eq Hb Vq ltac:(lra)) as Hlow.
  assert (Hr : (3999 < mul_rounded mc ec mq eq)%R) by nra.
  assert (Hb' : (IZR (MAX_DIMENSION - 2) < IZR n)%R).
  { replace (MAX_DIMENSION - 2) with 3998 by reflexivity. lra. }
  apply lt_IZR in Hb'. lia.
Qed.

Section TightClamp.
Context `{PIL} `{Interpreter}.

(** X19.  When [process_image] reduces the scale factor, it reduces it no
    more than the limit asks: the processed width or the processed height
    is [MAX_DIMENSION] or one less. *)
Theorem clamp_is_tight data s w out meta w'
    (Hrun : process_image data s w = (Ok (out, meta), w'))
    (Hreduced : scale_factor meta <> s) :
  MAX_DIMENSION - 1 <= fst (processed_size meta) \/
  MAX_DIMENSION - 1 <= snd (processed_size meta).
Proof.
  apply process_image_returns, transform_returns in Hrun
    as (img & rgb & _ & _ & _ & _ & Hdims & _).
  pose proof (dimension_bounded (fst (size rgb))) as Hw.
  pose proof (dimension_bounded (snd (size rgb))) as Hh.
  revert Hdims. unfold target_dimensions, mbind, result_bind.
  set (original_width := Uint63.to_Z (fst (size rgb))) in *.
  set (original_height := Uint63.to_Z (snd (size rgb))) in *.
  destruct (PyFloat.to_int (PyFloat.int_mul original_width s))
    as [new_width|e] eqn:Hnw; [|discriminate].
  destruct (PyFloat.to_int (PyFloat.int_mul original_height s))
    as [new_height|e] eqn:Hnh; [|discriminate].
  destruct ((new_width >? MAX_DIMENSION) || (new_height >? MAX_DIMENSION)) eqn:Hc.
  2:{ intros [= Hs _ _]. congruence. }
  assert (Ns : nonneg_finite (Prim2SF s)).
  { apply orb_true_iff in Hc. unfold MAX_DIMENSION in Hc.
    destruct Hc as [Hc|Hc]; apply Z.gtb_lt in Hc.
    - destruct (positive_dimension_factor _ s new_width Hw Hnw ltac:(lia))
        as (m & e & ->). reflexivity.
    - destruct (positive_dimension_factor _ s new_height Hh Hnh ltac:(lia))
        as (m & e & ->). reflexivity. }
  unfold PyFloat.int_truediv.
  destruct (Z.eqb_spec original_width 0) as [|Hw0]; [discriminate|].
  destruct (Z.eqb_spec original_height 0) as [|Hh0]; [discriminate|].
  destruct (truediv_MAX_DIMENSION original_width ltac:(lia)) as [Nqw _].
  destruct (truediv_MAX_DIMENSION original_height ltac:(lia)) as [Nqh _].
  destruct (min3_spec _ _ s Nqw Nqh Ns) as (Hone & _). cbv zeta in Hone.
  set (clamped := PyFloat.min3 _ _ s) in *.
  destruct (PyFloat.to_int (PyFloat.int_mul original_width clamped))
    as [nw'|e] eqn:Hnw'; [|discriminate].
  destruct (PyFloat.to_int (PyFloat.int_mul original_height clamped))
    as [nh'|e] eqn:Hnh'; [|discriminate].
  intros [= Hs Hfw Hfh]. rewrite <- Hfw, <- Hfh.
  destruct Hone as [Hq|[Hq|Hq]].
  - left. rewrite Hq in Hnw'. apply (tight_dimension original_width); [lia|assumption].
  - right. rewrite Hq in Hnh'. apply (tight_dimension original_height); [lia|assumption].
  - congruence.
Qed.

End TightClamp.

Section TightClampExample.
#[local] Existing Instance Raster.backend.
#[local] Existing Instance Raster.interpreter.

Lemma clamp_is_tight_witness :
  exists out meta w',
    process_image (Raster.file_bytes Byte.x01 3000 2000) 2%float Raster.empty_world
      = (Ok (out, meta), w') /\
    (MAX_DIMENSION - 1 <= fst (processed_size meta) \/
     MAX_DIMENSION - 1 <= snd (processed_size meta)).
Proof.
  destruct (process_image (Raster.file_bytes Byte.x01 3000 2000) 2%float Raster.empty_world)
    as [[[out meta]|e] w'] eqn:Hrun; [|vm_compute in Hrun; discriminate].
  exists out, meta, w'. split; [reflexivity|].
  apply (clamp_is_tight (Raster.file_bytes Byte.x01 3000 2000) 2%float
           Raster.empty_world out meta w' Hrun).
  pose proof Hrun as Hrun'. vm_compute in Hrun'. injection Hrun' as _ <- _.
  intros Heq. apply (f_equal Prim2SF) in Heq. vm_compute in Heq. discriminate.
Defined.

End TightClampExample.
